(** * QtPyVCP status synchronisation: a shallow embedding

  The development follows two source files of QtPyVCP:

  - [QtPyVCP/utilities/status.py]: the [_Status], [_Joint] and [_Error]
    classes (poll, diff, dispatch, derived positions, code formatting);
  - [QtPyVCP/actions/machine_actions.py]: the axis letter/number helpers.

  Part I holds the embedding, Part II the properties. *)

From Stdlib Require Import ZArith String Ascii PrimFloat.
From stdpp Require Import base option list gmap strings pretty sorting.

Local Open Scope string_scope.
Local Open Scope list_scope.
Local Open Scope Z_scope.

(* ===================================================================== *)
(** * Part I.  The embedding *)
(* ===================================================================== *)

(** ** Fragments of the Python 2 runtime used by the sources *)

Module Py.

(** The exceptions the modelled code can raise. *)
Inductive exn : Type :=
| IndexError
| ValueError
| TypeError
| AttributeError (name : string)
| NameError (name : string).

Inductive result (A : Type) : Type :=
| Ok (a : A)
| Raise (e : exn).
Global Arguments Ok {A} a.
Global Arguments Raise {A} e.

Definition is_ok {A} (r : result A) : bool :=
  match r with Ok _ => true | Raise _ => false end.

Global Instance result_ret : MRet result := λ A a, Ok a.

Global Instance result_bind : MBind result := λ A B k r,
  match r with Ok a => k a | Raise e => Raise e end.

(** [seq[i]] on a tuple or list: negative subscripts count from the end,
    anything outside [-len, len) raises [IndexError]. *)
Definition getitem {A} (l : list A) (i : Z) : result A :=
  let n := Z.of_nat (length l) in
  let j := if Z.ltb i 0 then i + n else i in
  if Z.ltb j 0 then Raise IndexError
  else match l !! Z.to_nat j with
       | Some x => Ok x
       | None => Raise IndexError
       end.

(** [seq[i]] for a subscript known to be non-negative (a [range] index). *)
Definition getitem_nat {A} (l : list A) (i : nat) : result A :=
  match l !! i with
  | Some x => Ok x
  | None => Raise IndexError
  end.

(** [seq[i] = x] on a list, with a non-negative subscript. *)
Definition setitem_nat {A} (l : list A) (i : nat) (x : A) : result (list A) :=
  if decide (i < length l)%nat then Ok (<[i := x]> l) else Raise IndexError.

(** [list.index(x)]: position of the first occurrence, [ValueError] if
    there is none. *)
Fixpoint list_index `{EqDecision A} (x : A) (l : list A) : result Z :=
  match l with
  | [] => Raise ValueError
  | y :: l' =>
      if decide (y = x) then Ok 0
      else match list_index x l' with
           | Ok i => Ok (i + 1)
           | Raise e => Raise e
           end
  end.

(** [str.lower()] on a byte string: the letters A-Z are mapped to a-z. *)
Definition lower_ascii (c : ascii) : ascii :=
  let n := nat_of_ascii c in
  if (Nat.leb 65 n && Nat.leb n 90)%bool then ascii_of_nat (n + 32) else c.

Fixpoint lower (s : string) : string :=
  match s with
  | EmptyString => EmptyString
  | String c s' => String (lower_ascii c) (lower s')
  end.

(** [s.startswith(p)]. *)
Definition startswith (s p : string) : bool := String.prefix p s.

(** ["{0}".format(n)] for an [int]: decimal digits, a leading minus sign
    for negative numbers. *)
Definition format_int (n : Z) : string := pretty n.

(** [sorted(l)] on integers. *)
Definition sorted (l : list Z) : list Z := merge_sort Z.le l.

End Py.

(** ** machine_actions.py: axis letters and numbers *)

Module MachineActions.

(** The argument of both helpers is [int | str]. *)
Inductive axis_arg : Type :=
| AxisInt (n : Z)
| AxisStr (s : string).

Definition axis_letters : list string :=
  ["x"; "y"; "z"; "a"; "b"; "c"; "u"; "v"; "w"; "all"].

Definition getAxisLetter (axis : axis_arg) : Py.result string :=
  match axis with
  | AxisInt n => Py.getitem axis_letters n
  | AxisStr s => Py.Ok (Py.lower s)
  end.

Definition getAxisNumber (axis : axis_arg) : Py.result Z :=
  match axis with
  | AxisStr s => Py.list_index (Py.lower s) axis_letters
  | AxisInt n => Py.Ok n
  end.

End MachineActions.


(** ** status.py: the status, joint and error objects *)

Module Status.

(** Attribute names of [linuxcnc.stat] that [_Status.__init__] leaves out of
    the monitored set. *)
Definition excluded_items : list string :=
  ["axes"; "axis"; "joint"; "cycle_time"; "linear_units";
   "angular_units"; "acceleration"; "max_velocity"; "kinematics_type";
   "joints"; "settings"; "axis_mask"; "max_acceleration"; "echo_serial_number";
   "id"; "poll"; "command"; "debug"].

(** The [pyqtSignal] attributes declared in the body of [_Status]. *)
Definition Status_signals : list string :=
  ["active_queue"; "queue"; "queue_full"; "queued_mdi_commands";
   "position"; "actual_position"; "joint_position"; "joint_actual_position";
   "dtg"; "distance_to_go";
   "current_vel"; "velocity";
   "g5x_index"; "g5x_offset"; "g92_offset"; "tool_offset"; "rotation_xy";
   "ain"; "aout"; "din"; "dout";
   "mist"; "flood";
   "mcodes"; "gcodes";
   "homed"; "inpos"; "limit";
   "delay_left"; "input_timeout";
   "lube"; "lube_level";
   "optional_stop"; "block_delete"; "paused"; "feed_hold_enabled";
   "probe_tripped"; "probe_val"; "probed_position"; "probing";
   "file"; "program_units"; "motion_line"; "current_line"; "read_line";
   "call_level";
   "spindle_brake"; "spindle_direction"; "spindle_enabled";
   "spindle_override_enabled"; "spindle_speed"; "spindle_increasing";
   "feedrate"; "rapidrate"; "spindlerate"; "feed_override_enabled";
   "adaptive_feed_enabled";
   "enabled"; "estop"; "state"; "exec_state"; "task_mode"; "task_paused";
   "task_state"; "motion_mode"; "motion_type"; "interp_state";
   "interpreter_errcode";
   "tool_in_spindle"; "pocket_prepped"; "tool_table";
   "axis_positions"; "joint_positions"; "formated_gcodes"; "formated_mcodes";
   "file_loaded";
   "backplot_line_selected"; "backplot_gcode_error"; "reload_backplot";
   "recent_files_changed";
   "on_shutown"].

(** The [pyqtSignal] attributes declared in the body of [_Joint]. *)
Definition Joint_signals : list string :=
  ["jointType"; "backlash"; "enabled"; "fault"; "ferror_current";
   "ferror_highmark"; "homed"; "homing"; "inpos"; "input"; "max_ferror";
   "max_hard_limit"; "max_soft_limit"; "min_hard_limit"; "min_soft_limit";
   "output"; "override_limits"; "velocity"].

(** Both classes derive from [QObject], which brings two signals of its own. *)
Definition QObject_signals : list string := ["destroyed"; "objectNameChanged"].

(** The bound methods of [_Status] that are connected as slots. *)
Inductive slot : Type :=
| Slot_updateAxisPositions
| Slot_updateJointPositions
| Slot_updateFormatedGcodes
| Slot_updateFormatedMcodes
| Slot_updateFileLoaded.

Global Instance slot_eq_dec : EqDecision slot.
Proof. solve_decision. Defined.

(** The extended status signal on which each slot emits. *)
Definition slot_signal (sl : slot) : string :=
  match sl with
  | Slot_updateAxisPositions => "axis_positions"
  | Slot_updateJointPositions => "joint_positions"
  | Slot_updateFormatedGcodes => "formated_gcodes"
  | Slot_updateFormatedMcodes => "formated_mcodes"
  | Slot_updateFileLoaded => "file_loaded"
  end.

(** Calls made to the module logger, by level.  The module sets the level
    of its logger to [WARNING], so a logger that follows the standard
    levels does not write out what [log.info] is given. *)
Inductive log_entry : Type :=
| LogWarning (msg : string)
| LogError (msg : string)
| LogInfo (msg : string).

(** Message classes of the LinuxCNC error channel, with the numbers the
    [linuxcnc] module exports for them. *)
Definition NML_ERROR : Z := 1.
Definition NML_TEXT : Z := 2.
Definition NML_DISPLAY : Z := 3.
Definition OPERATOR_ERROR : Z := 11.
Definition OPERATOR_TEXT : Z := 12.
Definition OPERATOR_DISPLAY : Z := 13.

(** One entry of the error channel: [(kind, msg)], where [msg] may be
    [None]. *)
Definition error_entry : Type := Z * option string.

Section WithValue.

(** The values held by status attributes: integers, booleans, strings,
    floats and tuples of these. *)
Context {value : Type}.

(** What [self.stat] shows after a poll: [attr] is [getattr(self.stat, _)]
    on the monitored attributes, [joint] and [joints] are the attributes of
    these names. *)
Record snapshot : Type := Snapshot {
  attr : string → value;
  joint : list (gmap string value);
  joints : nat
}.

(** What the methods take from the Python runtime and from PyQt.

    [py_ne old new] is Python's [old != new] between a retained value and
    a freshly polled one.  It is value inequality, except that a float NaN
    is unequal to every float, itself included; nothing is assumed of it
    here, and the properties that need a value to equal itself say so.

    [signal_arg name v] and [joint_signal_arg name v] are the argument [v]
    of [emit] as the receivers of signal [name] of [_Status], respectively
    of [_Joint], get it: PyQt converts it to the type that the signal's
    [pyqtSignal] declares ([task_state], declared [bool], delivers [True]
    for any task state other than 0; a [tuple] or [str] signal hands the
    object on).  An argument that cannot be converted would make [emit]
    raise [TypeError]; the attributes of the status record hold values
    that their signals accept, and the conversion is taken to succeed.

    [slot_emits sl arg s] is what the slot [sl] of [_Status], called with
    the argument [arg] while the status object shows [s], emits on its own
    signal: [Some payload], or [None] when it emits nothing, because its
    condition does not hold ([updateFileLoaded]) or because it raises
    ([updateAxisPositions] under a rotation, see below).  An exception
    that leaves a slot does not reach the caller of [emit]: PyQt hands it
    to [sys.excepthook], and [emit] goes on with the next slot.  (From
    version 5.5 on PyQt ends the process there if the program installed
    no hook of its own; the model follows a program that goes on.)  The
    bodies of the slots are modelled on their own further down, on the
    typed contents of their arguments; the properties of the cycle hold
    whatever the slots emit. *)
Class Runtime : Type := {
  py_ne : value → value → bool;
  signal_arg : string → value → value;
  joint_signal_arg : string → value → value;
  slot_emits : slot → value → snapshot → option value
}.

Context `{!Runtime}.

(** A signal emission, with the argument as the receivers get it, in the
    order in which [emit] is called.  [StatusSignal] is an emission made by
    [_periodic] or [forceUpdate] on the signal of a status attribute,
    [ExtendedSignal] one made by a slot of [_Status] on its extended
    status signal, [JointSignal] one made by [_Joint], [NewError] and
    [NewMessage] those of [_Error]. *)
Inductive event : Type :=
| StatusSignal (name : string) (v : value)
| ExtendedSignal (name : string) (v : value)
| JointSignal (name : string) (jnum : nat) (v : value)
| NewError (msg : string)
| NewMessage (msg : string).

(** The mutable objects behind a [_Status] instance, with the trace of what
    it emitted and logged. *)
Record world : Type := World {
  stat : snapshot;
  old : gmap string value;
  joint_old : list (gmap string value);
  num_joints : nat;
  timer_active : bool;
  error_queue : list error_entry;
  report_actual_position : bool;
  connections : list (string * slot);
  emitted : list event;
  logged : list log_entry
}.

Definition set_stat (s : snapshot) (w : world) : world :=
  World s (old w) (joint_old w) (num_joints w) (timer_active w) (error_queue w)
        (report_actual_position w) (connections w) (emitted w) (logged w).

Definition set_old (o : gmap string value) (w : world) : world :=
  World (stat w) o (joint_old w) (num_joints w) (timer_active w) (error_queue w)
        (report_actual_position w) (connections w) (emitted w) (logged w).

Definition set_joint_old (j : list (gmap string value)) (w : world) : world :=
  World (stat w) (old w) j (num_joints w) (timer_active w) (error_queue w)
        (report_actual_position w) (connections w) (emitted w) (logged w).

Definition set_timer_active (b : bool) (w : world) : world :=
  World (stat w) (old w) (joint_old w) (num_joints w) b (error_queue w)
        (report_actual_position w) (connections w) (emitted w) (logged w).

Definition set_error_queue (q : list error_entry) (w : world) : world :=
  World (stat w) (old w) (joint_old w) (num_joints w) (timer_active w) q
        (report_actual_position w) (connections w) (emitted w) (logged w).

Definition set_report_actual_position (b : bool) (w : world) : world :=
  World (stat w) (old w) (joint_old w) (num_joints w) (timer_active w) (error_queue w)
        b (connections w) (emitted w) (logged w).

Definition set_connections (c : list (string * slot)) (w : world) : world :=
  World (stat w) (old w) (joint_old w) (num_joints w) (timer_active w) (error_queue w)
        (report_actual_position w) c (emitted w) (logged w).

Definition add_event (e : event) (w : world) : world :=
  World (stat w) (old w) (joint_old w) (num_joints w) (timer_active w) (error_queue w)
        (report_actual_position w) (connections w) (emitted w ++ [e]) (logged w).

Definition add_log (l : log_entry) (w : world) : world :=
  World (stat w) (old w) (joint_old w) (num_joints w) (timer_active w) (error_queue w)
        (report_actual_position w) (connections w) (emitted w) (logged w ++ [l]).

(** *** Methods as state transformers that may raise *)

Definition M (A : Type) : Type := world → world * Py.result A.

Global Instance M_ret : MRet M := λ A a w, (w, Py.Ok a).

Global Instance M_bind : MBind M := λ A B k m w,
  match m w with
  | (w', Py.Ok a) => k a w'
  | (w', Py.Raise e) => (w', Py.Raise e)
  end.

Definition raise {A} (e : Py.exn) : M A := λ w, (w, Py.Raise e).
Definition gets {A} (f : world → A) : M A := λ w, (w, Py.Ok (f w)).
Definition modify (f : world → world) : M unit := λ w, (f w, Py.Ok tt).
Definition lift {A} (r : Py.result A) : M A := λ w, (w, r).

(** [for x in l: body(x)] *)
Fixpoint for_each {A} (l : list A) (body : A → M unit) : M unit :=
  match l with
  | [] => mret tt
  | x :: l' => body x ;; for_each l' body
  end.

(** A slot of [_Status] called by Qt with the argument of the signal it
    is connected to: all it does is emit on its own signal, or nothing.
    These classes connect no slot to an extended status signal, so the
    emission of a slot triggers no further slot of theirs. *)
Definition run_slot (sl : slot) (arg : value) : M unit :=
  s ← gets stat;
  match slot_emits sl arg s with
  | Some payload => modify (add_event (ExtendedSignal (slot_signal sl) payload))
  | None => mret tt
  end.

(** [getattr(self, name).emit(v)] on the [_Status] object: the attribute has
    to be one of its signals.  Qt then calls the slots connected to that
    signal, in the order in which they were connected, before [emit]
    returns. *)
Definition Status_emit (name : string) (v : value) : M unit :=
  if bool_decide (name ∈ (Status_signals ++ QObject_signals)%list)
  then
    let arg := signal_arg name v in
    modify (add_event (StatusSignal name arg));;
    conns ← gets connections;
    for_each (filter (λ c, c.1 = name) conns) (λ c, run_slot c.2 arg)
  else raise (Py.AttributeError name).

(** [getattr(self, name).emit(jnum, v)] on the [_Joint] object; nothing is
    connected to its signals by these classes. *)
Definition Joint_emit (name : string) (jnum : nat) (v : value) : M unit :=
  if bool_decide (name ∈ (Joint_signals ++ QObject_signals)%list)
  then modify (add_event (JointSignal name jnum (joint_signal_arg name v)))
  else raise (Py.AttributeError name).

(** [signal.connect(slot)] and [signal.disconnect(slot)]; disconnecting a
    slot that is not connected raises [TypeError]. *)
Definition connect (sig : string) (sl : slot) : M unit :=
  modify (λ w, set_connections (connections w ++ [(sig, sl)]) w).

Fixpoint remove_first (c : string * slot) (l : list (string * slot)) : list (string * slot) :=
  match l with
  | [] => []
  | c' :: l' => if decide (c' = c) then l' else c' :: remove_first c l'
  end.

Definition disconnect (sig : string) (sl : slot) : M unit :=
  conns ← gets connections;
  if bool_decide ((sig, sl) ∈ conns)
  then modify (set_connections (remove_first (sig, sl) conns))
  else raise Py.TypeError.

(** *** [_Status.__init__] *)

(** The loop that fills [self.old] from [dir(self.stat)]. *)
Definition init_old (dir_stat : list string) (s : snapshot) : gmap string value :=
  foldl (λ o item,
           if (Py.startswith item "_" || bool_decide (item ∈ excluded_items))%bool
           then o
           else <[item := attr s item]> o)
        ∅ dir_stat.

(** The object once the constructor has run and the single-shot
    [startPeriodic] has fired: [dir_stat] is [dir(self.stat)], [s] what the
    status object shows after the initial poll attempt, [q] the pending
    entries of the error channel. *)
Definition Status_init (dir_stat : list string) (s : snapshot) (q : list error_entry) : world :=
  {| stat := s;
     old := init_old dir_stat s;
     joint_old := joint s;
     num_joints := joints s;
     timer_active := true;
     error_queue := q;
     report_actual_position := false;
     connections :=
       [("position", Slot_updateAxisPositions);
        ("g5x_offset", Slot_updateAxisPositions);
        ("g92_offset", Slot_updateAxisPositions);
        ("tool_offset", Slot_updateAxisPositions);
        ("joint_position", Slot_updateJointPositions);
        ("gcodes", Slot_updateFormatedGcodes);
        ("mcodes", Slot_updateFormatedMcodes);
        ("file", Slot_updateFileLoaded)];
     emitted := [];
     logged := [] |}.

Definition startPeriodic : M unit := modify (set_timer_active true).

(** *** [_Joint._periodic] *)

(** An item [(name, v)] of a new joint record has no equal among the items
    of the old record [old_j]: the old record lacks the name, or holds
    under it a value that [!=] tells from [v]. *)
Definition item_is_new (old_j : gmap string value) (item : string * value) : bool :=
  match old_j !! item.1 with
  | Some old_v => py_ne old_v item.2
  | None => true
  end.

(** [new_j != old_j] on two dictionaries: they are equal when they have
    the same number of items and every item of [new_j] has its equal in
    [old_j]. *)
Definition dict_ne (new_j old_j : gmap string value) : bool :=
  negb (bool_decide (size new_j = size old_j)
        && forallb (λ item, negb (item_is_new old_j item)) (map_to_list new_j)).

(** [tuple(set(new.items()) - set(old.items()))]: the items of [new] that
    have no equal among the items of [old].  Python leaves the order of a
    set unspecified; the list below fixes one, and the properties only
    speak of membership. *)
Definition changed_items (new_j old_j : gmap string value) : list (string * value) :=
  filter (λ item, item_is_new old_j item = true) (map_to_list new_j).

(** Body of the loop over [range(self.num_joints)]. *)
Definition diff_joint (new old_ : list (gmap string value)) (jnum : nat) : M unit :=
  new_j ← lift (Py.getitem_nat new jnum);
  old_j ← lift (Py.getitem_nat old_ jnum);
  if dict_ne new_j old_j
  then for_each (changed_items new_j old_j)
                (λ item, Joint_emit item.1 jnum item.2)
  else mret tt.

Definition Joint_periodic : M unit :=
  new ← gets (λ w, joint (stat w));
  old_ ← gets joint_old;
  modify (set_joint_old new);;
  n ← gets num_joints;
  for_each (seq 0 n) (diff_joint new old_).

(** *** [_Error._periodic] *)

(** [self.error.poll()]: takes the oldest pending entry off the channel,
    [None] when there is none. *)
Definition error_poll : M (option error_entry) :=
  q ← gets error_queue;
  match q with
  | [] => mret None
  | e :: q' => modify (set_error_queue q');; mret (Some e)
  end.

Definition Error_periodic : M unit :=
  error ← error_poll;
  match error with
  | None => mret tt
  | Some (kind, msg) =>
      let msg :=
        match msg with
        | None => "Unknown error!"
        | Some m => if bool_decide (m = "") then "Unknown error!" else m
        end in
      if bool_decide (kind ∈ [NML_ERROR; OPERATOR_ERROR]) then
        modify (add_event (NewError msg));;
        modify (add_log (LogError msg))
      else if bool_decide (kind ∈ [NML_TEXT; OPERATOR_TEXT;
                                   NML_DISPLAY; OPERATOR_DISPLAY]) then
        modify (add_event (NewMessage msg));;
        modify (add_log (LogInfo msg))
      else
        modify (add_log (LogError msg))
  end.

(** *** [_Status._periodic], [forceUpdate], [setReportActualPosition] *)

(** Body of the loop over [self.old.iteritems()]. *)
Definition diff_field (item : string * value) : M unit :=
  let key := item.1 in
  let old_value := item.2 in
  new_value ← gets (λ w, attr (stat w) key);
  if py_ne old_value new_value
  then modify (λ w, set_old (<[key := new_value]> (old w)) w);;
       Status_emit key new_value
  else mret tt.

(** [poll] is the outcome of [self.stat.poll()]: [Some s] when the call
    returns and the status object now shows [s], [None] when it raises
    (the status object is then left as it was). *)
Definition Status_periodic (poll : option snapshot) : M unit :=
  match poll with
  | None =>
      modify (add_log (LogWarning "Status polling failed, is LinuxCNC running?"));;
      modify (set_timer_active false)
  | Some s =>
      modify (set_stat s);;
      items ← gets (λ w, map_to_list (old w));
      for_each items diff_field;;
      Joint_periodic;;
      Error_periodic
  end.

(** The timer's [timeout] signal is connected to [_periodic]; a stopped
    [QTimer] does not fire. *)
Definition timeout (poll : option snapshot) : M unit :=
  active ← gets timer_active;
  if (active : bool) then Status_periodic poll else mret tt.

Definition forceUpdate : M unit :=
  items ← gets (λ w, map_to_list (old w));
  for_each items (λ item, Status_emit item.1 item.2).

Definition setReportActualPosition (report_actual : bool) : M unit :=
  current ← gets report_actual_position;
  if bool_decide (report_actual ≠ current) then
    modify (set_report_actual_position report_actual);;
    now ← gets report_actual_position;
    if (now : bool) then
      disconnect "position" Slot_updateAxisPositions;;
      disconnect "joint_position" Slot_updateJointPositions;;
      connect "actual_position" Slot_updateAxisPositions;;
      connect "joint_actual_position" Slot_updateJointPositions
    else
      disconnect "actual_position" Slot_updateAxisPositions;;
      disconnect "joint_actual_position" Slot_updateJointPositions;;
      connect "position" Slot_updateAxisPositions;;
      connect "joint_position" Slot_updateJointPositions
  else mret tt.

(** *** Drivers *)

(** The world after a run of timer ticks, given the outcome of each poll. *)
Definition run_timeouts (polls : list (option snapshot)) (w : world) : world :=
  foldl (λ w poll, (timeout poll w).1) w polls.

(** The world after a run of calls to [setReportActualPosition]. *)
Definition run_mode_switches (calls : list bool) (w : world) : world :=
  foldl (λ w report_actual, (setReportActualPosition report_actual w).1) w calls.

(** A slot is triggered by a signal when the pair is in the connection
    table. *)
Definition connected (sig : string) (sl : slot) (w : world) : Prop :=
  (sig, sl) ∈ connections w.

(** The attributes of [dir(self.stat)] that [__init__] keeps. *)
Definition monitored (dir_stat : list string) (k : string) : Prop :=
  k ∈ dir_stat ∧ Py.startswith k "_" = false ∧ k ∉ excluded_items.

End WithValue.

Global Arguments snapshot : clear implicits.
Global Arguments Runtime : clear implicits.
Global Arguments event : clear implicits.
Global Arguments world : clear implicits.
Global Arguments M : clear implicits.

(** *** Derived positions and formatted codes *)

(** The position-related attributes of [self.stat], each a tuple of nine
    floats, and the rotation angle. *)
Record position_stat : Type := PositionStat {
  position : list float;
  actual_position : list float;
  joint_position : list float;
  joint_actual_position : list float;
  dtg : list float;
  g5x_offset : list float;
  g92_offset : list float;
  tool_offset : list float;
  rotation_xy : float
}.

(** First loop of [updateAxisPositions]:
    [rel[axis] = pos[axis] - g5x_offset[axis] - tool_offset[axis]]. *)
Fixpoint subtract_offsets (axes : list nat) (pos g5x tool rel : list float)
  : Py.result (list float) :=
  match axes with
  | [] => mret rel
  | axis :: axes' =>
      p ← Py.getitem_nat pos axis;
      g ← Py.getitem_nat g5x axis;
      t ← Py.getitem_nat tool axis;
      rel' ← Py.setitem_nat rel axis (PrimFloat.sub (PrimFloat.sub p g) t);
      subtract_offsets axes' pos g5x tool rel'
  end.

(** Last loop of [updateAxisPositions]: [rel[axis] -= g92_offset[axis]]. *)
Fixpoint subtract_g92 (axes : list nat) (g92 rel : list float)
  : Py.result (list float) :=
  match axes with
  | [] => mret rel
  | axis :: axes' =>
      r ← Py.getitem_nat rel axis;
      g ← Py.getitem_nat g92 axis;
      rel' ← Py.setitem_nat rel axis (PrimFloat.sub r g);
      subtract_g92 axes' g92 rel'
  end.

(** [updateAxisPositions(pos)]; the result is the payload emitted on
    [axis_positions].  [AXIS_NUMBER_LIST] is [INFO.AXIS_NUMBER_LIST], the
    numbers of the configured axes.  The initial [[0] * 9] is written with
    float zeros.

    The rotation branch starts with [t = math.radians(-stat.rotation_xy)].
    The module imports [os], [time] and [linuxcnc] but not [math], and has
    no global [stat] either, so evaluating the name [math] raises
    [NameError] before anything is computed. *)
Definition updateAxisPositions (AXIS_NUMBER_LIST : list nat)
    (report_actual : bool) (st : position_stat) (pos : option (list float))
  : Py.result (list float * list float * list float) :=
  let pos :=
    match pos with
    | Some p => p
    | None => if report_actual then actual_position st else position st
    end in
  rel ← subtract_offsets AXIS_NUMBER_LIST pos (g5x_offset st) (tool_offset st)
                         (replicate 9 0%float);
  rel ← (if negb (PrimFloat.eqb (rotation_xy st) 0%float)
         then Py.Raise (Py.NameError "math")
         else mret rel);
  rel ← subtract_g92 AXIS_NUMBER_LIST (g92_offset st) rel;
  mret (pos, rel, dtg st).

(** [updateJointPositions(pos)]; the result is the payload emitted on
    [joint_positions]. *)
Definition updateJointPositions (report_actual : bool) (st : position_stat)
    (pos : option (list float)) : list float :=
  match pos with
  | Some p => p
  | None => if report_actual then joint_actual_position st else joint_position st
  end.

(** One active G-code as text; [/] on two Python 2 integers is floor
    division. *)
Definition format_gcode (gcode : Z) : string :=
  if bool_decide (gcode `mod` 10 = 0)
  then ("G" ++ Py.format_int (gcode `div` 10))%string
  else ("G" ++ Py.format_int (gcode `div` 10) ++ "." ++ Py.format_int (gcode `mod` 10))%string.

(** [updateFormatedGcodes(gcodes)]; the result is the payload emitted on
    [formated_gcodes]. *)
Definition updateFormatedGcodes (gcodes : list Z) : list string :=
  foldl (λ formated_gcodes gcode,
           if bool_decide (gcode = -1) then formated_gcodes
           else (formated_gcodes ++ [format_gcode gcode])%list)
        [] (Py.sorted (tail gcodes)).

(** [updateFormatedMcodes(mcodes)]; the result is the payload emitted on
    [formated_mcodes]. *)
Definition updateFormatedMcodes (mcodes : list Z) : list string :=
  foldl (λ formated_mcodes mcode,
           if bool_decide (mcode = -1) then formated_mcodes
           else (formated_mcodes ++ [("M" ++ Py.format_int mcode)%string])%list)
        [] (Py.sorted (tail mcodes)).

End Status.


(** ** Further string methods of the Python 2 runtime *)

Module PyStr.

(** [str.upper()] on a byte string: the letters a-z are mapped to A-Z. *)
Definition upper_ascii (c : ascii) : ascii :=
  let n := nat_of_ascii c in
  if (Nat.leb 97 n && Nat.leb n 122)%bool then ascii_of_nat (n - 32) else c.

Fixpoint upper (s : string) : string :=
  match s with
  | EmptyString => EmptyString
  | String c s' => String (upper_ascii c) (upper s')
  end.

(** [s.partition(sep)] for a separator of one character: the part before
    the first separator, the separator, the part after it; the string and
    two empty strings when there is no separator. *)
Fixpoint partition (sep : ascii) (s : string) : string * string * string :=
  match s with
  | EmptyString => (EmptyString, EmptyString, EmptyString)
  | String c s' =>
      if decide (c = sep) then (EmptyString, String sep EmptyString, s')
      else let '(head, found, rest) := partition sep s' in
           (String c head, found, rest)
  end.

(** [s.replace(a, b)] for two strings of one character. *)
Fixpoint replace_char (a b : ascii) (s : string) : string :=
  match s with
  | EmptyString => EmptyString
  | String c s' => String (if decide (c = a) then b else c) (replace_char a b s')
  end.

(** [s.split(sep)] for a separator of one character. *)
Fixpoint split (sep : ascii) (s : string) : list string :=
  match s with
  | EmptyString => [EmptyString]
  | String c s' =>
      if decide (c = sep) then EmptyString :: split sep s'
      else match split sep s' with
           | head :: rest => String c head :: rest
           | [] => [String c EmptyString]
           end
  end.

Definition is_digit (c : ascii) : bool :=
  let n := nat_of_ascii c in (Nat.leb 48 n && Nat.leb n 57)%bool.

Fixpoint all_digits (s : string) : bool :=
  match s with
  | EmptyString => true
  | String c s' => (is_digit c && all_digits s')%bool
  end.

(** [s.isdigit()]: at least one character, and digits only. *)
Definition isdigit (s : string) : bool :=
  match s with
  | EmptyString => false
  | _ => all_digits s
  end.

(** [int(s)] for a string of digits. *)
Fixpoint int_of_digits_from (acc : Z) (s : string) : Z :=
  match s with
  | EmptyString => acc
  | String c s' =>
      int_of_digits_from (10 * acc + Z.of_nat (nat_of_ascii c - 48)) s'
  end.

Definition int_of_digits (s : string) : Z := int_of_digits_from 0 s.

(** [s.endswith(t)]. *)
Definition endswith (s t : string) : bool :=
  bool_decide (list_ascii_of_string t `suffix_of` list_ascii_of_string s).

End PyStr.

(** ** machine_actions.py: the action groups and [bindWidget] *)

Module Actions.

(** Task states and modes, with the numbers the [linuxcnc] module exports
    for them. *)
Definition STATE_ESTOP : Z := 1.
Definition STATE_ESTOP_RESET : Z := 2.
Definition STATE_OFF : Z := 3.
Definition STATE_ON : Z := 4.
Definition MODE_MANUAL : Z := 1.

(** The calls that leave the module: the methods of [CMD], and
    [setTaskMode] of [base_actions]. *)
Inductive command : Type :=
| CMD_state (state : Z)
| CMD_teleop_enable (enable : bool)
| CMD_home (jnum : Z)
| Call_setTaskMode (mode : Z).

Inductive log_record : Type :=
| LogDebug (msg : string)
| LogInfo (msg : string).

(** A [QAction], or a widget with a [clicked] signal, as far as the module
    touches it. *)
Record widget : Type := Widget {
  is_QAction : bool;
  enabled : bool;
  statusTip : string;
  toolTip : string;
  checkable : bool
}.

(** What a slot connected by [bindWidget] does when it runs. *)
Inductive handler : Type :=
| SetCheckedNot            (* lambda v: widget.setChecked(not v) *)
| SetChecked               (* lambda v: widget.setChecked(v) *)
| PowerOk                  (* lambda: power.ok(widget) *)
| HomeOk (jnum : MachineActions.axis_arg).  (* lambda: home.ok(jnum, widget) *)

Section WithModule.

(** The objects that attribute chains starting at this module lead to
    (the action groups and their methods, and whatever else the module
    has imported), with [callable(_)] on them. *)
Context {object : Type} (callable : object → bool).

(** [reduce(getattr, names, sys.modules[__name__])]: the object at the end
    of the chain, [None] included, or the [AttributeError] on the way. *)
Context (module_getattr : list string → Py.result (option object)).

(** [INFO.AXIS_LETTER_LIST], and [INFO.COORDINATES.index]. *)
Context (AXIS_LETTER_LIST : list string).
Context (COORDINATES_index : string → Py.result Z).

(** What the widget's signal is connected to. *)
Inductive target : Type :=
| CallMethod (method : object)                                  (* method *)
| CallMethodWith (method : object) (arg : MachineActions.axis_arg).
                                                  (* lambda: method(arg) *)

Inductive binding : Type :=
| Triggered (t : target)
| Clicked (t : target)
| StatusSignalTo (signal : string) (h : handler).

(** The status record [STAT], the widget at hand, the [msg] attributes of
    the three [ok] functions, and the trace of what was sent, logged and
    connected. *)
Record session : Type := Session {
  STAT_estop : Z;
  STAT_task_state : Z;
  the_widget : widget;
  estop_ok_msg : option string;
  power_ok_msg : option string;
  home_ok_msg : option string;
  sent : list command;
  logged : list log_record;
  bindings : list binding
}.

Definition set_widget (wd : widget) (s : session) : session :=
  Session (STAT_estop s) (STAT_task_state s) wd (estop_ok_msg s)
          (power_ok_msg s) (home_ok_msg s) (sent s) (logged s) (bindings s).

Definition set_estop_ok_msg (m : string) (s : session) : session :=
  Session (STAT_estop s) (STAT_task_state s) (the_widget s) (Some m)
          (power_ok_msg s) (home_ok_msg s) (sent s) (logged s) (bindings s).

Definition set_power_ok_msg (m : string) (s : session) : session :=
  Session (STAT_estop s) (STAT_task_state s) (the_widget s) (estop_ok_msg s)
          (Some m) (home_ok_msg s) (sent s) (logged s) (bindings s).

Definition set_home_ok_msg (m : string) (s : session) : session :=
  Session (STAT_estop s) (STAT_task_state s) (the_widget s) (estop_ok_msg s)
          (power_ok_msg s) (Some m) (sent s) (logged s) (bindings s).

Definition add_command (c : command) (s : session) : session :=
  Session (STAT_estop s) (STAT_task_state s) (the_widget s) (estop_ok_msg s)
          (power_ok_msg s) (home_ok_msg s) (sent s ++ [c]) (logged s) (bindings s).

Definition add_log (l : log_record) (s : session) : session :=
  Session (STAT_estop s) (STAT_task_state s) (the_widget s) (estop_ok_msg s)
          (power_ok_msg s) (home_ok_msg s) (sent s) (logged s ++ [l]) (bindings s).

Definition add_binding (b : binding) (s : session) : session :=
  Session (STAT_estop s) (STAT_task_state s) (the_widget s) (estop_ok_msg s)
          (power_ok_msg s) (home_ok_msg s) (sent s) (logged s) (bindings s ++ [b]).

(** Functions of the module as transformers of the session that may
    raise. *)
Definition Act (A : Type) : Type := session → session * Py.result A.

Global Instance Act_ret : MRet Act := λ A a s, (s, Py.Ok a).

Global Instance Act_bind : MBind Act := λ A B k m s,
  match m s with
  | (s', Py.Ok a) => k a s'
  | (s', Py.Raise e) => (s', Py.Raise e)
  end.

Definition raise {A} (e : Py.exn) : Act A := λ s, (s, Py.Raise e).
Definition gets {A} (f : session → A) : Act A := λ s, (s, Py.Ok (f s)).
Definition modify (f : session → session) : Act unit := λ s, (f s, Py.Ok tt).
Definition lift {A} (r : Py.result A) : Act A := λ s, (s, r).

Definition send (c : command) : Act unit := modify (add_command c).
Definition log (l : log_record) : Act unit := modify (add_log l).

(** [widget.setEnabled(ok); widget.setStatusTip(msg); widget.setToolTip(msg)] *)
Definition show_ok (okay : bool) (msg : string) : Act unit :=
  modify (λ s, set_widget (Widget (is_QAction (the_widget s)) okay msg msg
                                  (checkable (the_widget s))) s).

Definition setCheckable (b : bool) : Act unit :=
  modify (λ s, set_widget (Widget (is_QAction (the_widget s))
                                  (enabled (the_widget s))
                                  (statusTip (the_widget s))
                                  (toolTip (the_widget s)) b) s).

(** *** class estop *)

Definition estop_activate : Act unit :=
  log (LogDebug "Setting state red<ESTOP>");;
  send (CMD_state STATE_ESTOP).

Definition estop_reset : Act unit :=
  log (LogDebug "Setting state green<ESTOP_RESET>");;
  send (CMD_state STATE_ESTOP_RESET).

Definition estop_is_activated : Act bool :=
  gets (λ s, negb (Z.eqb (STAT_estop s) 0)).

Definition estop_toggle : Act unit :=
  activated ← estop_is_activated;
  if (activated : bool) then estop_reset else estop_activate.

Definition estop_ok (with_widget : bool) : Act bool :=
  modify (set_estop_ok_msg "");;
  mret true.

(** *** class power *)

Definition power_on : Act unit :=
  log (LogDebug "Setting state green<ON>");;
  send (CMD_state STATE_ON).

Definition power_off : Act unit :=
  log (LogDebug "Setting state red<OFF>");;
  send (CMD_state STATE_OFF).

Definition power_is_on : Act bool :=
  gets (λ s, Z.eqb (STAT_task_state s) STATE_ON).

Definition power_toggle : Act unit :=
  is_on ← power_is_on;
  if (is_on : bool) then power_off else power_on.

Definition power_ok (with_widget : bool) : Act bool :=
  task_state ← gets STAT_task_state;
  let '(okey, msg) :=
    if Z.eqb task_state STATE_ESTOP_RESET
    then (true, "Turn machine on")
    else (false, "Can't turn machine ON until out of E-Stop") in
  modify (set_power_ok_msg msg);;
  (if with_widget then show_ok okey msg else mret tt);;
  mret okey.

(** *** class home *)

Definition _home_joint (jnum : Z) : Act unit :=
  send (Call_setTaskMode MODE_MANUAL);;
  send (CMD_teleop_enable false);;
  send (CMD_home jnum).

Definition _unhome_joint (jnum : Z) : Act unit :=
  send (Call_setTaskMode MODE_MANUAL);;
  send (CMD_teleop_enable false);;
  send (CMD_home jnum).

Definition home_all : Act unit :=
  log (LogInfo "Homing all axes");;
  _home_joint (-1).

Definition home_axis (axis : MachineActions.axis_arg) : Act unit :=
  axis ← lift (MachineActions.getAxisLetter axis);
  if bool_decide (Py.lower axis = "all") then home_all
  else
    jnum ← lift (COORDINATES_index axis);
    log (LogInfo ("Homing Axis: " ++ PyStr.upper axis)%string);;
    _home_joint jnum.

Definition home_joint (jnum : Z) : Act unit :=
  log (LogInfo ("Homing joint: " ++ Py.format_int jnum)%string);;
  _home_joint jnum.

Definition home_ok (jnum : MachineActions.axis_arg) (with_widget : bool) : Act bool :=
  is_on ← power_is_on;
  let '(okay, msg) :=
    if (is_on : bool) then (true, "") else (false, "Machine must be on to home") in
  modify (set_home_ok_msg msg);;
  (if with_widget then show_ok okay msg else mret tt);;
  mret okay.

(** *** bindWidget *)

(** [STATUS.<name>.connect(h)]: [STATUS] is the [_Status] object, on which
    [name] has to be an attribute that is a signal. *)
Definition STATUS_connect (name : string) (h : handler) : Act unit :=
  if bool_decide (name ∈ (Status.Status_signals ++ Status.QObject_signals)%list)
  then modify (add_binding (StatusSignalTo name h))
  else raise (Py.AttributeError name).

(** [sig.connect(t)], where [sig] is [widget.triggered] for a [QAction]
    and [widget.clicked] otherwise. *)
Definition widget_connect (t : target) : Act unit :=
  wd ← gets the_widget;
  modify (add_binding (if is_QAction wd then Triggered t else Clicked t)).

Definition bindWidget (action : string) : Act unit :=
  let '(action, sep, arg) := PyStr.partition ":" action in
  let action := PyStr.replace_char "-" "_" action in
  method ← lift (module_getattr (PyStr.split "." action));
  match method with
  | None => mret tt
  | Some method =>
      arg ← (if bool_decide (arg = "")
             then (if callable method
                   then widget_connect (CallMethod method)
                   else raise Py.TypeError);;
                  mret (MachineActions.AxisStr arg)
             else
               let arg := if PyStr.isdigit arg
                          then MachineActions.AxisInt (PyStr.int_of_digits arg)
                          else MachineActions.AxisStr arg in
               widget_connect (CallMethodWith method arg);;
               mret arg);
      (if PyStr.endswith action "toggle" then setCheckable true else mret tt);;
      if Py.startswith action "estop" then
        STATUS_connect "estop" SetCheckedNot
      else if Py.startswith action "power" then
        power_ok true;;
        STATUS_connect "estop" PowerOk;;
        STATUS_connect "on" SetChecked
      else if bool_decide (action = "home.all") then
        home_ok (MachineActions.AxisInt (-1)) true;;
        STATUS_connect "on" (HomeOk (MachineActions.AxisInt (-1)));;
        STATUS_connect "homed" (HomeOk (MachineActions.AxisInt (-1)))
      else if bool_decide (action = "home.joint") then
        home_ok arg true;;
        STATUS_connect "on" (HomeOk arg);;
        STATUS_connect "homed" (HomeOk arg)
      else if bool_decide (action = "home.axis") then
        axis ← lift (MachineActions.getAxisLetter arg);
        jnum ← match arg with
               | MachineActions.AxisInt _ => raise (Py.AttributeError "lower")
               | MachineActions.AxisStr a =>
                   lift (Py.list_index (Py.lower a) AXIS_LETTER_LIST)
               end;
        home_ok arg true;;
        STATUS_connect "on" (HomeOk (MachineActions.AxisInt jnum))
      else mret tt
  end.

End WithModule.

Global Arguments target : clear implicits.
Global Arguments binding : clear implicits.
Global Arguments session : clear implicits.
Global Arguments Act : clear implicits.

End Actions.
(** ** Vocabulary of the properties *)

Section Vocabulary.
Import Status.
Context {value : Type} `{!Runtime value}.
Implicit Types w : world value.

(** The connections that never move. *)
Definition fixed_connections : list (string * slot) :=
  [("g5x_offset", Slot_updateAxisPositions);
   ("g92_offset", Slot_updateAxisPositions);
   ("tool_offset", Slot_updateAxisPositions);
   ("gcodes", Slot_updateFormatedGcodes);
   ("mcodes", Slot_updateFormatedMcodes);
   ("file", Slot_updateFileLoaded)].

(** The three shapes the connection table can take. *)
Definition mode_consistent w : Prop :=
  (report_actual_position w = false ∧
   connections w = connections (Status_init [] (stat w) [])) ∨
  (report_actual_position w = false ∧
   connections w = fixed_connections
                     ++ [("position", Slot_updateAxisPositions);
                         ("joint_position", Slot_updateJointPositions)]) ∨
  (report_actual_position w = true ∧
   connections w = fixed_connections
                     ++ [("actual_position", Slot_updateAxisPositions);
                         ("joint_actual_position", Slot_updateJointPositions)]).

(** [w] after it has published the events [evs]. *)
Definition add_events (evs : list (event value)) w : world value :=
  World (stat w) (old w) (joint_old w) (num_joints w) (timer_active w)
        (error_queue w) (report_actual_position w) (connections w)
        (emitted w ++ evs) (logged w).

(** What the slots connected to signal [name] emit when the signal is
    emitted with the argument [arg] while the status object shows [s]. *)
Definition slot_events (conns : list (string * slot)) (s : snapshot value)
    (name : string) (arg : value) : list (event value) :=
  omap (λ c, ExtendedSignal (slot_signal c.2) <$> slot_emits c.2 arg s)
       (filter (λ c, c.1 = name) conns).

(** The events of one [getattr(self, name).emit(v)] on the [_Status]
    object: the emission itself, then those of the connected slots. *)
Definition emission (conns : list (string * slot)) (s : snapshot value)
    (name : string) (v : value) : list (event value) :=
  StatusSignal name (signal_arg name v)
    :: slot_events conns s name (signal_arg name v).

(** What [getattr(self, key).emit(v)], run over [items] in turn on the
    [_Status] object, publishes, and how the run ends. *)
Fixpoint emit_all (conns : list (string * slot)) (s : snapshot value)
    (items : list (string * value)) : list (event value) * Py.result unit :=
  match items with
  | [] => ([], Py.Ok tt)
  | item :: items' =>
      if bool_decide (item.1 ∈ Status_signals ++ QObject_signals)
      then (emission conns s item.1 item.2 ++ (emit_all conns s items').1,
            (emit_all conns s items').2)
      else ([], Py.Raise (Py.AttributeError item.1))
  end.

(** Every key of [self.old] names a signal declared by [_Status]. *)
Definition keys_have_signals w : Prop :=
  map_Forall (λ key _, key ∈ Status_signals) (old w).

(** The events that the diff of joint [jnum] is to publish: one per item
    of the new record that has no equal in the old one. *)
Definition joint_changes (new old_ : list (gmap string value)) (jnum : nat)
  : list (event value) :=
  match new !! jnum, old_ !! jnum with
  | Some new_j, Some old_j =>
      (λ item, JointSignal item.1 jnum (joint_signal_arg item.1 item.2))
        <$> changed_items new_j old_j
  | _, _ => []
  end.

(** Attribute [name] of joint [jnum] changed to [v]: the joint has a
    record in both collections, the new record holds [v] under [name], and
    the old record lacks [name] or holds under it a value that [!=] tells
    from [v]. *)
Definition joint_change (new old_ : list (gmap string value)) (jnum : nat)
    (name : string) (v : value) : Prop :=
  ∃ new_j old_j,
    new !! jnum = Some new_j ∧ old_ !! jnum = Some old_j ∧
    new_j !! name = Some v ∧
    ∀ old_v, old_j !! name = Some old_v → py_ne old_v v = true.

(** No attribute of a joint record differs from itself under [!=]: none
    is a NaN. *)
Definition self_equal_joints (records : list (gmap string value)) : Prop :=
  Forall (map_Forall (λ _ v, py_ne v v = false)) records.

(** Joint [jnum] has a record in both collections. *)
Definition joint_present (new old_ : list (gmap string value)) (jnum : nat) : Prop :=
  is_Some (new !! jnum) ∧ is_Some (old_ !! jnum).

(** The attribute named by an event is a signal declared by [_Joint]. *)
Definition joint_event_has_signal (e : event value) : Prop :=
  match e with
  | JointSignal name _ _ => name ∈ Joint_signals
  | _ => True
  end.

Global Instance joint_event_has_signal_dec (e : event value) :
  Decision (joint_event_has_signal e).
Proof. destruct e; cbn; apply _. Defined.

(** Every attribute that changed on one of the joints [jnums] names a
    signal declared by [_Joint]. *)
Definition changed_names_have_signals (new old_ : list (gmap string value))
    (jnums : list nat) : Prop :=
  Forall (λ jnum, Forall joint_event_has_signal (joint_changes new old_ jnum)) jnums.

(** The attribute named by an event is no signal of the [_Joint] object,
    neither declared by the class nor inherited. *)
Definition joint_event_lacks_signal (e : event value) : Prop :=
  match e with
  | JointSignal name _ _ => name ∉ Joint_signals ++ QObject_signals
  | _ => False
  end.

Global Instance joint_event_lacks_signal_dec (e : event value) :
  Decision (joint_event_lacks_signal e).
Proof. destruct e; cbn; apply _. Defined.

(** Some attribute that changed on one of the joints [jnums] names no
    signal of the [_Joint] object. *)
Definition changed_name_lacks_signal (new old_ : list (gmap string value))
    (jnums : list nat) : Prop :=
  Exists (λ jnum, Exists joint_event_lacks_signal (joint_changes new old_ jnum)) jnums.

(** The number of joints that the loop of [_Joint._periodic] can reach:
    those below [n] that have a record in both collections. *)
Definition joints_in_reach (new old_ : list (gmap string value)) (n : nat) : nat :=
  (n `min` (length new `min` length old_))%nat.

(** The events that the diff of the retained [items] against the snapshot
    [s] is to publish: those of one emission per item whose value [!=]
    tells from the attribute's value in [s], carrying the latter. *)
Definition field_events (conns : list (string * slot)) (s : snapshot value)
    (items : list (string * value)) : list (event value) :=
  filter (λ item, py_ne item.2 (attr s item.1) = true) items
    ≫= (λ item, emission conns s item.1 (attr s item.1)).

(** The retained values once the differing [items] have been overwritten. *)
Definition refreshed (s : snapshot value) (items : list (string * value))
    (o : gmap string value) : gmap string value :=
  foldl (λ o item,
           if py_ne item.2 (attr s item.1)
           then <[item.1 := attr s item.1]> o
           else o)
        o items.

(** The value retained for a field after a cycle that found [old_value]
    retained and polled [new_value]. *)
Definition retained_after (old_value new_value : value) : value :=
  if py_ne old_value new_value then new_value else old_value.

(** Events of the error channel. *)
Definition is_channel_event (e : event value) : Prop :=
  match e with
  | NewError _ | NewMessage _ => True
  | _ => False
  end.

End Vocabulary.

(** The relative coordinate of one axis as the position update is meant to
    produce it when no rotation is active: position minus g5x offset minus
    tool offset minus g92 offset. *)
Definition unrotated_relative (pos : list float) (st : Status.position_stat)
    (axis : nat) : option float :=
  p ← pos !! axis;
  g ← Status.g5x_offset st !! axis;
  t ← Status.tool_offset st !! axis;
  g92 ← Status.g92_offset st !! axis;
  Some (PrimFloat.sub (PrimFloat.sub (PrimFloat.sub p g) t) g92).

(** The tuples of the status record reach every configured axis, and no
    axis is configured twice or beyond the ninth. *)
Definition axes_in_range (AXIS_NUMBER_LIST : list nat) (pos : list float)
    (st : Status.position_stat) : Prop :=
  NoDup AXIS_NUMBER_LIST ∧
  Forall (λ axis, (axis < 9)%nat ∧ (axis < length pos)%nat ∧
                  (axis < length (Status.g5x_offset st))%nat ∧
                  (axis < length (Status.tool_offset st))%nat ∧
                  (axis < length (Status.g92_offset st))%nat)
         AXIS_NUMBER_LIST.

(** ** Vocabulary of the further properties *)

Section CycleVocabulary.
Import Status.
Context {value : Type} `{!Runtime value}.
Implicit Types w : world value.

(** The text under which a channel entry is published and logged. *)
Definition entry_text (entry : error_entry) : string :=
  match entry.2 with
  | None => "Unknown error!"
  | Some m => if bool_decide (m = "") then "Unknown error!" else m
  end.

(** The events published for a channel entry. *)
Definition published (entry : error_entry) : list (event value) :=
  if bool_decide (entry.1 ∈ [NML_ERROR; OPERATOR_ERROR])
  then [NewError (entry_text entry)]
  else if bool_decide (entry.1 ∈ [NML_TEXT; OPERATOR_TEXT;
                                  NML_DISPLAY; OPERATOR_DISPLAY])
  then [NewMessage (entry_text entry)]
  else [].

(** The world after [n] runs of [_Error._periodic]. *)
Definition run_error_cycles (n : nat) w : world value :=
  Nat.iter n (λ w, (Error_periodic w).1) w.

(** The calls that reach a [_Status] object between two observations. *)
Inductive call : Type :=
| CallTimeout (poll : option (snapshot value))
| CallPeriodic (poll : option (snapshot value))
| CallForceUpdate
| CallStartPeriodic
| CallSetReportActualPosition (report_actual : bool).

Definition run_call (c : call) : M value unit :=
  match c with
  | CallTimeout poll => timeout poll
  | CallPeriodic poll => Status_periodic poll
  | CallForceUpdate => forceUpdate
  | CallStartPeriodic => startPeriodic
  | CallSetReportActualPosition report_actual =>
      setReportActualPosition report_actual
  end.

(** The world after a run of calls; what a call raises goes to its caller
    and the object stays as the call left it. *)
Definition run_calls (calls : list call) w : world value :=
  foldl (λ w c, (run_call c w).1) w calls.

(** A retained key whose value changed but which names no signal. *)
Definition changed_without_signal (s : snapshot value) (item : string * value) : Prop :=
  py_ne item.2 (attr s item.1) = true ∧ item.1 ∉ (Status_signals ++ QObject_signals).

(** The two connections that follow the reporting mode. *)
Definition mode_connections (report_actual : bool) : list (string * slot) :=
  if report_actual
  then [("actual_position", Slot_updateAxisPositions);
        ("joint_actual_position", Slot_updateJointPositions)]
  else [("position", Slot_updateAxisPositions);
        ("joint_position", Slot_updateJointPositions)].

(** [w'] has the connections and the reporting mode of [w]. *)
Definition same_wiring w w' : Prop :=
  connections w' = connections w ∧
  report_actual_position w' = report_actual_position w.

End CycleVocabulary.

Global Arguments call : clear implicits.

(** An axis number that the first loop of [updateAxisPositions] cannot
    subscript: beyond the nine slots of [rel], or beyond one of the tuples
    it reads. *)
Definition axis_out_of_range (pos : list float) (st : Status.position_stat)
    (axis : nat) : Prop :=
  ¬ ((axis < 9)%nat ∧ (axis < length pos)%nat ∧
     (axis < length (Status.g5x_offset st))%nat ∧
     (axis < length (Status.tool_offset st))%nat).

(** The position vector [updateAxisPositions] works on. *)
Definition selected_position (report_actual : bool) (st : Status.position_stat)
    (pos : option (list float)) : list float :=
  match pos with
  | Some p => p
  | None => if report_actual then Status.actual_position st else Status.position st
  end.

(** A string without a dot. *)
Fixpoint dot_free (s : string) : Prop :=
  match s with
  | EmptyString => True
  | String c s' => c ≠ "."%char ∧ dot_free s'
  end.

(** One active M-code as [updateFormatedMcodes] renders it. *)
Definition format_mcode (mcode : Z) : string :=
  ("M" ++ Py.format_int mcode)%string.

(** The parts of the string given to [bindWidget]: the dotted name, with
    dashes turned into underscores, and the text after the first colon. *)
Definition action_name (action : string) : string :=
  PyStr.replace_char "-" "_" (PyStr.partition ":" action).1.1.

Definition action_arg (action : string) : string :=
  (PyStr.partition ":" action).2.

(** The argument handed to the method on a click: a number when the text
    is made of digits, the text itself otherwise. *)
Definition bound_arg (arg : string) : MachineActions.axis_arg :=
  if PyStr.isdigit arg
  then MachineActions.AxisInt (PyStr.int_of_digits arg)
  else MachineActions.AxisStr arg.

(** The connection that [bindWidget] makes from the widget's own signal. *)
Definition click_binding {object : Type} (wd : Actions.widget) (method : object)
    (arg : string) : Actions.binding object :=
  let t := if bool_decide (arg = "")
           then Actions.CallMethod method
           else Actions.CallMethodWith method (bound_arg arg) in
  if Actions.is_QAction wd then Actions.Triggered t else Actions.Clicked t.

(** The session once [bindWidget] has connected the widget's signal and
    set the checkable flag. *)
Definition bound_session {object : Type} (action : string) (method : object)
    (s : Actions.session object) : Actions.session object :=
  let s1 := Actions.add_binding
              (click_binding (Actions.the_widget s) method (action_arg action)) s in
  if PyStr.endswith (action_name action) "toggle"
  then Actions.set_widget
         (Actions.Widget (Actions.is_QAction (Actions.the_widget s1))
                         (Actions.enabled (Actions.the_widget s1))
                         (Actions.statusTip (Actions.the_widget s1))
                         (Actions.toolTip (Actions.the_widget s1)) true) s1
  else s1.

(** The argument as the rest of [bindWidget] sees it. *)
Definition parsed_arg (arg : string) : MachineActions.axis_arg :=
  if bool_decide (arg = "") then MachineActions.AxisStr arg else bound_arg arg.

(** ** Sample objects for the examples

    Integer-valued status attributes; [dir(stat)] has four names, of which
    [_private] and [joint] are left out by [__init__]. *)

(** Integers under [!=]; signals that hand their argument on, except
    [task_state], which delivers a truth value; slots that pass their
    argument on, [updateFileLoaded] only while the interpreter is idle
    ([INTERP_IDLE] is 1) at call level 0. *)
Global Instance sample_runtime : Status.Runtime Z := {|
  Status.py_ne := λ old_value new_value, negb (old_value =? new_value);
  Status.signal_arg := λ name v,
    if bool_decide (name = "task_state") then (if v =? 0 then 0 else 1) else v;
  Status.joint_signal_arg := λ name v, v;
  Status.slot_emits := λ sl arg s,
    match sl with
    | Status.Slot_updateFileLoaded =>
        if (Status.attr s "interp_state" =? 1) && (Status.attr s "call_level" =? 0)
        then Some arg else None
    | _ => Some arg
    end
|}.

(** Floats under [!=]: a NaN differs from itself.  No slot emits. *)
Global Instance float_runtime : Status.Runtime float := {|
  Status.py_ne := λ old_value new_value, negb (PrimFloat.eqb old_value new_value);
  Status.signal_arg := λ name v, v;
  Status.joint_signal_arg := λ name v, v;
  Status.slot_emits := λ sl arg s, None
|}.

Definition sample_dir : list string := ["_private"; "file"; "joint"; "position"].

Definition sample_joint (homed : Z) : gmap string Z :=
  <["homed" := homed]> (<["enabled" := 1]> ∅).

Definition sample_stat (file_ position_ : Z) (joints_ : list (gmap string Z))
  : Status.snapshot Z :=
  Status.Snapshot
    (λ k, if bool_decide (k = "file") then file_
          else if bool_decide (k = "position") then position_ else 0)
    joints_ 2.

Definition sample_world (q : list Status.error_entry) : Status.world Z :=
  Status.Status_init sample_dir
    (sample_stat 1 7 [sample_joint 0; sample_joint 0]) q.

(** A machine with axes X, Y and Z standing at (1, 0, 0), no offsets, and
    the XY plane rotated by [rotation] degrees. *)
Definition sample_position_stat (rotation : float) : Status.position_stat :=
  Status.PositionStat
    (1%float :: replicate 8 0%float) (1%float :: replicate 8 0%float)
    (replicate 9 0%float) (replicate 9 0%float)
    (replicate 9 0%float) (replicate 9 0%float) (replicate 9 0%float)
    (replicate 9 0%float) rotation.

(** A module namespace for the examples: the attribute chains that lead to
    the methods of the action groups, each object named by its chain. *)
Definition sample_module_getattr (names : list string)
  : Py.result (option (list string)) :=
  if bool_decide (names ∈ [["estop"; "activate"]; ["estop"; "reset"];
                           ["estop"; "toggle"]; ["power"; "on"];
                           ["power"; "off"]; ["power"; "toggle"];
                           ["home"; "all"]; ["home"; "axis"];
                           ["home"; "joint"]; ["unhome"; "all"]])
  then Py.Ok (Some names)
  else Py.Raise (Py.AttributeError (default "" (last names))).

(** A push button, enabled and not checkable, on a machine in E-stop. *)
Definition sample_session : Actions.session (list string) :=
  Actions.Session 1 Actions.STATE_ESTOP
    (Actions.Widget false true "" "" false) None None None [] [] [].

(* ===================================================================== *)
(** * Part II.  Properties *)
(* ===================================================================== *)

Section MachineActionsFacts.
Import MachineActions.

Example getAxisLetter_2 : getAxisLetter (AxisInt 2) = Py.Ok "z".
Proof. reflexivity. Qed.

Example getAxisNumber_upper : getAxisNumber (AxisStr "W") = Py.Ok 8.
Proof. reflexivity. Qed.

Example getAxisLetter_out_of_range : getAxisLetter (AxisInt 10) = Py.Raise Py.IndexError.
Proof. reflexivity. Qed.

Lemma axis_number_cases (n : Z) :
    0 ≤ n ≤ 8 →
    n = 0 ∨ n = 1 ∨ n = 2 ∨ n = 3 ∨ n = 4 ∨ n = 5 ∨ n = 6 ∨ n = 7 ∨ n = 8.
Proof. lia. Qed.

End MachineActionsFacts.

(** C10.  For every axis number [n] in 0..8 the letter of [n] converts back
    to [n]; the number -1 converts to the letter ["all"], but ["all"]
    converts back to 9 and not to -1, so the round trip fails at the
    sentinel. *)
Theorem axis_letter_number_roundtrip :
  (∀ n : Z, 0 ≤ n ≤ 8 →
     ∃ letter,
       MachineActions.getAxisLetter (MachineActions.AxisInt n) = Py.Ok letter ∧
       MachineActions.getAxisNumber (MachineActions.AxisStr letter) = Py.Ok n) ∧
  MachineActions.getAxisLetter (MachineActions.AxisInt (-1)) = Py.Ok "all" ∧
  MachineActions.getAxisNumber (MachineActions.AxisStr "all") = Py.Ok 9 ∧
  MachineActions.getAxisNumber (MachineActions.AxisStr "all") ≠ Py.Ok (-1).
Proof.
  split; [|split; [reflexivity|split; [reflexivity|discriminate]]].
  intros n Hn.
  destruct (axis_number_cases n Hn) as [->|[->|[->|[->|[->|[->|[->|[->| ->]]]]]]]];
    eexists; (split; [reflexivity|reflexivity]).
Qed.

Lemma axis_letter_number_roundtrip_witness :
  ∃ letter,
    MachineActions.getAxisLetter (MachineActions.AxisInt 5) = Py.Ok letter ∧
    MachineActions.getAxisNumber (MachineActions.AxisStr letter) = Py.Ok 5.
Proof.
  apply (proj1 axis_letter_number_roundtrip 5). lia.
Defined.


(** ** The error channel *)

Section ErrorChannelFacts.
Import Status.
Context {value : Type} `{EqDecision value}.
Implicit Types w : world value.

Lemma Error_periodic_empty_queue w :
  error_queue w = [] → Error_periodic w = (w, Py.Ok tt).
Proof.
  intros Hq. unfold Error_periodic, error_poll, mbind, M_bind, gets. simpl.
  rewrite Hq. reflexivity.
Qed.

Lemma Error_periodic_error_class w kind msg q :
  error_queue w = (kind, msg) :: q →
  kind = NML_ERROR ∨ kind = OPERATOR_ERROR →
  Error_periodic w =
    (let text := match msg with
                 | None => "Unknown error!"
                 | Some m => if bool_decide (m = "") then "Unknown error!" else m
                 end in
     add_log (LogError text) (add_event (NewError text) (set_error_queue q w)),
     Py.Ok tt).
Proof.
  intros Hq Hk. unfold Error_periodic, error_poll, mbind, M_bind, gets. simpl.
  rewrite Hq. simpl.
  destruct Hk as [-> | ->]; reflexivity.
Qed.

Lemma Error_periodic_text_class w kind msg q :
  error_queue w = (kind, msg) :: q →
  kind ∈ [NML_TEXT; OPERATOR_TEXT; NML_DISPLAY; OPERATOR_DISPLAY] →
  Error_periodic w =
    (let text := match msg with
                 | None => "Unknown error!"
                 | Some m => if bool_decide (m = "") then "Unknown error!" else m
                 end in
     add_log (LogInfo text) (add_event (NewMessage text) (set_error_queue q w)),
     Py.Ok tt).
Proof.
  intros Hq Hk. unfold Error_periodic, error_poll, mbind, M_bind, gets. simpl.
  rewrite Hq. simpl.
  rewrite !elem_of_cons in Hk.
  destruct Hk as [-> | [-> | [-> | [-> | Hk]]]];
    [reflexivity .. | by apply elem_of_nil in Hk].
Qed.

Lemma Error_periodic_other_class w kind msg q :
  error_queue w = (kind, msg) :: q →
  kind ∉ [NML_ERROR; OPERATOR_ERROR] →
  kind ∉ [NML_TEXT; OPERATOR_TEXT; NML_DISPLAY; OPERATOR_DISPLAY] →
  Error_periodic w =
    (let text := match msg with
                 | None => "Unknown error!"
                 | Some m => if bool_decide (m = "") then "Unknown error!" else m
                 end in
     add_log (LogError text) (set_error_queue q w),
     Py.Ok tt).
Proof.
  intros Hq Hk1 Hk2. unfold Error_periodic, error_poll, mbind, M_bind, gets. simpl.
  rewrite Hq. simpl.
  rewrite (bool_decide_eq_false_2 _ Hk1), (bool_decide_eq_false_2 _ Hk2).
  reflexivity.
Qed.

(** What [_Error._periodic] leaves alone. *)
Lemma Error_periodic_keeps w :
  stat (Error_periodic w).1 = stat w ∧
  joint_old (Error_periodic w).1 = joint_old w ∧
  num_joints (Error_periodic w).1 = num_joints w ∧
  timer_active (Error_periodic w).1 = timer_active w ∧
  connections (Error_periodic w).1 = connections w ∧
  report_actual_position (Error_periodic w).1 = report_actual_position w.
Proof.
  destruct (error_queue w) as [|[kind msg] q] eqn:Hq.
  { by rewrite (Error_periodic_empty_queue w Hq). }
  destruct (decide (kind ∈ [NML_ERROR; OPERATOR_ERROR])) as [He|He].
  - assert (kind = NML_ERROR ∨ kind = OPERATOR_ERROR) as Hk.
    { rewrite !elem_of_cons in He. destruct He as [?|[?|He]]; auto.
      by apply elem_of_nil in He. }
    by rewrite (Error_periodic_error_class w kind msg q Hq Hk).
  - destruct (decide (kind ∈ [NML_TEXT; OPERATOR_TEXT;
                              NML_DISPLAY; OPERATOR_DISPLAY])) as [Ht|Ht].
    + by rewrite (Error_periodic_text_class w kind msg q Hq Ht).
    + by rewrite (Error_periodic_other_class w kind msg q Hq He Ht).
Qed.

End ErrorChannelFacts.

(** C6.  A channel entry whose text is empty or missing is published and
    logged with the text ["Unknown error!"]: every event and every log
    record produced for it carries the placeholder; an entry of the
    operator-error class (or the other error class) gives exactly one
    error event with that text, one of the text or display classes exactly
    one message event with that text. *)
Theorem empty_text_gets_placeholder {value : Type} `{EqDecision value}
    (w : Status.world value) (kind : Z) (msg : option string)
    (q : list Status.error_entry) :
  Status.error_queue w = (kind, msg) :: q →
  msg = None ∨ msg = Some "" →
  let w' := (Status.Error_periodic w).1 in
  ∃ evs logs,
    Status.emitted w' = Status.emitted w ++ evs ∧
    Status.logged w' = Status.logged w ++ logs ∧
    (∀ e, e ∈ evs → e = Status.NewError "Unknown error!"
                   ∨ e = Status.NewMessage "Unknown error!") ∧
    (∀ l, l ∈ logs → l = Status.LogError "Unknown error!"
                    ∨ l = Status.LogInfo "Unknown error!") ∧
    (kind = Status.OPERATOR_ERROR ∨ kind = Status.NML_ERROR →
       evs = [Status.NewError "Unknown error!"]) ∧
    (kind ∈ [Status.NML_TEXT; Status.OPERATOR_TEXT;
             Status.NML_DISPLAY; Status.OPERATOR_DISPLAY] →
       evs = [Status.NewMessage "Unknown error!"]).
Proof.
  intros Hq Hmsg w'.
  assert (Htext : match msg with
                  | None => "Unknown error!"
                  | Some m => if bool_decide (m = "") then "Unknown error!" else m
                  end = "Unknown error!").
  { destruct Hmsg as [-> | ->]; reflexivity. }
  destruct (decide (kind ∈ [Status.NML_ERROR; Status.OPERATOR_ERROR])) as [He|He].
  - assert (kind = Status.NML_ERROR ∨ kind = Status.OPERATOR_ERROR) as Hk.
    { rewrite !elem_of_cons in He. destruct He as [?|[?|He]]; auto.
      by apply elem_of_nil in He. }
    subst w'. rewrite (Error_periodic_error_class w kind msg q Hq Hk).
    cbn zeta. rewrite Htext. cbn [fst].
    exists [Status.NewError "Unknown error!"], [Status.LogError "Unknown error!"].
    repeat split; try reflexivity.
    + intros e ->%list_elem_of_singleton. by left.
    + intros l ->%list_elem_of_singleton. by left.
    + intros Hin. rewrite !elem_of_cons in Hin.
      destruct Hk as [-> | ->];
        destruct Hin as [?|[?|[?|[?|Hin]]]]; try discriminate;
        by apply elem_of_nil in Hin.
  - destruct (decide (kind ∈ [Status.NML_TEXT; Status.OPERATOR_TEXT;
                              Status.NML_DISPLAY; Status.OPERATOR_DISPLAY]))
      as [Ht|Ht].
    + subst w'. rewrite (Error_periodic_text_class w kind msg q Hq Ht).
      cbn zeta. rewrite Htext. cbn [fst].
      exists [Status.NewMessage "Unknown error!"], [Status.LogInfo "Unknown error!"].
      repeat split; try reflexivity.
      * intros e ->%list_elem_of_singleton. by right.
      * intros l ->%list_elem_of_singleton. by right.
      * intros [-> | ->]; exfalso; apply He; rewrite !elem_of_cons; auto.
    + subst w'. rewrite (Error_periodic_other_class w kind msg q Hq He Ht).
      cbn zeta. rewrite Htext. cbn [fst].
      exists [], [Status.LogError "Unknown error!"].
      repeat split.
      * cbn. by rewrite app_nil_r.
      * intros e Hin. by apply elem_of_nil in Hin.
      * intros l ->%list_elem_of_singleton. by left.
      * intros [-> | ->]; exfalso; apply He; rewrite !elem_of_cons; auto.
      * intros Hin. contradiction.
Qed.

Lemma empty_text_gets_placeholder_witness :
  ∃ evs logs,
    Status.emitted (Status.Error_periodic
                      (sample_world [(Status.OPERATOR_ERROR, Some "")])).1
      = [] ++ evs ∧
    Status.logged (Status.Error_periodic
                     (sample_world [(Status.OPERATOR_ERROR, Some "")])).1
      = [] ++ logs ∧
    (∀ e, e ∈ evs → e = Status.NewError "Unknown error!"
                   ∨ e = Status.NewMessage "Unknown error!") ∧
    (∀ l, l ∈ logs → l = Status.LogError "Unknown error!"
                    ∨ l = Status.LogInfo "Unknown error!") ∧
    (Status.OPERATOR_ERROR = Status.OPERATOR_ERROR
     ∨ Status.OPERATOR_ERROR = Status.NML_ERROR →
       evs = [Status.NewError "Unknown error!"]) ∧
    (Status.OPERATOR_ERROR ∈ [Status.NML_TEXT; Status.OPERATOR_TEXT;
                              Status.NML_DISPLAY; Status.OPERATOR_DISPLAY] →
       evs = [Status.NewMessage "Unknown error!"]).
Proof.
  apply (empty_text_gets_placeholder
           (sample_world [(Status.OPERATOR_ERROR, Some "")])
           Status.OPERATOR_ERROR (Some "") []).
  - reflexivity.
  - right. reflexivity.
Defined.

(** C7 (as amended).  An entry of the hard-error or operator-error class is
    published as one error event and logged as an error; an entry of a
    text or display class is published as one message event and logged as
    information; an entry of any other class is logged as an error and no
    event is published for it. *)
Theorem error_entry_classification {value : Type} `{EqDecision value}
    (w : Status.world value) (kind : Z) (msg : option string)
    (q : list Status.error_entry) :
  Status.error_queue w = (kind, msg) :: q →
  let text := match msg with
              | None => "Unknown error!"
              | Some m => if bool_decide (m = "") then "Unknown error!" else m
              end in
  let w' := (Status.Error_periodic w).1 in
  Status.error_queue w' = q ∧
  (kind = Status.NML_ERROR ∨ kind = Status.OPERATOR_ERROR →
     Status.emitted w' = Status.emitted w ++ [Status.NewError text] ∧
     Status.logged w' = Status.logged w ++ [Status.LogError text]) ∧
  (kind ∈ [Status.NML_TEXT; Status.OPERATOR_TEXT;
           Status.NML_DISPLAY; Status.OPERATOR_DISPLAY] →
     Status.emitted w' = Status.emitted w ++ [Status.NewMessage text] ∧
     Status.logged w' = Status.logged w ++ [Status.LogInfo text]) ∧
  (kind ∉ [Status.NML_ERROR; Status.OPERATOR_ERROR] →
   kind ∉ [Status.NML_TEXT; Status.OPERATOR_TEXT;
           Status.NML_DISPLAY; Status.OPERATOR_DISPLAY] →
     Status.emitted w' = Status.emitted w ∧
     Status.logged w' = Status.logged w ++ [Status.LogError text]).
Proof.
  intros Hq text w'. subst w'.
  split; [|split; [|split]].
  - destruct (decide (kind ∈ [Status.NML_ERROR; Status.OPERATOR_ERROR])) as [He|He].
    + assert (kind = Status.NML_ERROR ∨ kind = Status.OPERATOR_ERROR) as Hk.
      { rewrite !elem_of_cons in He. destruct He as [?|[?|He]]; auto.
        by apply elem_of_nil in He. }
      by rewrite (Error_periodic_error_class w kind msg q Hq Hk).
    + destruct (decide (kind ∈ [Status.NML_TEXT; Status.OPERATOR_TEXT;
                                Status.NML_DISPLAY; Status.OPERATOR_DISPLAY]))
        as [Ht|Ht].
      * by rewrite (Error_periodic_text_class w kind msg q Hq Ht).
      * by rewrite (Error_periodic_other_class w kind msg q Hq He Ht).
  - intros Hk. by rewrite (Error_periodic_error_class w kind msg q Hq Hk).
  - intros Ht. by rewrite (Error_periodic_text_class w kind msg q Hq Ht).
  - intros He Ht. by rewrite (Error_periodic_other_class w kind msg q Hq He Ht).
Qed.

Lemma error_entry_classification_witness :
  Status.emitted (Status.Error_periodic
                    (sample_world [(Status.NML_TEXT, Some "tool change")])).1
    = [] ++ [Status.NewMessage "tool change"].
Proof.
  pose proof (error_entry_classification
                (sample_world [(Status.NML_TEXT, Some "tool change")])
                Status.NML_TEXT (Some "tool change") [] eq_refl) as Hc.
  cbn zeta in Hc.
  destruct Hc as (_ & _ & Htext & _).
  apply Htext. rewrite !elem_of_cons. auto.
Defined.

(** C7, as stated, fails: an entry of an unknown class (here 99) is logged
    but no error event is published for it. *)
Lemma unknown_class_not_published :
  let w := sample_world [(99, Some "spindle fault")] in
  let w' := (Status.Error_periodic w).1 in
  Status.logged w' = [Status.LogError "spindle fault"] ∧
  Status.emitted w' = [] ∧
  ¬ (∃ text, Status.NewError text ∈ Status.emitted w').
Proof.
  cbn zeta. split; [reflexivity|]. split; [reflexivity|].
  intros [text Hin]. vm_compute in Hin. by apply elem_of_nil in Hin.
Qed.

(** ** Poll failure and the timer *)

Section TimerFacts.
Import Status.
Context {value : Type} `{!Runtime value}.
Implicit Types w : world value.

Lemma timeout_stopped w poll :
  timer_active w = false → timeout poll w = (w, Py.Ok tt).
Proof.
  intros Hstop. unfold timeout, mbind, M_bind, gets. by rewrite Hstop.
Qed.

Lemma timeout_running w poll :
  timer_active w = true → timeout poll w = Status_periodic poll w.
Proof.
  intros Hrun. unfold timeout, mbind, M_bind, gets. by rewrite Hrun.
Qed.

Lemma run_timeouts_stopped polls w :
  timer_active w = false → run_timeouts polls w = w.
Proof.
  intros Hstop. unfold run_timeouts.
  induction polls as [|poll polls IH]; [reflexivity|].
  cbn [foldl]. by rewrite timeout_stopped.
Qed.

End TimerFacts.

(** C2.  A cycle whose poll raises returns normally after logging one
    warning and stopping the timer: nothing is emitted, the retained field
    values, the retained joint records and the error channel are left as
    they were (so there was no joint diff and no drain), and from then on
    timer ticks do nothing at all, whatever the polls would return, until
    [startPeriodic] is called again. *)
Theorem poll_failure_halts_cycle {value : Type} `{!Status.Runtime value}
    (w : Status.world value) :
  let w' := (Status.Status_periodic None w).1 in
  (Status.Status_periodic None w).2 = Py.Ok tt ∧
  Status.emitted w' = Status.emitted w ∧
  Status.old w' = Status.old w ∧
  Status.joint_old w' = Status.joint_old w ∧
  Status.error_queue w' = Status.error_queue w ∧
  Status.logged w' = Status.logged w
    ++ [Status.LogWarning "Status polling failed, is LinuxCNC running?"] ∧
  Status.timer_active w' = false ∧
  (∀ polls, Status.run_timeouts polls w' = w') ∧
  (∀ poll, Status.timeout poll (Status.startPeriodic w').1
           = Status.Status_periodic poll (Status.startPeriodic w').1).
Proof.
  cbn zeta.
  do 7 (split; [reflexivity|]).
  split.
  - intros polls. by apply run_timeouts_stopped.
  - intros poll. by apply timeout_running.
Qed.

(** ** Switching between commanded and actual positions *)

Section ModeSwitchFacts.
Import Status.
Context {value : Type} `{EqDecision value}.
Implicit Types w : world value.

Lemma Status_init_mode_consistent dir_stat (s : snapshot value) q :
  mode_consistent (Status_init dir_stat s q).
Proof. left. split; reflexivity. Qed.

Lemma setReportActualPosition_consistent w report_actual :
  mode_consistent w →
  (setReportActualPosition report_actual w).2 = Py.Ok tt ∧
  report_actual_position (setReportActualPosition report_actual w).1 = report_actual ∧
  mode_consistent (setReportActualPosition report_actual w).1.
Proof.
  destruct w as [s o jo n t q r c e l].
  unfold mode_consistent. cbn [report_actual_position connections stat].
  intros [[-> ->] | [[-> ->] | [-> ->]]]; destruct report_actual;
    (split; [reflexivity|]); (split; [reflexivity|]);
    cbn; auto.
Qed.

Lemma run_mode_switches_consistent calls w :
  mode_consistent w → mode_consistent (run_mode_switches calls w).
Proof.
  unfold run_mode_switches. revert w.
  induction calls as [|b calls IH]; intros w Hw; [done|].
  cbn [foldl]. apply IH. by apply setReportActualPosition_consistent.
Qed.

Lemma run_mode_switches_last calls w :
  mode_consistent w →
  report_actual_position (run_mode_switches calls w)
  = default (report_actual_position w) (last calls).
Proof.
  unfold run_mode_switches. revert w.
  induction calls as [|b calls IH]; intros w Hw; [done|].
  cbn [foldl].
  destruct (setReportActualPosition_consistent w b Hw) as (_ & Hb & Hw').
  rewrite (IH _ Hw'), Hb.
  destruct calls as [|b' calls]; [done|].
  rewrite last_cons_cons.
  destruct (last (b' :: calls)) as [b''|] eqn:Hlast; [done|].
  by apply last_None in Hlast.
Qed.

Lemma mode_consistent_connected w :
  mode_consistent w →
  (report_actual_position w = false ∧
   connected "position" Slot_updateAxisPositions w ∧
   connected "joint_position" Slot_updateJointPositions w ∧
   ¬ connected "actual_position" Slot_updateAxisPositions w ∧
   ¬ connected "joint_actual_position" Slot_updateJointPositions w) ∨
  (report_actual_position w = true ∧
   connected "actual_position" Slot_updateAxisPositions w ∧
   connected "joint_actual_position" Slot_updateJointPositions w ∧
   ¬ connected "position" Slot_updateAxisPositions w ∧
   ¬ connected "joint_position" Slot_updateJointPositions w).
Proof.
  unfold connected.
  intros [[Hr ->] | [[Hr ->] | [Hr ->]]]; [left | left | right];
    (split; [exact Hr|]);
    repeat split; compute_done.
Qed.

End ModeSwitchFacts.

(** C9.  After any sequence of calls to [setReportActualPosition] on a
    freshly constructed object, no call having raised, the slot
    [updateAxisPositions] and the slot [updateJointPositions] are triggered
    from the same mode: both from the commanded-position signals and not
    from the actual-position ones, or both from the actual-position signals
    and not from the commanded ones; the mode is the one last asked for. *)
Theorem mode_switch_moves_both_triggers {value : Type} `{EqDecision value}
    (dir_stat : list string) (s : Status.snapshot value)
    (q : list Status.error_entry) (calls : list bool) :
  let w := Status.run_mode_switches calls (Status.Status_init dir_stat s q) in
  ((Status.report_actual_position w = false ∧
    Status.connected "position" Status.Slot_updateAxisPositions w ∧
    Status.connected "joint_position" Status.Slot_updateJointPositions w ∧
    ¬ Status.connected "actual_position" Status.Slot_updateAxisPositions w ∧
    ¬ Status.connected "joint_actual_position" Status.Slot_updateJointPositions w) ∨
   (Status.report_actual_position w = true ∧
    Status.connected "actual_position" Status.Slot_updateAxisPositions w ∧
    Status.connected "joint_actual_position" Status.Slot_updateJointPositions w ∧
    ¬ Status.connected "position" Status.Slot_updateAxisPositions w ∧
    ¬ Status.connected "joint_position" Status.Slot_updateJointPositions w)) ∧
  Status.report_actual_position w = default false (last calls) ∧
  (∀ report_actual,
     (Status.setReportActualPosition report_actual w).2 = Py.Ok tt).
Proof.
  intros w.
  assert (Hw : mode_consistent w).
  { apply run_mode_switches_consistent, Status_init_mode_consistent. }
  split; [by apply mode_consistent_connected|].
  split; [|intros b; by apply setReportActualPosition_consistent].
  subst w.
  rewrite (run_mode_switches_last calls (Status.Status_init dir_stat s q));
    [reflexivity | apply Status_init_mode_consistent].
Qed.

(** ** Formatted G-codes *)

Section GcodeFacts.
Import Status.

Lemma StronglySorted_filter {A} (R : relation A) (P : A → Prop)
    `{∀ x, Decision (P x)} (l : list A) :
  StronglySorted R l → StronglySorted R (filter P l).
Proof.
  induction 1 as [|x l Hl IH Hx]; [constructor|].
  rewrite filter_cons. destruct (decide (P x)); [|done].
  constructor; [done|].
  apply Forall_forall. intros y Hy%list_elem_of_filter.
  rewrite Forall_forall in Hx. apply Hx, Hy.
Qed.

(** The loop with its [continue] is a filter followed by a map. *)
Lemma gcode_loop_filter_map (l : list Z) (acc : list string) :
  foldl (λ formated_gcodes gcode,
           if bool_decide (gcode = -1) then formated_gcodes
           else formated_gcodes ++ [format_gcode gcode])
        acc l
  = acc ++ map format_gcode (filter (λ g, g ≠ -1) l).
Proof.
  revert acc. induction l as [|g l IH]; intros acc; cbn [foldl].
  - by rewrite app_nil_r.
  - rewrite IH, filter_cons. case_bool_decide as Hg.
    + destruct (decide (g ≠ -1)); [done|reflexivity].
    + destruct (decide (g ≠ -1)); [|done].
      cbn [map]. by rewrite <- app_assoc.
Qed.

Lemma sorted_StronglySorted (l : list Z) : StronglySorted Z.le (Py.sorted l).
Proof.
  apply Sorted_StronglySorted; [apply _|].
  apply Sorted_merge_sort. apply _.
Qed.

Lemma sorted_Permutation (l : list Z) : Py.sorted l ≡ₚ l.
Proof. apply merge_sort_Permutation. Qed.

Example format_gcode_10 : format_gcode 10 = "G1".
Proof. reflexivity. Qed.

Example format_gcode_11 : format_gcode 11 = "G1.1".
Proof. reflexivity. Qed.

Example format_gcode_535 : format_gcode 535 = "G53.5".
Proof. reflexivity. Qed.

Example updateFormatedMcodes_sample :
  updateFormatedMcodes [0; 5; 9; -1; 48] = ["M5"; "M9"; "M48"].
Proof. reflexivity. Qed.

Example updateJointPositions_actual :
  updateJointPositions true
    (PositionStat [] [] [1%float] [2%float] [] [] [] [] 0%float) None
  = [2%float].
Proof. reflexivity. Qed.

End GcodeFacts.

(** C5.  The formatted list is the rendering, code by code, of a list of
    codes that is in ascending order and consists of the raw codes after
    the first slot with every -1 taken out.  A code that is a multiple of
    10 is rendered as ["G"] and its whole part, any other as ["G"], the
    whole part, a dot and the tenths.  The raw list [[_, 10, 11, -1, 20]]
    gives [["G1", "G1.1", "G2"]] whatever the first slot holds. *)
Theorem formated_gcodes_sorted_filtered (gcodes : list Z) :
  (∃ codes : list Z,
     Status.updateFormatedGcodes gcodes = map Status.format_gcode codes ∧
     StronglySorted Z.le codes ∧
     codes ≡ₚ filter (λ g, g ≠ -1) (tail gcodes)) ∧
  (∀ g, g `mod` 10 = 0 →
     Status.format_gcode g = ("G" ++ Py.format_int (g `div` 10))%string) ∧
  (∀ g, g `mod` 10 ≠ 0 →
     Status.format_gcode g
     = ("G" ++ Py.format_int (g `div` 10) ++ "." ++ Py.format_int (g `mod` 10))%string) ∧
  (∀ first_slot,
     Status.updateFormatedGcodes [first_slot; 10; 11; -1; 20]
     = ["G1"; "G1.1"; "G2"]).
Proof.
  split; [|split; [|split]].
  - exists (filter (λ g, g ≠ -1) (Py.sorted (tail gcodes))).
    split; [|split].
    + unfold Status.updateFormatedGcodes. by rewrite gcode_loop_filter_map.
    + apply StronglySorted_filter, sorted_StronglySorted.
    + by rewrite sorted_Permutation.
  - intros g Hg. unfold Status.format_gcode. by rewrite bool_decide_eq_true_2.
  - intros g Hg. unfold Status.format_gcode. by rewrite bool_decide_eq_false_2.
  - intros first_slot. reflexivity.
Qed.

Lemma formated_gcodes_sorted_filtered_witness :
  Status.format_gcode 170 = "G17" ∧ Status.format_gcode 382 = "G38.2".
Proof.
  destruct (formated_gcodes_sorted_filtered []) as (_ & Hwhole & Htenths & _).
  split.
  - apply (Hwhole 170). reflexivity.
  - apply (Htenths 382). discriminate.
Defined.

(** ** Emission loops *)

Section EmissionFacts.
Import Status.
Context {value : Type} `{!Runtime value}.
Implicit Types w : world value.

Lemma add_events_nil w : add_events [] w = w.
Proof. destruct w. unfold add_events. cbn. by rewrite app_nil_r. Qed.

Lemma add_events_app evs1 evs2 w :
  add_events evs2 (add_events evs1 w) = add_events (evs1 ++ evs2) w.
Proof. unfold add_events. cbn. by rewrite app_assoc. Qed.

Lemma add_event_add_events e w : add_event e w = add_events [e] w.
Proof. reflexivity. Qed.

Lemma bind_ok {A B} (m : M value A) (k : A → M value B) w w' a :
  m w = (w', Py.Ok a) → (m ≫= k) w = k a w'.
Proof. intros Hm. unfold mbind, M_bind. by rewrite Hm. Qed.

Lemma bind_raise {A B} (m : M value A) (k : A → M value B) w w' e :
  m w = (w', Py.Raise e) → (m ≫= k) w = (w', Py.Raise e).
Proof. intros Hm. unfold mbind, M_bind. by rewrite Hm. Qed.

(** A loop over a list in two parts. *)
Lemma for_each_app {A} (l1 l2 : list A) (body : A → M value unit) w :
  for_each (l1 ++ l2) body w
  = match for_each l1 body w with
    | (w1, Py.Ok _) => for_each l2 body w1
    | (w1, Py.Raise e) => (w1, Py.Raise e)
    end.
Proof.
  revert w. induction l1 as [|x l1 IH]; intros w; [reflexivity|].
  cbn [app for_each]. unfold mbind, M_bind.
  destruct (body x w) as [w1 [[]|e]]; [apply IH|reflexivity].
Qed.

(** The slots connected to a signal only extend the trace. *)
Lemma for_each_run_slot (l : list (string * slot)) (arg : value) w :
  for_each l (λ c, run_slot c.2 arg) w
  = (add_events
       (omap (λ c, ExtendedSignal (slot_signal c.2) <$> slot_emits c.2 arg (stat w)) l)
       w,
     Py.Ok tt).
Proof.
  revert w. induction l as [|c l IH]; intros w.
  { cbn. by rewrite add_events_nil. }
  cbn [for_each omap list_omap].
  destruct (slot_emits c.2 arg (stat w)) as [payload|] eqn:Hslot.
  - erewrite bind_ok; cycle 1.
    { unfold run_slot. erewrite bind_ok; [|reflexivity]. cbn beta.
      rewrite Hslot. reflexivity. }
    rewrite IH. cbn [stat add_event fmap option_fmap option_map].
    rewrite add_event_add_events, add_events_app. reflexivity.
  - erewrite bind_ok; cycle 1.
    { unfold run_slot. erewrite bind_ok; [|reflexivity]. cbn beta.
      rewrite Hslot. reflexivity. }
    rewrite IH. reflexivity.
Qed.

Lemma Status_emit_signal name v w :
  name ∈ Status_signals ++ QObject_signals →
  Status_emit name v w
  = (add_events (emission (connections w) (stat w) name v) w, Py.Ok tt).
Proof.
  intros Hin. unfold Status_emit. rewrite (bool_decide_eq_true_2 _ Hin).
  cbn zeta.
  erewrite bind_ok; [|reflexivity].
  erewrite bind_ok; [|reflexivity].
  rewrite for_each_run_slot.
  cbn [stat connections add_event].
  rewrite add_event_add_events, add_events_app. reflexivity.
Qed.

Lemma Status_emit_no_signal name v w :
  name ∉ Status_signals ++ QObject_signals →
  Status_emit name v w = (w, Py.Raise (Py.AttributeError name)).
Proof.
  intros Hin. unfold Status_emit. by rewrite bool_decide_eq_false_2.
Qed.

(** The only emission on a status attribute's signal among the events of
    one [emit] is the emission itself. *)
Lemma slot_events_inv conns (s : snapshot value) name arg e :
  e ∈ slot_events conns s name arg →
  ∃ sl payload, e = ExtendedSignal (slot_signal sl) payload.
Proof.
  unfold slot_events. intros Hin. apply list_elem_of_omap in Hin.
  destruct Hin as (c & _ & Hc).
  destruct (slot_emits c.2 arg s) as [payload|]; [|done].
  cbn in Hc. injection Hc as <-. by eexists _, _.
Qed.

Lemma emission_inv conns (s : snapshot value) name v e :
  e ∈ emission conns s name v →
  e = StatusSignal name (signal_arg name v) ∨
  ∃ sl payload, e = ExtendedSignal (slot_signal sl) payload.
Proof.
  unfold emission. intros [->|Hin]%elem_of_cons; [by left|right].
  by eapply slot_events_inv.
Qed.

Lemma emission_status conns (s : snapshot value) name v key x :
  StatusSignal key x ∈ emission conns s name v ↔
  key = name ∧ x = signal_arg name v.
Proof.
  split.
  - intros [Heq | (sl & payload & Heq)]%emission_inv; [|done].
    by injection Heq as -> ->.
  - intros [-> ->]. apply list_elem_of_here.
Qed.

(** A run of emissions only extends the trace. *)
Lemma for_each_Status_emit (items : list (string * value)) w :
  for_each items (λ item, Status_emit item.1 item.2) w
  = (add_events (emit_all (connections w) (stat w) items).1 w,
     (emit_all (connections w) (stat w) items).2).
Proof.
  revert w. induction items as [|item items IH]; intros w.
  - cbn. by rewrite add_events_nil.
  - cbn [for_each emit_all]. case_bool_decide as Hsig.
    + erewrite bind_ok; [|by apply Status_emit_signal].
      rewrite IH, add_events_app. reflexivity.
    + erewrite bind_raise; [|by apply Status_emit_no_signal].
      cbn. by rewrite add_events_nil.
Qed.

Lemma emit_all_signals conns (s : snapshot value) (items : list (string * value)) :
  Forall (λ item, item.1 ∈ Status_signals) items →
  emit_all conns s items
  = (items ≫= (λ item, emission conns s item.1 item.2), Py.Ok tt).
Proof.
  induction 1 as [|item items Hitem _ IH]; [reflexivity|].
  cbn [emit_all]. rewrite bool_decide_eq_true_2.
  - by rewrite IH.
  - apply elem_of_app. by left.
Qed.

Lemma keys_have_signals_items w :
  keys_have_signals w →
  Forall (λ item, item.1 ∈ Status_signals) (map_to_list (old w)).
Proof.
  intros Hkeys. apply Forall_forall. intros [k v] Hin%elem_of_map_to_list.
  exact (Hkeys k v Hin).
Qed.

Lemma forceUpdate_trace w :
  forceUpdate w
  = (add_events (emit_all (connections w) (stat w) (map_to_list (old w))).1 w,
     (emit_all (connections w) (stat w) (map_to_list (old w))).2).
Proof.
  unfold forceUpdate. erewrite bind_ok; [|reflexivity].
  apply for_each_Status_emit.
Qed.

(** The emissions on the signals of the retained fields, among the events
    of a run of emissions over the retained items. *)
Lemma retained_emissions_status conns (s : snapshot value) (o : gmap string value)
    (f : string → value → value) key v0 v :
  o !! key = Some v0 →
  StatusSignal key v
    ∈ (map_to_list o ≫= (λ item, emission conns s item.1 (f item.1 item.2))) ↔
  v = signal_arg key (f key v0).
Proof.
  intros Hlook. rewrite list_elem_of_bind. split.
  - intros ([k v'] & Hin & Hitem%elem_of_map_to_list).
    apply emission_status in Hin as [-> ->]. cbn in *. congruence.
  - intros ->. exists (key, v0). split; [|by apply elem_of_map_to_list].
    by apply emission_status.
Qed.

End EmissionFacts.

(** C8 (as amended).  Two calls of [forceUpdate] in a row publish the same
    sequence of events and end the same way, and leave the retained values
    untouched.  When every retained key names a signal declared by
    [_Status], the call returns normally and the sequence is, for each
    retained field in turn, the emission of its retained value (as the
    signal's declared type delivers it) followed by what the slots
    connected to that signal emit; on the signal of a retained field it
    holds that emission and no other, whether or not the value changed in
    the last cycle. *)
Theorem forceUpdate_twice_same_events {value : Type} `{!Status.Runtime value}
    (w : Status.world value) :
  let first := Status.forceUpdate w in
  let second := Status.forceUpdate first.1 in
  ∃ evs,
    Status.emitted first.1 = Status.emitted w ++ evs ∧
    Status.emitted second.1 = Status.emitted first.1 ++ evs ∧
    second.2 = first.2 ∧
    Status.old first.1 = Status.old w ∧
    Status.old second.1 = Status.old w ∧
    (keys_have_signals w →
       first.2 = Py.Ok tt ∧
       evs = map_to_list (Status.old w)
               ≫= (λ item, emission (Status.connections w) (Status.stat w)
                                    item.1 item.2) ∧
       ∀ key v0,
         Status.old w !! key = Some v0 →
         ∀ v, Status.StatusSignal key v ∈ evs ↔ v = Status.signal_arg key v0).
Proof.
  cbn zeta. rewrite !forceUpdate_trace. cbn [fst snd].
  exists (emit_all (Status.connections w) (Status.stat w)
                   (map_to_list (Status.old w))).1.
  do 5 (split; [reflexivity|]).
  intros Hkeys%keys_have_signals_items.
  rewrite (emit_all_signals _ _ _ Hkeys). cbn [fst snd].
  split; [reflexivity|]. split; [reflexivity|].
  intros key v0 Hlook v.
  exact (retained_emissions_status _ _ _ (λ _ x, x) key v0 v Hlook).
Qed.

Lemma forceUpdate_twice_same_events_witness :
  (Status.forceUpdate (sample_world [])).2 = Py.Ok tt ∧
  Status.emitted (Status.forceUpdate (sample_world [])).1
  = [Status.StatusSignal "file" 1;
     Status.StatusSignal "position" 7; Status.ExtendedSignal "axis_positions" 7].
Proof.
  destruct (forceUpdate_twice_same_events (sample_world []))
    as (evs & Hfirst & _ & _ & _ & _ & Hall).
  destruct Hall as (Hok & Hevs & _).
  { unfold keys_have_signals. compute_done. }
  split; [exact Hok|].
  rewrite Hfirst, Hevs. vm_compute. reflexivity.
Defined.

(** C8, as stated, fails: a freshly built object whose status record has
    the attribute [ini_filename], for which [_Status] declares no signal,
    retains that field, and [forceUpdate] raises [AttributeError] at it;
    the field is not republished, by this call or by the next. *)
Lemma forceUpdate_skips_unsignalled_field :
  let w := Status.Status_init ["file"; "ini_filename"]
             (Status.Snapshot (λ _, 1) [] 0) [] in
  Status.monitored ["file"; "ini_filename"] "ini_filename" ∧
  Status.old w !! "ini_filename" = Some 1 ∧
  (Status.forceUpdate w).2 = Py.Raise (Py.AttributeError "ini_filename") ∧
  (∀ v, Status.StatusSignal "ini_filename" v
          ∉ Status.emitted (Status.forceUpdate w).1) ∧
  (∀ v, Status.StatusSignal "ini_filename" v
          ∉ Status.emitted (Status.forceUpdate (Status.forceUpdate w).1).1).
Proof.
  cbn zeta. split; [|split; [|split; [|split]]].
  - unfold Status.monitored. split; [compute_done|].
    split; [reflexivity|compute_done].
  - reflexivity.
  - vm_compute. reflexivity.
  - intros v Hin. vm_compute in Hin.
    repeat (apply elem_of_cons in Hin as [Hin|Hin]; [discriminate|]).
    by apply elem_of_nil in Hin.
  - intros v Hin. vm_compute in Hin.
    repeat (apply elem_of_cons in Hin as [Hin|Hin]; [discriminate|]).
    by apply elem_of_nil in Hin.
Qed.

(** ** The per-joint diff *)

Section JointFacts.
Import Status.
Context {value : Type} `{!Runtime value}.
Implicit Types w : world value.

Lemma Joint_emit_signal name jnum v w :
  name ∈ Joint_signals ++ QObject_signals →
  Joint_emit name jnum v w
  = (add_events [JointSignal name jnum (joint_signal_arg name v)] w, Py.Ok tt).
Proof.
  intros Hin. unfold Joint_emit. by rewrite bool_decide_eq_true_2.
Qed.

Lemma Joint_emit_no_signal name jnum v w :
  name ∉ Joint_signals ++ QObject_signals →
  Joint_emit name jnum v w = (w, Py.Raise (Py.AttributeError name)).
Proof.
  intros Hin. unfold Joint_emit. by rewrite bool_decide_eq_false_2.
Qed.

(** The inner loop publishes a prefix of the changed items; it publishes
    all of them when their names are signals, and stops with
    [AttributeError] at the first name that is none. *)
Lemma for_each_Joint_emit jnum (items : list (string * value)) w :
  ∃ evs r,
    for_each items (λ item, Joint_emit item.1 jnum item.2) w
    = (add_events evs w, r) ∧
    evs ⊆ (λ item, JointSignal item.1 jnum (joint_signal_arg item.1 item.2)) <$> items ∧
    (r = Py.Ok tt ∨
     ∃ item, item ∈ items ∧ (item.1 ∉ Joint_signals ++ QObject_signals) ∧
             r = Py.Raise (Py.AttributeError item.1)) ∧
    (Forall (λ item, item.1 ∈ Joint_signals) items →
       r = Py.Ok tt ∧
       evs = (λ item, JointSignal item.1 jnum (joint_signal_arg item.1 item.2)) <$> items) ∧
    (Exists (λ item, item.1 ∉ Joint_signals ++ QObject_signals) items →
       r ≠ Py.Ok tt).
Proof.
  revert w. induction items as [|item items IH]; intros w.
  - exists [], (Py.Ok tt). cbn. rewrite add_events_nil.
    split; [reflexivity|]. split; [done|]. split; [by left|].
    split; [done|]. by intros ?%Exists_nil.
  - cbn [for_each].
    destruct (decide (item.1 ∈ Joint_signals ++ QObject_signals)) as [Hsig|Hsig].
    + destruct (IH (add_events [JointSignal item.1 jnum
                                  (joint_signal_arg item.1 item.2)] w))
        as (evs & r & Hrun & Hsub & Hr & Hall & Hbad).
      exists (JointSignal item.1 jnum (joint_signal_arg item.1 item.2) :: evs), r.
      split; [|split; [|split; [|split]]].
      * erewrite bind_ok; [|by apply Joint_emit_signal].
        by rewrite Hrun, add_events_app.
      * rewrite fmap_cons. intros e [->|He]%elem_of_cons.
        -- apply list_elem_of_here.
        -- apply list_elem_of_further, Hsub, He.
      * destruct Hr as [->|(bad & Hin & Hno & ->)]; [by left|right].
        exists bad. split; [by apply list_elem_of_further|done].
      * intros [_ Hrest]%Forall_cons.
        destruct (Hall Hrest) as [-> ->]. by rewrite fmap_cons.
      * intros [Hno|Hrest]%Exists_cons; [done|]. by apply Hbad.
    + exists [], (Py.Raise (Py.AttributeError item.1)).
      split; [|split; [|split; [|split]]].
      * erewrite bind_raise; [|by apply Joint_emit_no_signal].
        by rewrite add_events_nil.
      * intros e He. by apply elem_of_nil in He.
      * right. exists item. split; [apply list_elem_of_here|done].
      * intros [Hin _]%Forall_cons. exfalso. apply Hsig, elem_of_app. by left.
      * done.
Qed.

Lemma item_is_new_spec (old_j : gmap string value) name v :
  item_is_new old_j (name, v) = true ↔
  ∀ old_v, old_j !! name = Some old_v → py_ne old_v v = true.
Proof.
  unfold item_is_new. cbn [fst snd].
  destruct (old_j !! name) as [old_v|]; split.
  - intros Hne ? [= <-]. exact Hne.
  - intros Hall. by apply Hall.
  - done.
  - done.
Qed.

Lemma changed_items_spec (new_j old_j : gmap string value) name v :
  (name, v) ∈ changed_items new_j old_j ↔
  new_j !! name = Some v ∧
  ∀ old_v, old_j !! name = Some old_v → py_ne old_v v = true.
Proof.
  unfold changed_items.
  rewrite list_elem_of_filter, elem_of_map_to_list, item_is_new_spec.
  tauto.
Qed.

(** Two dictionaries that [!=] does not tell apart have no changed item. *)
Lemma changed_items_equal (new_j old_j : gmap string value) :
  dict_ne new_j old_j = false → changed_items new_j old_j = [].
Proof.
  unfold dict_ne, changed_items. intros Heq.
  apply negb_false_iff, andb_true_iff in Heq as [_ Hall].
  rewrite forallb_forall in Hall.
  induction (map_to_list new_j) as [|item items IH]; [done|].
  rewrite filter_cons.
  destruct (decide (item_is_new old_j item = true)) as [Hnew|_].
  - specialize (Hall item (or_introl eq_refl)). by rewrite Hnew in Hall.
  - apply IH. intros x Hx. apply Hall. by right.
Qed.

(** A record without a NaN has no changed item against itself. *)
Lemma changed_items_same (new_j : gmap string value) :
  map_Forall (λ _ v, py_ne v v = false) new_j →
  changed_items new_j new_j = [].
Proof.
  intros Hself.
  destruct (changed_items new_j new_j) as [|[name v] rest] eqn:Hitems; [done|].
  assert ((name, v) ∈ changed_items new_j new_j) as Hin.
  { rewrite Hitems. apply list_elem_of_here. }
  apply changed_items_spec in Hin as [Hlook Hne].
  specialize (Hne v Hlook). rewrite (Hself name v Hlook) in Hne. done.
Qed.

Lemma joint_changes_spec (new old_ : list (gmap string value)) jnum e :
  e ∈ joint_changes new old_ jnum ↔
  ∃ name v,
    e = JointSignal name jnum (joint_signal_arg name v) ∧
    joint_change new old_ jnum name v.
Proof.
  unfold joint_changes, joint_change. split.
  - destruct (new !! jnum) as [new_j|]; [|by intros ?%elem_of_nil].
    destruct (old_ !! jnum) as [old_j|]; [|by intros ?%elem_of_nil].
    intros ([name v] & -> & [Hn Ho]%changed_items_spec)%list_elem_of_fmap.
    exists name, v. split; [done|]. by exists new_j, old_j.
  - intros (name & v & -> & new_j & old_j & -> & -> & Hn & Ho).
    apply list_elem_of_fmap. exists (name, v). split; [done|].
    by apply changed_items_spec.
Qed.

(** One joint: an index missing from either collection raises
    [IndexError]; otherwise the changed items are published. *)
Lemma diff_joint_missing (new old_ : list (gmap string value)) jnum w :
  ¬ joint_present new old_ jnum →
  diff_joint new old_ jnum w = (w, Py.Raise Py.IndexError).
Proof.
  unfold joint_present, diff_joint, mbind, M_bind, lift, Py.getitem_nat.
  intros Hmiss.
  destruct (new !! jnum) as [new_j|]; [|done].
  destruct (old_ !! jnum) as [old_j|]; [|done].
  exfalso. apply Hmiss. split; by eexists.
Qed.

Lemma diff_joint_present (new old_ : list (gmap string value)) jnum w :
  joint_present new old_ jnum →
  ∃ evs r,
    diff_joint new old_ jnum w = (add_events evs w, r) ∧
    evs ⊆ joint_changes new old_ jnum ∧
    (r = Py.Ok tt ∨
     ∃ name v,
       r = Py.Raise (Py.AttributeError name) ∧
       (name ∉ Joint_signals ++ QObject_signals) ∧
       JointSignal name jnum (joint_signal_arg name v)
         ∈ joint_changes new old_ jnum) ∧
    (Forall joint_event_has_signal (joint_changes new old_ jnum) →
       r = Py.Ok tt ∧ evs = joint_changes new old_ jnum) ∧
    (Exists joint_event_lacks_signal (joint_changes new old_ jnum) →
       r ≠ Py.Ok tt).
Proof.
  unfold joint_present, joint_changes, diff_joint, mbind, M_bind, lift,
    Py.getitem_nat.
  intros [[new_j ->] [old_j ->]].
  destruct (dict_ne new_j old_j) eqn:Hne.
  - destruct (for_each_Joint_emit jnum (changed_items new_j old_j) w)
      as (evs & r & Hrun & Hsub & Hr & Hall & Hbad).
    exists evs, r. split; [exact Hrun|]. split; [exact Hsub|].
    split; [|split].
    + destruct Hr as [->|([name v] & Hin & Hno & ->)]; [by left|right].
      exists name, v. split; [done|]. split; [done|].
      apply list_elem_of_fmap. by exists (name, v).
    + intros Hsig. apply Hall.
      rewrite Forall_fmap in Hsig. exact Hsig.
    + intros Hlack. rewrite Exists_fmap in Hlack. by apply Hbad.
  - rewrite (changed_items_equal _ _ Hne).
    exists [], (Py.Ok tt). rewrite add_events_nil.
    split; [reflexivity|]. split; [done|]. split; [by left|].
    split; [done|]. by intros ?%Exists_nil.
Qed.

(** The loop over joint numbers that all have a record in both
    collections. *)
Lemma for_each_diff_joint (new old_ : list (gmap string value)) (jnums : list nat) w :
  Forall (joint_present new old_) jnums →
  ∃ evs r,
    for_each jnums (diff_joint new old_) w = (add_events evs w, r) ∧
    (∀ e, e ∈ evs → ∃ jnum, jnum ∈ jnums ∧ e ∈ joint_changes new old_ jnum) ∧
    (r = Py.Ok tt ∨
     ∃ name jnum v,
       r = Py.Raise (Py.AttributeError name) ∧
       (name ∉ Joint_signals ++ QObject_signals) ∧
       jnum ∈ jnums ∧
       JointSignal name jnum (joint_signal_arg name v)
         ∈ joint_changes new old_ jnum) ∧
    (changed_names_have_signals new old_ jnums →
       r = Py.Ok tt ∧ evs = mjoin (joint_changes new old_ <$> jnums)) ∧
    (changed_name_lacks_signal new old_ jnums → r ≠ Py.Ok tt).
Proof.
  revert w. induction jnums as [|jnum jnums IH]; intros w Hpres.
  { exists [], (Py.Ok tt). cbn. rewrite add_events_nil.
    split; [reflexivity|]. split; [by intros e ?%elem_of_nil|].
    split; [by left|]. split; [done|]. by intros ?%Exists_nil. }
  apply Forall_cons in Hpres as [Hpres1 Hpres].
  cbn [for_each].
  destruct (diff_joint_present new old_ jnum w Hpres1)
    as (evs1 & r1 & Hrun1 & Hsub1 & Hr1 & Hall1 & Hbad1).
  destruct Hr1 as [-> | (name & v & -> & Hno & Hin)].
  - destruct (IH (add_events evs1 w) Hpres)
      as (evs & r & Hrun & Hsound & Hr & Hok & Hbad).
    exists (evs1 ++ evs), r.
    split; [|split; [|split; [|split]]].
    + erewrite bind_ok; [|exact Hrun1]. by rewrite Hrun, add_events_app.
    + intros e [He|He]%elem_of_app.
      * exists jnum. split; [apply list_elem_of_here|by apply Hsub1].
      * destruct (Hsound e He) as (j & Hj & Hjin).
        exists j. split; [by apply list_elem_of_further|done].
    + destruct Hr as [->|(name & j & v & -> & Hno & Hj & Hjin)]; [by left|right].
      exists name, j, v. split; [done|]. split; [done|].
      split; [by apply list_elem_of_further|done].
    + intros [Hsig1 Hsig]%Forall_cons.
      destruct (Hok Hsig) as [-> ->].
      destruct (Hall1 Hsig1) as [_ ->]. by rewrite fmap_cons.
    + intros [Hlack1|Hlack]%Exists_cons; [by apply Hbad1 in Hlack1|].
      by apply Hbad.
  - exists evs1, (Py.Raise (Py.AttributeError name)).
    split; [|split; [|split; [|split]]].
    + erewrite bind_raise; [|exact Hrun1]. reflexivity.
    + intros e He. exists jnum. split; [apply list_elem_of_here|by apply Hsub1].
    + right. exists name, jnum, v. split; [done|]. split; [done|].
      split; [apply list_elem_of_here|done].
    + intros [Hsig1 _]%Forall_cons. by destruct (Hall1 Hsig1).
    + done.
Qed.

(** Shape of [_Joint._periodic]: the new collection is retained, then the
    loop runs over [range(self.num_joints)]. *)
Lemma Joint_periodic_unfold w :
  Joint_periodic w
  = for_each (seq 0 (num_joints w))
             (diff_joint (joint (stat w)) (joint_old w))
             (set_joint_old (joint (stat w)) w).
Proof. reflexivity. Qed.

Lemma joints_in_reach_present (new old_ : list (gmap string value)) (n : nat) :
  Forall (joint_present new old_) (seq 0 (joints_in_reach new old_ n)).
Proof.
  unfold joints_in_reach.
  apply Forall_forall. intros j Hj%elem_of_seq.
  split; apply lookup_lt_is_Some; lia.
Qed.

(** The first joint number beyond the shorter collection, when the loop
    gets there. *)
Lemma joints_in_reach_missing (new old_ : list (gmap string value)) (n : nat) :
  (length new < n)%nat ∨ (length old_ < n)%nat →
  seq 0 n
  = seq 0 (joints_in_reach new old_ n)
      ++ joints_in_reach new old_ n
         :: seq (S (joints_in_reach new old_ n)) (n - S (joints_in_reach new old_ n)) ∧
  ¬ joint_present new old_ (joints_in_reach new old_ n).
Proof.
  unfold joints_in_reach. intros Hshort.
  set (k := (n `min` (length new `min` length old_))%nat).
  assert (k < n)%nat as Hk by lia.
  split.
  - replace n with (k + S (n - S k))%nat at 1 by lia.
    rewrite seq_app. cbn [seq]. by rewrite Nat.add_0_l.
  - intros [Hn Ho]. apply lookup_lt_is_Some in Hn, Ho. lia.
Qed.

Lemma joints_in_reach_all (new old_ : list (gmap string value)) (n : nat) :
  (n ≤ length new)%nat → (n ≤ length old_)%nat →
  joints_in_reach new old_ n = n.
Proof. unfold joints_in_reach. lia. Qed.

(** [_Joint._periodic], taken apart: the joints in reach are diffed in
    turn; if the loop has further joint numbers to go, [IndexError] is
    raised at the first of them. *)
Lemma Joint_periodic_spec w :
  let new := joint (stat w) in
  let old_ := joint_old w in
  let n := num_joints w in
  let k := joints_in_reach new old_ n in
  ∃ evs r,
    Joint_periodic w = (add_events evs (set_joint_old new w), r) ∧
    (∀ e, e ∈ evs → ∃ jnum, (jnum < k)%nat ∧ e ∈ joint_changes new old_ jnum) ∧
    (r = Py.Ok tt ∨ r = Py.Raise Py.IndexError ∨
     ∃ name jnum v,
       r = Py.Raise (Py.AttributeError name) ∧
       (name ∉ Joint_signals ++ QObject_signals) ∧
       (jnum < k)%nat ∧
       JointSignal name jnum (joint_signal_arg name v)
         ∈ joint_changes new old_ jnum) ∧
    (changed_names_have_signals new old_ (seq 0 k) →
       evs = mjoin (joint_changes new old_ <$> seq 0 k) ∧
       r = if bool_decide (k = n) then Py.Ok tt else Py.Raise Py.IndexError) ∧
    (changed_name_lacks_signal new old_ (seq 0 k) →
       r ≠ Py.Ok tt ∧ r ≠ Py.Raise Py.IndexError) ∧
    (k = n → r ≠ Py.Raise Py.IndexError) ∧
    (k ≠ n → r ≠ Py.Ok tt).
Proof.
  intros new old_ n k. rewrite Joint_periodic_unfold. fold new old_ n.
  set (w0 := set_joint_old new w).
  destruct (for_each_diff_joint new old_ (seq 0 k) w0
              (joints_in_reach_present new old_ n))
    as (evs & r & Hrun & Hsound & Hr & Hok & Hbad).
  assert (Hsound' : ∀ e, e ∈ evs →
            ∃ jnum, (jnum < k)%nat ∧ e ∈ joint_changes new old_ jnum).
  { intros e He. destruct (Hsound e He) as (j & Hj%elem_of_seq & Hin).
    exists j. split; [lia|done]. }
  assert (Hr' : r = Py.Ok tt ∨
            ∃ name jnum v,
              r = Py.Raise (Py.AttributeError name) ∧
              (name ∉ Joint_signals ++ QObject_signals) ∧
              (jnum < k)%nat ∧
              JointSignal name jnum (joint_signal_arg name v)
                ∈ joint_changes new old_ jnum).
  { destruct Hr as [->|(name & j & v & -> & Hno & Hj%elem_of_seq & Hin)];
      [by left|right].
    exists name, j, v. split; [done|]. split; [done|]. split; [lia|done]. }
  destruct (decide (k = n)) as [Hall|Hshort].
  - (* every joint number of the loop is in reach *)
    exists evs, r. rewrite <- Hall at 1. split; [exact Hrun|].
    split; [exact Hsound'|]. split; [|split; [|split; [|split]]].
    + destruct Hr' as [->|Hattr]; [by left|right; by right].
    + intros Hsig. destruct (Hok Hsig) as [-> ->].
      by rewrite (bool_decide_eq_true_2 _ Hall).
    + intros Hlack. split; [by apply Hbad|].
      destruct Hr' as [->|(? & ? & ? & -> & _)]; done.
    + intros _. destruct Hr' as [->|(? & ? & ? & -> & _)]; done.
    + done.
  - (* the loop goes beyond the shorter collection *)
    assert ((length new < n)%nat ∨ (length old_ < n)%nat) as Hlen.
    { unfold k, joints_in_reach in Hshort. lia. }
    destruct (joints_in_reach_missing new old_ n Hlen) as [Hseq Hmiss].
    fold k in Hseq, Hmiss. rewrite Hseq, for_each_app, Hrun.
    destruct Hr' as [->|(name & j & v & -> & Hno & Hj & Hin)].
    + cbn [for_each].
      erewrite bind_raise; [|by apply diff_joint_missing].
      exists evs, (Py.Raise Py.IndexError). split; [reflexivity|].
      split; [exact Hsound'|]. split; [right; by left|].
      split; [|split; [|split]].
      * intros Hsig. destruct (Hok Hsig) as [_ ->].
        by rewrite (bool_decide_eq_false_2 _ Hshort).
      * intros Hlack. by apply Hbad in Hlack.
      * done.
      * done.
    + exists evs, (Py.Raise (Py.AttributeError name)). split; [reflexivity|].
      split; [exact Hsound'|]. split; [right; right; by exists name, j, v|].
      split; [|split; [|split]].
      * intros Hsig. by destruct (Hok Hsig).
      * done.
      * done.
      * done.
Qed.

End JointFacts.
(** C3 (as amended).  The per-joint diff runs over the joint numbers below
    [num_joints], the count read when the object was built, and not over
    the smaller of the two collection lengths.  It retains the new
    collection.  The joints it can reach are those below [num_joints] that
    have a record in both collections, and every event it publishes is a
    change of one of them: an attribute and value of the new record for
    which the old record has no equal.

    When the changed attributes of the joints in reach all name signals
    declared by [_Joint], every such change is published; the diff then
    returns normally if both collections have at least [num_joints]
    records, and otherwise raises [IndexError], at the first joint number
    missing from either collection and with the changes of all the joints
    before it published.

    When some changed attribute of a joint in reach names no signal of the
    [_Joint] object, the diff raises [AttributeError] for such an
    attribute instead.

    Whatever the attributes, with a collection shorter than [num_joints]
    the diff raises, and with both long enough it does not raise
    [IndexError]. *)
Theorem joint_diff_runs_over_num_joints {value : Type} `{!Status.Runtime value}
    (w : Status.world value) :
  let new := Status.joint (Status.stat w) in
  let old_ := Status.joint_old w in
  let n := Status.num_joints w in
  let k := joints_in_reach new old_ n in
  let w' := (Status.Joint_periodic w).1 in
  let r := (Status.Joint_periodic w).2 in
  Status.joint_old w' = new ∧
  (k ≤ n)%nat ∧ (k ≤ length new)%nat ∧ (k ≤ length old_)%nat ∧
  ((length new < n)%nat ∨ (length old_ < n)%nat →
     k = (length new `min` length old_)%nat) ∧
  ∃ evs,
    Status.emitted w' = Status.emitted w ++ evs ∧
    (∀ e, e ∈ evs →
       ∃ name jnum v,
         e = Status.JointSignal name jnum (Status.joint_signal_arg name v) ∧
         (jnum < k)%nat ∧ joint_change new old_ jnum name v) ∧
    (changed_names_have_signals new old_ (seq 0 k) →
       (∀ name jnum v,
          (jnum < k)%nat → joint_change new old_ jnum name v →
          Status.JointSignal name jnum (Status.joint_signal_arg name v) ∈ evs) ∧
       ((n ≤ length new)%nat → (n ≤ length old_)%nat → r = Py.Ok tt) ∧
       ((length new < n)%nat ∨ (length old_ < n)%nat →
          r = Py.Raise Py.IndexError)) ∧
    (changed_name_lacks_signal new old_ (seq 0 k) →
       ∃ name jnum v,
         r = Py.Raise (Py.AttributeError name) ∧
         (name ∉ Status.Joint_signals ++ Status.QObject_signals) ∧
         (jnum < k)%nat ∧ joint_change new old_ jnum name v) ∧
    ((length new < n)%nat ∨ (length old_ < n)%nat → Py.is_ok r = false) ∧
    ((n ≤ length new)%nat → (n ≤ length old_)%nat →
       r = Py.Ok tt ∨ ∃ name, r = Py.Raise (Py.AttributeError name)).
Proof.
  intros new old_ n k w' r. subst w' r.
  destruct (Joint_periodic_spec w)
    as (evs & r & Hrun & Hsound & Hr & Hok & Hbad & Hall & Hshort).
  fold new old_ n k in Hrun, Hsound, Hr, Hok, Hbad, Hall, Hshort.
  rewrite Hrun. cbn [fst snd].
  split; [reflexivity|].
  split; [unfold k, joints_in_reach; lia|].
  split; [unfold k, joints_in_reach; lia|].
  split; [unfold k, joints_in_reach; lia|].
  split; [unfold k, joints_in_reach; lia|].
  exists evs. split; [reflexivity|].
  split; [|split; [|split; [|split]]].
  - intros e He. destruct (Hsound e He) as (jnum & Hj & Hin).
    apply joint_changes_spec in Hin as (name & v & -> & Hchange).
    by exists name, jnum, v.
  - intros Hsig. destruct (Hok Hsig) as [-> Hres]. split; [|split].
    + intros name jnum v Hj Hchange.
      apply list_elem_of_join. exists (joint_changes new old_ jnum). split.
      * apply joint_changes_spec. by exists name, v.
      * apply list_elem_of_fmap. exists jnum. split; [done|].
        apply elem_of_seq. lia.
    + intros Hnew Hold. rewrite Hres.
      by rewrite bool_decide_eq_true_2 by (by apply joints_in_reach_all).
    + intros Hlen. rewrite Hres.
      by rewrite bool_decide_eq_false_2 by (unfold k, joints_in_reach; lia).
  - intros Hlack. destruct (Hbad Hlack) as [Hnok Hnidx].
    destruct Hr as [->|[->|(name & jnum & v & -> & Hno & Hj & Hin)]]; [done..|].
    apply joint_changes_spec in Hin as (name' & v' & Heq & Hchange).
    injection Heq as -> _.
    exists name', jnum, v'. done.
  - intros Hlen.
    assert (k ≠ n) as Hk by (unfold k, joints_in_reach; lia).
    specialize (Hshort Hk). destruct r as [[]|exn]; done.
  - intros Hnew Hold.
    specialize (Hall (joints_in_reach_all new old_ n Hnew Hold)).
    destruct Hr as [->|[->|(name & _ & _ & -> & _)]]; [by left|done|right].
    by eexists.
Qed.

Lemma joint_diff_runs_over_num_joints_witness :
  (Status.Joint_periodic
     (Status.set_stat (sample_stat 1 7 [sample_joint 1; sample_joint 0])
                      (sample_world []))).2 = Py.Ok tt ∧
  Status.JointSignal "homed" 0 1
    ∈ Status.emitted
        (Status.Joint_periodic
           (Status.set_stat (sample_stat 1 7 [sample_joint 1; sample_joint 0])
                            (sample_world []))).1.
Proof.
  destruct (joint_diff_runs_over_num_joints
              (Status.set_stat (sample_stat 1 7 [sample_joint 1; sample_joint 0])
                               (sample_world [])))
    as (_ & _ & _ & _ & _ & evs & Hem & _ & Hsig & _).
  destruct Hsig as (Hall & Hok & _).
  { unfold changed_names_have_signals. compute_done. }
  split.
  - apply Hok; vm_compute; lia.
  - rewrite Hem. apply elem_of_app. right.
    apply (Hall "homed" 0%nat 1).
    + vm_compute. lia.
    + exists (sample_joint 1), (sample_joint 0).
      split; [reflexivity|]. split; [reflexivity|]. split; [reflexivity|].
      intros old_v [= <-]. reflexivity.
Defined.

(** C3, as stated, fails: with two joints counted at construction and two
    retained records, a poll that shows a single joint record makes the
    diff raise [IndexError] at joint 1, and the cycle with it. *)
Lemma joint_shrink_raises :
  let shrunk := sample_stat 1 7 [sample_joint 1] in
  let w := Status.set_stat shrunk (sample_world []) in
  length (Status.joint_old w) = 2%nat ∧
  length (Status.joint (Status.stat w)) = 1%nat ∧
  (Status.Joint_periodic w).2 = Py.Raise Py.IndexError ∧
  (Status.Status_periodic (Some shrunk) (sample_world [])).2
  = Py.Raise Py.IndexError.
Proof. cbn zeta. repeat split; vm_compute; reflexivity. Qed.

(** ** The field diff of a cycle *)

Section FieldDiffFacts.
Import Status.
Context {value : Type} `{!Runtime value}.
Implicit Types w : world value.
Implicit Types s : snapshot value.
Implicit Types o : gmap string value.

Lemma set_old_add_events_nil w : set_old (old w) (add_events [] w) = w.
Proof. destruct w. unfold set_old, add_events. cbn. by rewrite app_nil_r. Qed.

Lemma set_old_add_events_step o1 o2 evs1 evs2 w :
  set_old o2 (add_events evs2 (add_events evs1 (set_old o1 w)))
  = set_old o2 (add_events (evs1 ++ evs2) w).
Proof. unfold set_old, add_events. cbn. by rewrite <- app_assoc. Qed.

(** One turn of the loop on an item whose key names a signal. *)
Lemma diff_field_signal (item : string * value) w :
  item.1 ∈ Status_signals ++ QObject_signals →
  diff_field item w
  = if py_ne item.2 (attr (stat w) item.1)
    then (add_events (emission (connections w) (stat w) item.1 (attr (stat w) item.1))
                     (set_old (<[item.1 := attr (stat w) item.1]> (old w)) w),
          Py.Ok tt)
    else (w, Py.Ok tt).
Proof.
  intros Hsig. unfold diff_field. erewrite bind_ok; [|reflexivity]. cbn beta.
  destruct (py_ne item.2 (attr (stat w) item.1)); [|reflexivity].
  erewrite bind_ok; [|reflexivity].
  by rewrite Status_emit_signal.
Qed.

(** The loop over the retained items, when every key names a signal. *)
Lemma for_each_diff_field (items : list (string * value)) w :
  Forall (λ item, item.1 ∈ Status_signals) items →
  for_each items diff_field w
  = (set_old (refreshed (stat w) items (old w))
             (add_events (field_events (connections w) (stat w) items) w),
     Py.Ok tt).
Proof.
  intros Hsig. revert w.
  induction Hsig as [|item items Hitem _ IH]; intros w.
  { cbn. by rewrite set_old_add_events_nil. }
  cbn [for_each]. unfold field_events, refreshed.
  rewrite filter_cons. cbn [foldl].
  assert (item.1 ∈ Status_signals ++ QObject_signals) as Hitem'
    by (apply elem_of_app; by left).
  destruct (py_ne item.2 (attr (stat w) item.1)) eqn:Hne.
  - erewrite bind_ok;
      [|rewrite (diff_field_signal item w Hitem'), Hne; reflexivity].
    rewrite decide_True by done.
    rewrite IH. cbn [stat connections old set_old add_events].
    rewrite bind_cons. f_equal.
    exact (set_old_add_events_step _ _ _ _ _).
  - erewrite bind_ok;
      [|rewrite (diff_field_signal item w Hitem'), Hne; reflexivity].
    rewrite decide_False by done.
    by rewrite IH.
Qed.

Lemma refreshed_lookup_notin s (items : list (string * value)) o key :
  key ∉ items.*1 → refreshed s items o !! key = o !! key.
Proof.
  unfold refreshed. revert o.
  induction items as [|item items IH]; intros o Hnotin; [done|].
  cbn [foldl]. rewrite fmap_cons, not_elem_of_cons in Hnotin.
  destruct Hnotin as [Hne Hnotin]. rewrite (IH _ Hnotin).
  destruct (py_ne item.2 (attr s item.1)); [|done]. by rewrite lookup_insert_ne.
Qed.

Lemma refreshed_lookup_in s (items : list (string * value)) o key v :
  NoDup items.*1 → (key, v) ∈ items →
  refreshed s items o !! key
  = if py_ne v (attr s key) then Some (attr s key) else o !! key.
Proof.
  revert o. induction items as [|item items IH]; intros o Hnodup Hin.
  { by apply elem_of_nil in Hin. }
  rewrite fmap_cons in Hnodup. apply NoDup_cons in Hnodup as [Hfresh Hnodup].
  apply elem_of_cons in Hin as [<- | Hin].
  - change (refreshed s ((key, v) :: items) o)
      with (refreshed s items
              (if py_ne v (attr s key) then <[key := attr s key]> o else o)).
    rewrite (refreshed_lookup_notin _ _ _ _ Hfresh).
    destruct (py_ne v (attr s key)); [by rewrite lookup_insert_eq|done].
  - assert (item.1 ≠ key) as Hne.
    { intros <-. apply Hfresh. apply list_elem_of_fmap. by exists (item.1, v). }
    change (refreshed s (item :: items) o)
      with (refreshed s items
              (if py_ne item.2 (attr s item.1)
               then <[item.1 := attr s item.1]> o else o)).
    rewrite (IH _ Hnodup Hin).
    destruct (py_ne v (attr s key)); [done|].
    destruct (py_ne item.2 (attr s item.1)); [by rewrite lookup_insert_ne|done].
Qed.

(** After the loop every retained key holds the polled value if [!=] told
    it from the retained one, and the retained value as it was
    otherwise. *)
Lemma refreshed_map_to_list s o key :
  refreshed s (map_to_list o) o !! key
  = (λ old_value, retained_after old_value (attr s key)) <$> o !! key.
Proof.
  destruct (o !! key) as [v|] eqn:Hlook.
  - rewrite (refreshed_lookup_in s _ o key v).
    + unfold retained_after. cbn.
      destruct (py_ne v (attr s key)); [done|exact Hlook].
    + apply NoDup_fst_map_to_list.
    + by apply elem_of_map_to_list.
  - rewrite refreshed_lookup_notin; [by rewrite Hlook|].
    intros ([k v] & -> & Hin%elem_of_map_to_list)%list_elem_of_fmap.
    cbn in Hlook. congruence.
Qed.

Lemma field_events_spec conns s o key v :
  StatusSignal key v ∈ field_events conns s (map_to_list o) ↔
  ∃ old_value,
    o !! key = Some old_value ∧ py_ne old_value (attr s key) = true ∧
    v = signal_arg key (attr s key).
Proof.
  unfold field_events. rewrite list_elem_of_bind. split.
  - intros ([k ov] & Hin & [Hne Hitem%elem_of_map_to_list]%list_elem_of_filter).
    apply emission_status in Hin as [-> ->]. by exists ov.
  - intros (ov & Hlook & Hne & ->). exists (key, ov). split.
    + by apply emission_status.
    + apply list_elem_of_filter. split; [done|]. by apply elem_of_map_to_list.
Qed.

(** Every event of the field diff belongs to the emission of a changed
    item. *)
Lemma field_events_inv conns s (items : list (string * value)) e :
  e ∈ field_events conns s items →
  ∃ item, item ∈ items ∧ py_ne item.2 (attr s item.1) = true ∧
          e ∈ emission conns s item.1 (attr s item.1).
Proof.
  unfold field_events.
  intros (item & Hin & [Hne Hitem]%list_elem_of_filter)%list_elem_of_bind.
  by exists item.
Qed.

(** The error channel reader leaves the retained values alone and
    publishes channel events only. *)
Lemma Error_periodic_frame w :
  old (Error_periodic w).1 = old w ∧
  ∃ evs, emitted (Error_periodic w).1 = emitted w ++ evs ∧
         Forall is_channel_event evs.
Proof.
  destruct (error_queue w) as [|[kind msg] q] eqn:Hq.
  { rewrite (Error_periodic_empty_queue w Hq). split; [done|].
    exists []. by rewrite app_nil_r. }
  destruct (decide (kind ∈ [NML_ERROR; OPERATOR_ERROR])) as [He|He].
  - assert (kind = NML_ERROR ∨ kind = OPERATOR_ERROR) as Hk.
    { rewrite !elem_of_cons in He. destruct He as [?|[?|He]]; auto.
      by apply elem_of_nil in He. }
    rewrite (Error_periodic_error_class w kind msg q Hq Hk).
    split; [done|]. eexists [_]. split; [reflexivity|].
    by repeat constructor.
  - destruct (decide (kind ∈ [NML_TEXT; OPERATOR_TEXT;
                              NML_DISPLAY; OPERATOR_DISPLAY])) as [Ht|Ht].
    + rewrite (Error_periodic_text_class w kind msg q Hq Ht).
      split; [done|]. eexists [_]. split; [reflexivity|].
      by repeat constructor.
    + rewrite (Error_periodic_other_class w kind msg q Hq He Ht).
      split; [done|]. exists []. cbn. by rewrite app_nil_r.
Qed.

(** The joint diff leaves the retained field values alone and publishes
    joint changes only. *)
Lemma Joint_periodic_frame w :
  ∃ evs r,
    Joint_periodic w = (add_events evs (set_joint_old (joint (stat w)) w), r) ∧
    ∀ e, e ∈ evs →
      ∃ jnum, e ∈ joint_changes (joint (stat w)) (joint_old w) jnum.
Proof.
  destruct (Joint_periodic_spec w) as (evs & r & Hrun & Hsound & _).
  exists evs, r. split; [exact Hrun|].
  intros e He. destruct (Hsound e He) as (jnum & _ & Hin). by exists jnum.
Qed.

(** What follows the field diff in a cycle. *)
Lemma joint_then_error_frame w :
  old ((Joint_periodic ;; Error_periodic) w).1 = old w ∧
  ∃ evs,
    emitted ((Joint_periodic ;; Error_periodic) w).1 = emitted w ++ evs ∧
    ∀ e, e ∈ evs →
      is_channel_event e ∨
      ∃ jnum, e ∈ joint_changes (joint (stat w)) (joint_old w) jnum.
Proof.
  destruct (Joint_periodic_frame w) as (jevs & r & Hrun & Hjoint).
  destruct r as [[]|exn].
  - erewrite bind_ok; [|exact Hrun].
    destruct (Error_periodic_frame
                (add_events jevs (set_joint_old (joint (stat w)) w)))
      as (Hold & eevs & Hem & Hchan).
    split; [by rewrite Hold|].
    exists (jevs ++ eevs). split.
    + rewrite Hem. cbn. by rewrite app_assoc.
    + intros e [He|He]%elem_of_app; [right; by apply Hjoint|left].
      rewrite Forall_forall in Hchan. by apply Hchan.
  - erewrite bind_raise; [|exact Hrun].
    split; [done|]. exists jevs. split; [done|].
    intros e He. right. by apply Hjoint.
Qed.

Lemma Status_periodic_poll_ok s w :
  keys_have_signals w →
  Status_periodic (Some s) w
  = (Joint_periodic ;; Error_periodic)
      (set_old (refreshed s (map_to_list (old w)) (old w))
               (add_events (field_events (connections w) s (map_to_list (old w)))
                           (set_stat s w))).
Proof.
  intros Hkeys%keys_have_signals_items.
  unfold Status_periodic.
  erewrite bind_ok; [|reflexivity].
  erewrite bind_ok; [|reflexivity].
  erewrite bind_ok; [reflexivity|].
  by rewrite for_each_diff_field.
Qed.

Lemma joint_changes_not_status (new old_ : list (gmap string value)) jnum key v :
  StatusSignal key v ∉ joint_changes new old_ jnum.
Proof.
  intros (? & ? & ? & _)%joint_changes_spec. done.
Qed.

Lemma joint_changes_same (new : list (gmap string value)) jnum :
  self_equal_joints new → joint_changes new new jnum = [].
Proof.
  intros Hself. unfold joint_changes.
  destruct (new !! jnum) as [new_j|] eqn:Hlook; [|done].
  rewrite changed_items_same; [done|].
  unfold self_equal_joints in Hself. rewrite Forall_forall in Hself.
  apply Hself. by eapply list_elem_of_lookup_2.
Qed.

(** A cycle with a successful poll, taken apart: the field diff, then the
    events of the joint diff and of the error channel. *)
Lemma cycle_shape s w :
  keys_have_signals w →
  ∃ tevs,
    old (Status_periodic (Some s) w).1
    = refreshed s (map_to_list (old w)) (old w) ∧
    emitted (Status_periodic (Some s) w).1
    = emitted w ++ field_events (connections w) s (map_to_list (old w)) ++ tevs ∧
    (∀ e, e ∈ tevs →
       is_channel_event e ∨ ∃ jnum, e ∈ joint_changes (joint s) (joint_old w) jnum) ∧
    joint_old (Status_periodic (Some s) w).1 = joint s ∧
    stat (Status_periodic (Some s) w).1 = s ∧
    connections (Status_periodic (Some s) w).1 = connections w.
Proof.
  intros Hkeys. rewrite (Status_periodic_poll_ok s w Hkeys).
  set (w2 := set_old _ _).
  destruct (joint_then_error_frame w2) as (Hold & tevs & Hem & Htail).
  exists tevs. split; [by rewrite Hold|]. split; [|split; [exact Htail|]].
  { rewrite Hem. subst w2. cbn. by rewrite app_assoc. }
  destruct (Joint_periodic_frame w2) as (jevs & r & Hrun & _).
  destruct r as [[]|exn].
  - erewrite bind_ok; [|exact Hrun].
    destruct (Error_periodic_keeps
                (add_events jevs (set_joint_old (joint (stat w2)) w2)))
      as (-> & -> & _ & _ & -> & _). done.
  - erewrite bind_raise; [|exact Hrun]. done.
Qed.

Lemma cycle_keeps_keys s w key :
  keys_have_signals w →
  old (Status_periodic (Some s) w).1 !! key
  = (λ old_value, retained_after old_value (attr s key)) <$> old w !! key.
Proof.
  intros Hkeys. destruct (cycle_shape s w Hkeys) as (tevs & -> & _).
  apply refreshed_map_to_list.
Qed.

Lemma cycle_keeps_signals s w :
  keys_have_signals w → keys_have_signals (Status_periodic (Some s) w).1.
Proof.
  intros Hkeys key v Hlook. rewrite (cycle_keeps_keys s w key Hkeys) in Hlook.
  destruct (old w !! key) as [v0|] eqn:Hold; [|done].
  exact (Hkeys key v0 Hold).
Qed.

(** The emissions of a cycle on the signal of a retained field. *)
Lemma cycle_field_events s w :
  keys_have_signals w →
  ∃ evs,
    emitted (Status_periodic (Some s) w).1 = emitted w ++ evs ∧
    (∀ key old_value,
       old w !! key = Some old_value →
       ∀ v, StatusSignal key v ∈ evs ↔
            v = signal_arg key (attr s key) ∧
            py_ne old_value (attr s key) = true) ∧
    (∀ e, e ∈ evs →
       (∃ item, item ∈ map_to_list (old w) ∧
                py_ne item.2 (attr s item.1) = true ∧
                e ∈ emission (connections w) s item.1 (attr s item.1)) ∨
       is_channel_event e ∨
       ∃ jnum, e ∈ joint_changes (joint s) (joint_old w) jnum).
Proof.
  intros Hkeys.
  destruct (cycle_shape s w Hkeys) as (tevs & _ & Hem & Htail & _).
  exists (field_events (connections w) s (map_to_list (old w)) ++ tevs).
  split; [exact Hem|]. split.
  - intros key old_value Hlook v. rewrite elem_of_app, field_events_spec. split.
    + intros [(ov & Hov & Hne & ->) | Hin].
      * split; [done|]. congruence.
      * exfalso. destruct (Htail _ Hin) as [Hchan|[jnum Hjoint]]; [done|].
        by apply joint_changes_not_status in Hjoint.
    + intros [-> Hne]. left. by exists old_value.
  - intros e [He|He]%elem_of_app.
    + left. by apply field_events_inv.
    + right. by apply Htail.
Qed.

End FieldDiffFacts.

(** ** The monitored set *)

Section MonitoredFacts.
Import Status.
Context {value : Type}.
Implicit Types s : snapshot value.
Implicit Types o : gmap string value.

Lemma monitored_not_skipped dir_stat key :
  monitored dir_stat key ↔
  key ∈ dir_stat ∧
  (Py.startswith key "_" || bool_decide (key ∈ excluded_items))%bool = false.
Proof.
  unfold monitored. rewrite orb_false_iff, bool_decide_eq_false. tauto.
Qed.

Lemma init_loop_lookup_other s (dir_stat : list string) o key :
  key ∉ dir_stat ∨
  (Py.startswith key "_" || bool_decide (key ∈ excluded_items))%bool = true →
  foldl (λ o item,
           if (Py.startswith item "_" || bool_decide (item ∈ excluded_items))%bool
           then o else <[item := attr s item]> o)
        o dir_stat !! key
  = o !! key.
Proof.
  revert o. induction dir_stat as [|item dir_stat IH]; intros o Hother; [done|].
  cbn [foldl]. rewrite IH.
  - destruct (Py.startswith item "_" || bool_decide (item ∈ excluded_items))%bool
      eqn:Hskip; [done|].
    apply lookup_insert_ne. intros ->.
    destruct Hother as [Hnotin|Hskipped]; [|congruence].
    apply Hnotin, list_elem_of_here.
  - destruct Hother as [Hnotin|Hskipped]; [left|by right].
    intros Hin. apply Hnotin. by apply list_elem_of_further.
Qed.

Lemma init_loop_lookup_kept s (dir_stat : list string) o key :
  key ∈ dir_stat →
  (Py.startswith key "_" || bool_decide (key ∈ excluded_items))%bool = false →
  foldl (λ o item,
           if (Py.startswith item "_" || bool_decide (item ∈ excluded_items))%bool
           then o else <[item := attr s item]> o)
        o dir_stat !! key
  = Some (attr s key).
Proof.
  revert o. induction dir_stat as [|item dir_stat IH]; intros o Hin Hkeep.
  { by apply elem_of_nil in Hin. }
  cbn [foldl].
  destruct (decide (key ∈ dir_stat)) as [Hlater|Hlast]; [by apply IH|].
  apply elem_of_cons in Hin as [-> | Hin]; [|done].
  rewrite init_loop_lookup_other; [|by left].
  rewrite Hkeep. apply lookup_insert_eq.
Qed.

(** [__init__] retains exactly the monitored attributes, with the values
    the status object shows. *)
Lemma init_old_lookup dir_stat s key :
  (monitored dir_stat key → init_old dir_stat s !! key = Some (attr s key)) ∧
  (¬ monitored dir_stat key → init_old dir_stat s !! key = None).
Proof.
  unfold init_old. rewrite monitored_not_skipped. split.
  - intros [Hin Hkeep]. by apply init_loop_lookup_kept.
  - intros Hnot. rewrite init_loop_lookup_other; [apply lookup_empty|].
    destruct (decide (key ∈ dir_stat)) as [Hin|Hin]; [|by left].
    right. apply not_false_is_true. intros Hkeep. by apply Hnot.
Qed.

Lemma init_old_keys dir_stat s key :
  is_Some (init_old dir_stat s !! key) ↔ monitored dir_stat key.
Proof.
  destruct (init_old_lookup dir_stat s key) as [Hyes Hno]. split.
  - intros Hsome. destruct (decide (key ∈ dir_stat ∧
        (Py.startswith key "_" || bool_decide (key ∈ excluded_items))%bool = false))
      as [Hm|Hm].
    + by apply monitored_not_skipped.
    + rewrite <- monitored_not_skipped in Hm. rewrite (Hno Hm) in Hsome.
      by destruct Hsome.
  - intros Hm. rewrite (Hyes Hm). by eexists.
Qed.

End MonitoredFacts.




(** ** Derived positions *)

Section PositionFacts.
Import Status.

Example updateAxisPositions_unrotated :
  updateAxisPositions [0%nat; 1%nat; 2%nat] false (sample_position_stat 0%float) None
  = Py.Ok (1%float :: replicate 8 0%float,
           1%float :: replicate 8 0%float,
           replicate 9 0%float).
Proof. vm_compute. reflexivity. Qed.

Lemma updateAxisPositions_rotation_branch (AXIS_NUMBER_LIST : list nat)
    (report_actual : bool) (st : position_stat) (pos : option (list float))
    (rel : list float) :
  PrimFloat.eqb (rotation_xy st) 0%float = false →
  subtract_offsets AXIS_NUMBER_LIST
    (match pos with
     | Some p => p
     | None => if report_actual then actual_position st else position st
     end)
    (g5x_offset st) (tool_offset st) (replicate 9 0%float) = Py.Ok rel →
  updateAxisPositions AXIS_NUMBER_LIST report_actual st pos
  = Py.Raise (Py.NameError "math").
Proof.
  intros Hrot Hrel. unfold updateAxisPositions.
  rewrite Hrel. cbn. rewrite Hrot. reflexivity.
Qed.

Lemma subtract_offsets_spec (axes : list nat) (pos g5x tool rel : list float) :
  Forall (λ axis, (axis < length rel)%nat ∧ (axis < length pos)%nat ∧
                  (axis < length g5x)%nat ∧ (axis < length tool)%nat) axes →
  ∃ rel',
    subtract_offsets axes pos g5x tool rel = Py.Ok rel' ∧
    length rel' = length rel ∧
    ∀ axis,
      rel' !! axis =
      if bool_decide (axis ∈ axes)
      then p ← pos !! axis; g ← g5x !! axis; t ← tool !! axis;
           Some (PrimFloat.sub (PrimFloat.sub p g) t)
      else rel !! axis.
Proof.
  revert rel. induction axes as [|a axes IH]; intros rel Hrange.
  { exists rel. cbn. split; [done|]. split; [done|]. intros axis.
    by rewrite bool_decide_eq_false_2 by apply not_elem_of_nil. }
  apply Forall_cons in Hrange as [(Hrel & Hpos & Hg5x & Htool) Hrange].
  destruct (lookup_lt_is_Some_2 pos a Hpos) as [p Hp].
  destruct (lookup_lt_is_Some_2 g5x a Hg5x) as [g Hg].
  destruct (lookup_lt_is_Some_2 tool a Htool) as [t Ht].
  destruct (IH (<[a := PrimFloat.sub (PrimFloat.sub p g) t]> rel))
    as (rel' & Hrun & Hlen & Hlook).
  { eapply Forall_impl; [exact Hrange|]. intros axis. rewrite length_insert. tauto. }
  exists rel'. split; [|split].
  - cbn [subtract_offsets]. unfold Py.getitem_nat, Py.setitem_nat.
    rewrite Hp, Hg, Ht. cbn. rewrite decide_True by done. exact Hrun.
  - by rewrite Hlen, length_insert.
  - intros axis. rewrite Hlook.
    destruct (decide (axis ∈ axes)) as [Hin|Hnotin].
    + rewrite !bool_decide_eq_true_2; [done| |done]. by apply list_elem_of_further.
    + rewrite (bool_decide_eq_false_2 _ Hnotin).
      destruct (decide (axis = a)) as [->|Hne].
      * rewrite bool_decide_eq_true_2 by apply list_elem_of_here.
        rewrite list_lookup_insert_eq by done. by rewrite Hp, Hg, Ht.
      * rewrite bool_decide_eq_false_2.
        -- by rewrite list_lookup_insert_ne.
        -- intros [?|?]%elem_of_cons; done.
Qed.

Lemma subtract_g92_spec (axes : list nat) (g92 rel : list float) :
  NoDup axes →
  Forall (λ axis, (axis < length rel)%nat ∧ (axis < length g92)%nat) axes →
  ∃ rel',
    subtract_g92 axes g92 rel = Py.Ok rel' ∧
    length rel' = length rel ∧
    ∀ axis,
      rel' !! axis =
      if bool_decide (axis ∈ axes)
      then r ← rel !! axis; g ← g92 !! axis; Some (PrimFloat.sub r g)
      else rel !! axis.
Proof.
  revert rel. induction axes as [|a axes IH]; intros rel Hnodup Hrange.
  { exists rel. cbn. split; [done|]. split; [done|]. intros axis.
    by rewrite bool_decide_eq_false_2 by apply not_elem_of_nil. }
  apply NoDup_cons in Hnodup as [Hfresh Hnodup].
  apply Forall_cons in Hrange as [(Hrel & Hg92) Hrange].
  destruct (lookup_lt_is_Some_2 rel a Hrel) as [r Hr].
  destruct (lookup_lt_is_Some_2 g92 a Hg92) as [g Hg].
  destruct (IH (<[a := PrimFloat.sub r g]> rel) Hnodup)
    as (rel' & Hrun & Hlen & Hlook).
  { eapply Forall_impl; [exact Hrange|]. intros axis. rewrite length_insert. tauto. }
  exists rel'. split; [|split].
  - cbn [subtract_g92]. unfold Py.getitem_nat, Py.setitem_nat.
    rewrite Hr, Hg. cbn. rewrite decide_True by done. exact Hrun.
  - by rewrite Hlen, length_insert.
  - intros axis. rewrite Hlook.
    destruct (decide (axis ∈ axes)) as [Hin|Hnotin].
    + assert (axis ≠ a) as Hne by (by intros ->).
      rewrite !bool_decide_eq_true_2; [| by apply list_elem_of_further | done].
      by rewrite list_lookup_insert_ne.
    + rewrite (bool_decide_eq_false_2 _ Hnotin).
      destruct (decide (axis = a)) as [->|Hne].
      * rewrite bool_decide_eq_true_2 by apply list_elem_of_here.
        rewrite list_lookup_insert_eq by done. by rewrite Hr, Hg.
      * rewrite bool_decide_eq_false_2.
        -- by rewrite list_lookup_insert_ne.
        -- intros [?|?]%elem_of_cons; done.
Qed.

(** Without rotation the update emits, on every configured axis, position
    minus g5x offset minus tool offset minus g92 offset, and zero on the
    other axes; the position and the distance to go pass through. *)
Lemma updateAxisPositions_unrotated_spec (AXIS_NUMBER_LIST : list nat)
    (report_actual : bool) (st : position_stat) (pos : option (list float)) :
  let selected :=
    match pos with
    | Some p => p
    | None => if report_actual then actual_position st else position st
    end in
  PrimFloat.eqb (rotation_xy st) 0%float = true →
  axes_in_range AXIS_NUMBER_LIST selected st →
  ∃ rel,
    updateAxisPositions AXIS_NUMBER_LIST report_actual st pos
    = Py.Ok (selected, rel, dtg st) ∧
    length rel = 9%nat ∧
    ∀ axis, (axis < 9)%nat →
      rel !! axis =
      if bool_decide (axis ∈ AXIS_NUMBER_LIST)
      then unrotated_relative selected st axis
      else Some 0%float.
Proof.
  intros selected Hrot [Hnodup Hrange].
  destruct (subtract_offsets_spec AXIS_NUMBER_LIST selected (g5x_offset st)
              (tool_offset st) (replicate 9 0%float))
    as (rel1 & Hrun1 & Hlen1 & Hlook1).
  { eapply Forall_impl; [exact Hrange|]. intros axis. rewrite length_replicate. tauto. }
  destruct (subtract_g92_spec AXIS_NUMBER_LIST (g92_offset st) rel1 Hnodup)
    as (rel2 & Hrun2 & Hlen2 & Hlook2).
  { eapply Forall_impl; [exact Hrange|]. intros axis.
    rewrite Hlen1, length_replicate. tauto. }
  exists rel2. split; [|split].
  - unfold updateAxisPositions. fold selected.
    rewrite Hrun1. cbn. rewrite Hrot. cbn. rewrite Hrun2. reflexivity.
  - by rewrite Hlen2, Hlen1, length_replicate.
  - intros axis Haxis. rewrite Hlook2, Hlook1.
    case_bool_decide as Hin.
    + unfold unrotated_relative.
      destruct (selected !! axis) as [p|]; [|done].
      destruct (g5x_offset st !! axis) as [g|]; [|done].
      destruct (tool_offset st !! axis) as [t|]; done.
    + by apply lookup_replicate_2.
Qed.

End PositionFacts.

(** C4: the code does not reach the rotation.  Whenever [rotation_xy] is
    not zero, [updateAxisPositions] raises instead of emitting positions:
    once the g5x and tool offsets have been subtracted it stops with
    [NameError] on the name [math].  So happens with a rotation of 90
    degrees and the pre-rotation vector (1, 0): no relative position
    (0, 1) is produced. *)
Theorem rotated_position_update_raises (AXIS_NUMBER_LIST : list nat)
    (report_actual : bool) (st : Status.position_stat)
    (pos : option (list float)) :
  PrimFloat.eqb (Status.rotation_xy st) 0%float = false →
  Py.is_ok (Status.updateAxisPositions AXIS_NUMBER_LIST report_actual st pos)
  = false ∧
  (Py.is_ok (Status.subtract_offsets AXIS_NUMBER_LIST
               (match pos with
                | Some p => p
                | None => if report_actual then Status.actual_position st
                          else Status.position st
                end)
               (Status.g5x_offset st) (Status.tool_offset st)
               (replicate 9 0%float)) = true →
   Status.updateAxisPositions AXIS_NUMBER_LIST report_actual st pos
   = Py.Raise (Py.NameError "math")).
Proof.
  intros Hrot.
  destruct (Status.subtract_offsets AXIS_NUMBER_LIST
              (match pos with
               | Some p => p
               | None => if report_actual then Status.actual_position st
                         else Status.position st
               end)
              (Status.g5x_offset st) (Status.tool_offset st)
              (replicate 9 0%float)) as [rel|e] eqn:Hrel.
  - rewrite (updateAxisPositions_rotation_branch _ _ _ _ rel Hrot Hrel).
    split; [reflexivity|]. intros _. reflexivity.
  - split; [|discriminate].
    unfold Status.updateAxisPositions. by rewrite Hrel.
Qed.

Lemma rotated_position_update_raises_witness :
  Status.updateAxisPositions [0%nat; 1%nat; 2%nat] false
    (sample_position_stat 90%float) None
  = Py.Raise (Py.NameError "math").
Proof.
  apply (rotated_position_update_raises [0%nat; 1%nat; 2%nat] false
           (sample_position_stat 90%float) None).
  - vm_compute. reflexivity.
  - vm_compute. reflexivity.
Defined.

(* ===================================================================== *)
(** * Part III.  Further properties of the modelled code *)
(* ===================================================================== *)

(** ** Cycles in sequence *)

Section CycleFacts.
Import Status.
Context {value : Type} `{!Runtime value}.
Implicit Types w : world value.
Implicit Types s : snapshot value.

(** What a field is compared with in the cycle after a cycle that polled
    [s]: [!=] does not tell it from the value polled, provided the latter
    equals itself. *)
Lemma retained_after_settled (old_value new_value : value) :
  py_ne new_value new_value = false →
  py_ne (retained_after old_value new_value) new_value = false.
Proof.
  intros Hself. unfold retained_after.
  destruct (py_ne old_value new_value) eqn:Hne; done.
Qed.

Lemma retained_after_unchanged (old_value new_value : value) :
  py_ne old_value new_value = false →
  retained_after old_value new_value = old_value.
Proof. intros Hne. unfold retained_after. by rewrite Hne. Qed.

End CycleFacts.

(** X1.  Of two cycles in a row on an object whose retained keys all name
    signals of [_Status], the second compares each retained field with the
    value the first cycle left retained: the value of the first poll if
    [!=] told it from the value retained before, and that older value
    otherwise.  The second cycle publishes the field's change event,
    carrying the second polled value as the signal's declared type
    delivers it, if and only if [!=] tells the second polled value from
    that retained value. *)
Theorem second_cycle_compares_with_first_poll {value : Type} `{!Status.Runtime value}
    (w : Status.world value) (s1 s2 : Status.snapshot value) :
  keys_have_signals w →
  let w1 := (Status.Status_periodic (Some s1) w).1 in
  let w2 := (Status.Status_periodic (Some s2) w1).1 in
  ∃ evs,
    Status.emitted w2 = Status.emitted w1 ++ evs ∧
    ∀ key old_value,
      Status.old w !! key = Some old_value →
      let kept := if Status.py_ne old_value (Status.attr s1 key)
                  then Status.attr s1 key else old_value in
      Status.old w1 !! key = Some kept ∧
      ∀ v, Status.StatusSignal key v ∈ evs ↔
           v = Status.signal_arg key (Status.attr s2 key) ∧
           Status.py_ne kept (Status.attr s2 key) = true.
Proof.
  intros Hkeys w1 w2.
  pose proof (cycle_keeps_signals s1 w Hkeys) as Hkeys1. fold w1 in Hkeys1.
  destruct (cycle_field_events s2 w1 Hkeys1) as (evs & Hem & Hfields & _).
  fold w2 in Hem.
  exists evs. split; [exact Hem|].
  intros key old_value Hlook kept.
  assert (Status.old w1 !! key = Some kept) as Hkept.
  { unfold w1. by rewrite (cycle_keeps_keys s1 w key Hkeys), Hlook. }
  split; [exact Hkept|]. by apply Hfields.
Qed.

Lemma second_cycle_compares_with_first_poll_witness :
  ∃ evs,
    Status.emitted
      (Status.Status_periodic
         (Some (sample_stat 1 9 [sample_joint 0; sample_joint 0]))
         (Status.Status_periodic
            (Some (sample_stat 1 8 [sample_joint 0; sample_joint 0]))
            (sample_world [])).1).1
    = Status.emitted
        (Status.Status_periodic
           (Some (sample_stat 1 8 [sample_joint 0; sample_joint 0]))
           (sample_world [])).1 ++ evs ∧
    (Status.StatusSignal "position" 9 ∈ evs) ∧
    (Status.StatusSignal "file" 1 ∉ evs).
Proof.
  destruct (second_cycle_compares_with_first_poll (sample_world [])
              (sample_stat 1 8 [sample_joint 0; sample_joint 0])
              (sample_stat 1 9 [sample_joint 0; sample_joint 0]))
    as (evs & Hem & Hiff).
  { unfold keys_have_signals. compute_done. }
  exists evs. split; [exact Hem|]. split.
  - apply (Hiff "position" 7); [reflexivity|]. split; reflexivity.
  - intros Hin. apply (Hiff "file" 1) in Hin; [|reflexivity].
    destruct Hin as [_ Hne]. discriminate.
Defined.

(** X2.  On an object whose retained keys all name signals of [_Status],
    a cycle that polls the snapshot the previous cycle polled is silent,
    provided [!=] tells no polled value from itself, field or joint
    attribute (none is a NaN): it publishes no field change, no slot
    emits and no joint change is published, so its only events are those
    of the error channel, and the retained values stay as the previous
    cycle left them. *)
Theorem repeated_poll_is_silent {value : Type} `{!Status.Runtime value}
    (w : Status.world value) (s : Status.snapshot value) :
  keys_have_signals w →
  (∀ key, is_Some (Status.old w !! key) →
          Status.py_ne (Status.attr s key) (Status.attr s key) = false) →
  self_equal_joints (Status.joint s) →
  let w1 := (Status.Status_periodic (Some s) w).1 in
  let w2 := (Status.Status_periodic (Some s) w1).1 in
  ∃ evs,
    Status.emitted w2 = Status.emitted w1 ++ evs ∧
    Forall is_channel_event evs ∧
    Status.old w2 = Status.old w1 ∧
    Status.joint_old w2 = Status.joint_old w1.
Proof.
  intros Hkeys Hself Hjself w1 w2.
  pose proof (cycle_keeps_signals s w Hkeys) as Hkeys1. fold w1 in Hkeys1.
  destruct (cycle_shape s w Hkeys) as (_ & _ & _ & _ & Hjoint1 & _).
  fold w1 in Hjoint1.
  destruct (cycle_shape s w1 Hkeys1) as (_ & _ & _ & _ & Hjoint2 & _).
  fold w2 in Hjoint2.
  destruct (cycle_field_events s w1 Hkeys1) as (evs & Hem & _ & Hinv).
  fold w2 in Hem.
  assert (Hsettled : ∀ key kept,
            Status.old w1 !! key = Some kept →
            Status.py_ne kept (Status.attr s key) = false).
  { intros key kept Hkept. unfold w1 in Hkept.
    rewrite (cycle_keeps_keys s w key Hkeys) in Hkept.
    destruct (Status.old w !! key) as [v0|] eqn:Hold; [|done].
    cbn in Hkept. injection Hkept as <-.
    apply retained_after_settled, Hself. by eexists. }
  exists evs. split; [exact Hem|]. split; [|split].
  - apply Forall_forall. intros e He.
    destruct (Hinv e He) as [(item & Hin & Hne & _)|[Hchan|[jnum Hjoint]]].
    + destruct item as [k kept]. apply elem_of_map_to_list in Hin.
      cbn in Hne. by rewrite (Hsettled k kept Hin) in Hne.
    + exact Hchan.
    + rewrite Hjoint1, joint_changes_same in Hjoint by done.
      by apply elem_of_nil in Hjoint.
  - apply map_eq. intros key. unfold w2.
    rewrite (cycle_keeps_keys s w1 key Hkeys1).
    destruct (Status.old w1 !! key) as [kept|] eqn:Hkept; [|done].
    cbn. f_equal. apply retained_after_unchanged. by apply Hsettled.
  - by rewrite Hjoint2, Hjoint1.
Qed.

Lemma repeated_poll_is_silent_witness :
  ∃ evs,
    Status.emitted
      (Status.Status_periodic
         (Some (sample_stat 4 8 [sample_joint 1; sample_joint 0]))
         (Status.Status_periodic
            (Some (sample_stat 4 8 [sample_joint 1; sample_joint 0]))
            (sample_world [])).1).1
    = Status.emitted
        (Status.Status_periodic
           (Some (sample_stat 4 8 [sample_joint 1; sample_joint 0]))
           (sample_world [])).1 ++ evs ∧
    Forall is_channel_event evs.
Proof.
  destruct (repeated_poll_is_silent (sample_world [])
              (sample_stat 4 8 [sample_joint 1; sample_joint 0]))
    as (evs & Hem & Hchan & _).
  { unfold keys_have_signals. compute_done. }
  { intros key _. cbn. by rewrite Z.eqb_refl. }
  { unfold self_equal_joints. repeat constructor; compute_done. }
  exists evs. split; [exact Hem|exact Hchan].
Defined.

(** X3.  On an object whose retained keys all name signals of [_Status],
    [forceUpdate] after a cycle returns normally and republishes what the
    cycle left retained: on the signal of every retained field it emits,
    as the signal's declared type delivers it, the value polled by the
    cycle if [!=] told it from the value retained before, and that older
    value otherwise, and nothing else on that signal.  Every event of the
    call is such an emission or one made by a slot connected to the
    signal emitted. *)
Theorem forceUpdate_after_cycle_publishes_poll {value : Type}
    `{!Status.Runtime value}
    (w : Status.world value) (s : Status.snapshot value) :
  keys_have_signals w →
  let w1 := (Status.Status_periodic (Some s) w).1 in
  (Status.forceUpdate w1).2 = Py.Ok tt ∧
  ∃ evs,
    Status.emitted (Status.forceUpdate w1).1 = Status.emitted w1 ++ evs ∧
    (∀ key old_value,
       Status.old w !! key = Some old_value →
       ∀ v, Status.StatusSignal key v ∈ evs ↔
            v = Status.signal_arg key
                  (if Status.py_ne old_value (Status.attr s key)
                   then Status.attr s key else old_value)) ∧
    (∀ e, e ∈ evs →
       ∃ key kept,
         Status.old w1 !! key = Some kept ∧
         e ∈ emission (Status.connections w) s key kept).
Proof.
  intros Hkeys w1.
  pose proof (cycle_keeps_signals s w Hkeys) as Hkeys1. fold w1 in Hkeys1.
  destruct (cycle_shape s w Hkeys) as (_ & _ & _ & _ & _ & Hstat & Hconn).
  fold w1 in Hstat, Hconn.
  rewrite forceUpdate_trace.
  rewrite (emit_all_signals _ _ _ (keys_have_signals_items w1 Hkeys1)).
  cbn [fst snd]. split; [reflexivity|].
  eexists. split; [reflexivity|]. split.
  - intros key old_value Hlook v.
    apply (retained_emissions_status _ _ _ (λ _ x, x)).
    unfold w1. by rewrite (cycle_keeps_keys s w key Hkeys), Hlook.
  - intros e ([key kept] & He & Hin%elem_of_map_to_list)%list_elem_of_bind.
    exists key, kept. rewrite Hstat, Hconn in He. done.
Qed.

Lemma forceUpdate_after_cycle_publishes_poll_witness :
  (Status.forceUpdate
     (Status.Status_periodic
        (Some (sample_stat 4 8 [sample_joint 0; sample_joint 0]))
        (sample_world [])).1).2 = Py.Ok tt.
Proof.
  apply (forceUpdate_after_cycle_publishes_poll (sample_world [])
           (sample_stat 4 8 [sample_joint 0; sample_joint 0])).
  unfold keys_have_signals. compute_done.
Defined.

(** ** A retained key without a signal *)

Section MissingSignalFacts.
Import Status.
Context {value : Type} `{!Runtime value}.
Implicit Types w : world value.
Implicit Types s : snapshot value.

Lemma diff_field_unchanged (item : string * value) w :
  py_ne item.2 (attr (stat w) item.1) = false →
  diff_field item w = (w, Py.Ok tt).
Proof.
  intros Heq. unfold diff_field. erewrite bind_ok; [|reflexivity]. cbn beta.
  by rewrite Heq.
Qed.

Lemma diff_field_no_signal (item : string * value) w :
  py_ne item.2 (attr (stat w) item.1) = true →
  item.1 ∉ Status_signals ++ QObject_signals →
  diff_field item w
  = (set_old (<[item.1 := attr (stat w) item.1]> (old w)) w,
     Py.Raise (Py.AttributeError item.1)).
Proof.
  intros Hne Hsig. unfold diff_field. erewrite bind_ok; [|reflexivity]. cbn beta.
  rewrite Hne. erewrite bind_ok; [|reflexivity].
  by rewrite Status_emit_no_signal.
Qed.

(** The field loop stops at the first changed key that names no signal;
    the retained value of that key has been overwritten by then. *)
Lemma for_each_diff_field_raises (items : list (string * value)) w :
  Exists (changed_without_signal (stat w)) items →
  ∃ item w',
    item ∈ items ∧ changed_without_signal (stat w) item ∧
    for_each items diff_field w = (w', Py.Raise (Py.AttributeError item.1)) ∧
    old w' !! item.1 = Some (attr (stat w) item.1) ∧
    (∀ v, StatusSignal item.1 v ∈ emitted w' →
          (StatusSignal item.1 v ∈ emitted w) ∨
          (∃ item', item' ∈ items ∧ item'.1 = item.1 ∧
                    item'.1 ∈ (Status_signals ++ QObject_signals))) ∧
    joint_old w' = joint_old w ∧ error_queue w' = error_queue w ∧
    timer_active w' = timer_active w.
Proof.
  revert w. induction items as [|item items IH]; intros w Hbad.
  { by apply Exists_nil in Hbad. }
  cbn [for_each].
  destruct (py_ne item.2 (attr (stat w) item.1)) eqn:Hne.
  - destruct (decide (item.1 ∈ (Status_signals ++ QObject_signals))) as [Hsig|Hsig].
    + apply Exists_cons in Hbad as [[_ Hno]|Hbad]; [done|].
      set (w1 := add_events
                   (emission (connections w) (stat w) item.1 (attr (stat w) item.1))
                   (set_old (<[item.1 := attr (stat w) item.1]> (old w)) w)).
      destruct (IH w1 Hbad)
        as (item' & w' & Hin & Hbad' & Hrun & Hold & Hev & Hj & Hq & Ht).
      exists item', w'. split; [by apply list_elem_of_further|].
      split; [exact Hbad'|]. split; [|split; [exact Hold|split; [|done]]].
      * erewrite bind_ok; [exact Hrun|].
        by rewrite (diff_field_signal item w Hsig), Hne.
      * intros v Hv. destruct (Hev v Hv) as [Hw1|(it & Hit & Hk & Hs)].
        -- subst w1. cbn in Hw1. apply elem_of_app in Hw1 as [Hw|Hnew]; [by left|].
           apply emission_status in Hnew as [Hk _].
           right. exists item. split; [apply list_elem_of_here|]. done.
        -- right. exists it. split; [by apply list_elem_of_further|done].
    + exists item, (set_old (<[item.1 := attr (stat w) item.1]> (old w)) w).
      split; [apply list_elem_of_here|]. split; [done|].
      split; [|split; [apply lookup_insert_eq|split; [by left|done]]].
      erewrite bind_raise; [reflexivity|].
      by apply diff_field_no_signal.
  - apply Exists_cons in Hbad as [[Hchg _]|Hbad]; [congruence|].
    destruct (IH w Hbad)
      as (item' & w' & Hin & Hbad' & Hrun & Hold & Hev & Hj & Hq & Ht).
    exists item', w'. split; [by apply list_elem_of_further|].
    split; [exact Hbad'|]. split; [|split; [exact Hold|split; [|done]]].
    + erewrite bind_ok; [exact Hrun|]. by apply diff_field_unchanged.
    + intros v Hv. destruct (Hev v Hv) as [Hw|(it & Hit & Hk & Hs)]; [by left|].
      right. exists it. split; [by apply list_elem_of_further|done].
Qed.

End MissingSignalFacts.

(** X4.  When a retained key whose value changed names no signal of
    [_Status], the cycle raises [AttributeError] for such a key.  By then
    the retained value of that key has been overwritten with the polled
    one and nothing was published for it, so the change is never
    announced; the joint diff and the error channel are not reached, and
    the timer keeps running. *)
Theorem changed_key_without_signal_raises {value : Type} `{!Status.Runtime value}
    (w : Status.world value) (s : Status.snapshot value)
    (key : string) (old_value : value) :
  Status.old w !! key = Some old_value →
  Status.py_ne old_value (Status.attr s key) = true →
  key ∉ (Status.Status_signals ++ Status.QObject_signals) →
  let w' := (Status.Status_periodic (Some s) w).1 in
  ∃ bad,
    (Status.Status_periodic (Some s) w).2 = Py.Raise (Py.AttributeError bad) ∧
    (bad ∉ (Status.Status_signals ++ Status.QObject_signals)) ∧
    (∃ v, Status.old w !! bad = Some v ∧
          Status.py_ne v (Status.attr s bad) = true) ∧
    Status.old w' !! bad = Some (Status.attr s bad) ∧
    (∀ v, Status.StatusSignal bad v ∈ Status.emitted w' →
          Status.StatusSignal bad v ∈ Status.emitted w) ∧
    Status.joint_old w' = Status.joint_old w ∧
    Status.error_queue w' = Status.error_queue w ∧
    Status.timer_active w' = Status.timer_active w.
Proof.
  intros Hlook Hne Hsig w'.
  assert (Hbad : Exists (changed_without_signal s) (map_to_list (Status.old w))).
  { apply Exists_exists. exists (key, old_value).
    split; [by apply elem_of_map_to_list|done]. }
  destruct (for_each_diff_field_raises (map_to_list (Status.old w))
              (Status.set_stat s w) Hbad)
    as (item & w1 & Hin & [Hchg Hnosig] & Hrun & Hold & Hev & Hj & Hq & Ht).
  assert (Hcycle : Status.Status_periodic (Some s) w
                   = (w1, Py.Raise (Py.AttributeError item.1))).
  { unfold Status.Status_periodic.
    erewrite bind_ok; [|reflexivity].
    erewrite bind_ok; [|reflexivity].
    erewrite bind_raise; [reflexivity|exact Hrun]. }
  subst w'. rewrite Hcycle. cbn [fst snd].
  exists item.1. split; [done|]. split; [done|].
  destruct item as [k v0]. apply elem_of_map_to_list in Hin.
  split; [by exists v0|]. split; [exact Hold|].
  split; [|done].
  intros v Hv. destruct (Hev v Hv) as [Hw|(it & _ & Hk & Hs)]; [done|].
  cbn in Hk. rewrite Hk in Hs. done.
Qed.

Lemma changed_key_without_signal_raises_witness :
  ∃ bad,
    (Status.Status_periodic
       (Some (Status.Snapshot (λ _, 3) [] 0))
       (Status.Status_init ["units"] (sample_stat 1 7 []) [])).2
    = Py.Raise (Py.AttributeError bad) ∧
    bad ∉ (Status.Status_signals ++ Status.QObject_signals).
Proof.
  destruct (changed_key_without_signal_raises
              (Status.Status_init ["units"] (sample_stat 1 7 []) [])
              (Status.Snapshot (λ _, 3) [] 0) "units" 0)
    as (bad & Hraise & Hbad & _).
  - reflexivity.
  - reflexivity.
  - compute_done.
  - exists bad. split; [exact Hraise|exact Hbad].
Defined.

(** ** The error channel over several cycles *)

Section ErrorQueueFacts.
Import Status.
Context {value : Type} `{EqDecision value}.
Implicit Types w : world value.

(** One run on a channel that holds an entry. *)
Lemma Error_periodic_head w entry q :
  error_queue w = entry :: q →
  (Error_periodic w).2 = Py.Ok tt ∧
  error_queue (Error_periodic w).1 = q ∧
  emitted (Error_periodic w).1 = emitted w ++ published entry ∧
  old (Error_periodic w).1 = old w ∧
  joint_old (Error_periodic w).1 = joint_old w ∧
  timer_active (Error_periodic w).1 = timer_active w.
Proof.
  destruct entry as [kind msg]. intros Hq. unfold published, entry_text. cbn [fst snd].
  destruct (decide (kind ∈ [NML_ERROR; OPERATOR_ERROR])) as [He|He].
  - assert (kind = NML_ERROR ∨ kind = OPERATOR_ERROR) as Hk.
    { rewrite !elem_of_cons in He. destruct He as [?|[?|He]]; auto.
      by apply elem_of_nil in He. }
    rewrite (Error_periodic_error_class w kind msg q Hq Hk).
    rewrite (bool_decide_eq_true_2 _ He). cbn. done.
  - rewrite (bool_decide_eq_false_2 _ He).
    destruct (decide (kind ∈ [NML_TEXT; OPERATOR_TEXT;
                              NML_DISPLAY; OPERATOR_DISPLAY])) as [Ht|Ht].
    + rewrite (Error_periodic_text_class w kind msg q Hq Ht).
      rewrite (bool_decide_eq_true_2 _ Ht). cbn. done.
    + rewrite (Error_periodic_other_class w kind msg q Hq He Ht).
      rewrite (bool_decide_eq_false_2 _ Ht). cbn.
      by rewrite app_nil_r.
Qed.

Lemma run_error_cycles_S n w :
  run_error_cycles (S n) w = run_error_cycles n (Error_periodic w).1.
Proof.
  unfold run_error_cycles. by rewrite Nat.iter_succ_r.
Qed.

End ErrorQueueFacts.

(** X5.  The error channel is drained one entry per run, oldest first,
    [error_channel.poll()] being taken to hand over the oldest pending
    entry: [n] runs of [_Error._periodic] take the first [n] pending
    entries off the channel, publish their events in that order, and leave
    the later entries pending in their order; the runs return normally and
    touch neither the retained field values nor the retained joint
    records nor the timer, and a run on an empty channel changes nothing
    at all. *)
Theorem error_channel_drained_in_order {value : Type} `{EqDecision value}
    (n : nat) (w : Status.world value) :
  let w' := run_error_cycles n w in
  Status.error_queue w' = drop n (Status.error_queue w) ∧
  Status.emitted w'
  = Status.emitted w ++ mjoin (published <$> take n (Status.error_queue w)) ∧
  Status.old w' = Status.old w ∧
  Status.joint_old w' = Status.joint_old w ∧
  Status.timer_active w' = Status.timer_active w ∧
  (Status.Error_periodic w).2 = Py.Ok tt ∧
  (Status.error_queue w = [] → w' = w).
Proof.
  revert w. induction n as [|n IH]; intros w.
  { cbn. rewrite drop_0, take_0. cbn. rewrite app_nil_r.
    do 5 (split; [done|]). split; [|done].
    destruct (Status.error_queue w) as [|entry q] eqn:Hq.
    - by rewrite (Error_periodic_empty_queue w Hq).
    - by destruct (Error_periodic_head w entry q Hq) as (-> & _). }
  cbn zeta. rewrite run_error_cycles_S.
  destruct (Status.error_queue w) as [|entry q] eqn:Hq.
  - rewrite (Error_periodic_empty_queue w Hq). cbn [fst snd].
    destruct (IH w) as (IHq & IHe & IHo & IHj & IHt & _ & IHn). rewrite Hq in *.
    rewrite drop_nil in *. rewrite take_nil in *. cbn in *.
    rewrite (IHn eq_refl). rewrite Hq, app_nil_r. done.
  - destruct (Error_periodic_head w entry q Hq)
      as (Hok & Hq1 & Hem1 & Ho1 & Hj1 & Ht1).
    destruct (IH (Status.Error_periodic w).1) as (IHq & IHe & IHo & IHj & IHt & _).
    rewrite Hq1 in *. rewrite Hem1 in IHe.
    split; [exact IHq|]. split; [|split; [|split; [|split; [|split]]]].
    + rewrite IHe. cbn. by rewrite app_assoc.
    + by rewrite IHo.
    + by rewrite IHj.
    + by rewrite IHt.
    + exact Hok.
    + done.
Qed.

Lemma error_channel_drained_in_order_witness :
  run_error_cycles 3 (sample_world []) = sample_world [] ∧
  Status.emitted
    (run_error_cycles 2
       (sample_world [(Status.OPERATOR_TEXT, Some "probe ready");
                      (99, Some "odd"); (Status.NML_ERROR, None)]))
  = [Status.NewMessage "probe ready"].
Proof.
  split.
  - apply (error_channel_drained_in_order 3 (sample_world [])). reflexivity.
  - destruct (error_channel_drained_in_order 2
                (sample_world [(Status.OPERATOR_TEXT, Some "probe ready");
                               (99, Some "odd"); (Status.NML_ERROR, None)]))
      as (_ & Hem & _).
    rewrite Hem. vm_compute. reflexivity.
Defined.

(** ** The timer over several ticks *)

Section TickFacts.
Import Status.
Context {value : Type} `{!Runtime value}.
Implicit Types w : world value.

Lemma run_timeouts_app (polls1 polls2 : list (option (snapshot value))) w :
  run_timeouts (polls1 ++ polls2) w = run_timeouts polls2 (run_timeouts polls1 w).
Proof. unfold run_timeouts. apply foldl_app. Qed.

Lemma failing_tick_stops_timer w :
  timer_active (timeout None w).1 = false.
Proof.
  destruct (timer_active w) eqn:Hactive.
  - by rewrite (timeout_running w None Hactive).
  - by rewrite (timeout_stopped w None Hactive).
Qed.

End TickFacts.

(** X6.  In any run of timer ticks the first tick whose poll raises is the
    last one that does anything: the ticks after it leave the object as
    that tick left it, with the timer stopped, whatever their polls would
    have returned. *)
Theorem ticks_after_failed_poll_do_nothing {value : Type} `{!Status.Runtime value}
    (w : Status.world value)
    (before after : list (option (Status.snapshot value))) :
  Status.run_timeouts (before ++ None :: after) w
  = Status.run_timeouts (before ++ [None]) w ∧
  Status.timer_active (Status.run_timeouts (before ++ None :: after) w) = false.
Proof.
  assert (Hstop : Status.timer_active (Status.run_timeouts (before ++ [None]) w)
                  = false).
  { rewrite run_timeouts_app. cbn. apply failing_tick_stops_timer. }
  assert (Heq : Status.run_timeouts (before ++ None :: after) w
                = Status.run_timeouts (before ++ [None]) w).
  { rewrite (cons_middle None before after), app_assoc, run_timeouts_app.
    by apply run_timeouts_stopped. }
  split; [exact Heq|]. by rewrite Heq.
Qed.

(** ** The connection table under arbitrary calls *)

Section WiringFacts.
Import Status.
Context {value : Type} `{!Runtime value}.
Implicit Types w : world value.

Lemma same_wiring_refl w : same_wiring w w.
Proof. by split. Qed.

Lemma same_wiring_trans w1 w2 w3 :
  same_wiring w1 w2 → same_wiring w2 w3 → same_wiring w1 w3.
Proof. intros [H1 H2] [H3 H4]. split; congruence. Qed.

Lemma bind_same_wiring {A B} (m : M value A) (k : A → M value B) :
  (∀ w, same_wiring w (m w).1) →
  (∀ a w, same_wiring w (k a w).1) →
  ∀ w, same_wiring w ((m ≫= k) w).1.
Proof.
  intros Hm Hk w. unfold mbind, M_bind.
  specialize (Hm w). destruct (m w) as [w1 [a|e]]; [|exact Hm].
  eapply same_wiring_trans; [exact Hm|apply Hk].
Qed.

Lemma for_each_same_wiring {A} (l : list A) (body : A → M value unit) :
  (∀ x w, same_wiring w (body x w).1) →
  ∀ w, same_wiring w (for_each l body w).1.
Proof.
  intros Hbody. induction l as [|x l IH]; intros w; [apply same_wiring_refl|].
  cbn [for_each]. apply bind_same_wiring; [apply Hbody|]. intros _. apply IH.
Qed.

(** The slots emit; they connect or disconnect nothing. *)
Lemma Status_emit_same_wiring name (v : value) w :
  same_wiring w (Status_emit name v w).1.
Proof.
  destruct (decide (name ∈ Status_signals ++ QObject_signals)) as [Hsig|Hsig].
  - by rewrite (Status_emit_signal name v w Hsig).
  - by rewrite (Status_emit_no_signal name v w Hsig).
Qed.

Lemma Joint_emit_same_wiring name jnum (v : value) w :
  same_wiring w (Joint_emit name jnum v w).1.
Proof. unfold Joint_emit. by case_bool_decide. Qed.

Lemma diff_field_same_wiring (item : string * value) w :
  same_wiring w (diff_field item w).1.
Proof.
  unfold diff_field. apply bind_same_wiring; [done|]. intros new_value w1.
  destruct (py_ne item.2 new_value); [|done].
  apply bind_same_wiring; [done|]. intros _. apply Status_emit_same_wiring.
Qed.

Lemma diff_joint_same_wiring (new old_ : list (gmap string value)) jnum w :
  same_wiring w (diff_joint new old_ jnum w).1.
Proof.
  unfold diff_joint. apply bind_same_wiring; [done|]. intros new_j w1.
  apply bind_same_wiring; [done|]. intros old_j w2.
  destruct (dict_ne new_j old_j); [|done].
  apply for_each_same_wiring. intros item w3. apply Joint_emit_same_wiring.
Qed.

Lemma Joint_periodic_same_wiring w : same_wiring w (Joint_periodic w).1.
Proof.
  rewrite Joint_periodic_unfold.
  eapply same_wiring_trans; [|apply for_each_same_wiring].
  - done.
  - intros jnum w1. apply diff_joint_same_wiring.
Qed.

Lemma Error_periodic_same_wiring w : same_wiring w (Error_periodic w).1.
Proof. destruct (Error_periodic_keeps w) as (_ & _ & _ & _ & Hc & Hr). by split. Qed.

Lemma Status_periodic_same_wiring poll w :
  same_wiring w (Status_periodic poll w).1.
Proof.
  destruct poll as [s|]; [|done]. unfold Status_periodic.
  apply bind_same_wiring; [done|]. intros _ w1.
  apply bind_same_wiring; [done|]. intros items w2.
  apply bind_same_wiring.
  { apply for_each_same_wiring. intros item w3. apply diff_field_same_wiring. }
  intros _ w3. apply bind_same_wiring; [apply Joint_periodic_same_wiring|].
  intros _ w4. apply Error_periodic_same_wiring.
Qed.

Lemma forceUpdate_same_wiring w : same_wiring w (forceUpdate w).1.
Proof.
  unfold forceUpdate. apply bind_same_wiring; [done|]. intros items w1.
  apply for_each_same_wiring. intros item w2. apply Status_emit_same_wiring.
Qed.

Lemma timeout_same_wiring poll w : same_wiring w (timeout poll w).1.
Proof.
  unfold timeout. apply bind_same_wiring; [done|]. intros [] w1; [|done].
  apply Status_periodic_same_wiring.
Qed.

Lemma mode_consistent_same_wiring w w' :
  same_wiring w w' → mode_consistent w → mode_consistent w'.
Proof.
  intros [Hc Hr]. unfold mode_consistent. rewrite Hc, Hr. cbn. tauto.
Qed.

Lemma run_call_consistent (c : call value) w :
  mode_consistent w → mode_consistent (run_call c w).1.
Proof.
  intros Hw. destruct c as [poll|poll| | |report_actual]; cbn [run_call].
  - eapply mode_consistent_same_wiring; [apply timeout_same_wiring|done].
  - eapply mode_consistent_same_wiring; [apply Status_periodic_same_wiring|done].
  - eapply mode_consistent_same_wiring; [apply forceUpdate_same_wiring|done].
  - eapply mode_consistent_same_wiring; [|done]. done.
  - by apply setReportActualPosition_consistent.
Qed.

Lemma run_calls_consistent (calls : list (call value)) w :
  mode_consistent w → mode_consistent (run_calls calls w).
Proof.
  unfold run_calls. revert w.
  induction calls as [|c calls IH]; intros w Hw; [done|].
  cbn [foldl]. by apply IH, run_call_consistent.
Qed.

Lemma mode_consistent_table w :
  mode_consistent w →
  NoDup (connections w) ∧ length (connections w) = 8%nat ∧
  connections w ≡ₚ fixed_connections ++ mode_connections (report_actual_position w).
Proof.
  intros [[-> ->] | [[-> ->] | [-> ->]]]; cbn [mode_connections].
  - split; [compute_done|]. split; [done|].
    cbn. compute_done.
  - split; [compute_done|]. done.
  - split; [compute_done|]. done.
Qed.

End WiringFacts.

(** X7.  Whatever timer ticks, cycles, forced updates, timer restarts and
    mode switches a constructed object goes through, in any order and
    whether or not they raise, its connection table keeps eight entries
    without a repetition: the six connections that do not depend on the
    mode, and the two position connections of the current reporting mode.
    Only [setReportActualPosition] changes the table or the mode. *)
Theorem connection_table_under_any_calls {value : Type} `{!Status.Runtime value}
    (dir_stat : list string) (s : Status.snapshot value)
    (q : list Status.error_entry) (calls : list (call value)) :
  let w := run_calls calls (Status.Status_init dir_stat s q) in
  NoDup (Status.connections w) ∧
  length (Status.connections w) = 8%nat ∧
  Status.connections w
    ≡ₚ fixed_connections ++ mode_connections (Status.report_actual_position w) ∧
  (∀ (c : call value) (w0 : Status.world value),
     (∀ report_actual, c ≠ CallSetReportActualPosition report_actual) →
     same_wiring w0 (run_call c w0).1).
Proof.
  intros w.
  assert (Hw : mode_consistent w).
  { apply run_calls_consistent, Status_init_mode_consistent. }
  destruct (mode_consistent_table w Hw) as (Hnodup & Hlen & Hperm).
  split; [done|]. split; [done|]. split; [done|].
  intros c w0 Hc. destruct c as [poll|poll| | |report_actual]; cbn [run_call].
  - apply timeout_same_wiring.
  - apply Status_periodic_same_wiring.
  - apply forceUpdate_same_wiring.
  - done.
  - by destruct (Hc report_actual).
Qed.

Lemma connection_table_under_any_calls_witness :
  same_wiring (sample_world [])
    (run_call (CallPeriodic (Some (sample_stat 2 8 [sample_joint 1])))
              (sample_world [])).1.
Proof.
  destruct (connection_table_under_any_calls sample_dir
              (sample_stat 1 7 [sample_joint 0; sample_joint 0]) [] [])
    as (_ & _ & _ & Hframe).
  apply Hframe. intros report_actual. discriminate.
Defined.

(** ** Position updates: bounds *)

Section PositionBoundsFacts.
Import Status.

Lemma subtract_offsets_out_of_range (axes : list nat) (pos g5x tool rel : list float) :
  Exists (λ axis, ¬ ((axis < length rel)%nat ∧ (axis < length pos)%nat ∧
                     (axis < length g5x)%nat ∧ (axis < length tool)%nat)) axes →
  subtract_offsets axes pos g5x tool rel = Py.Raise Py.IndexError.
Proof.
  revert rel. induction axes as [|a axes IH]; intros rel Hbad.
  { by apply Exists_nil in Hbad. }
  cbn [subtract_offsets]. unfold Py.getitem_nat, Py.setitem_nat.
  destruct (pos !! a) as [p|] eqn:Hp; [|done].
  destruct (g5x !! a) as [g|] eqn:Hg; [|done].
  destruct (tool !! a) as [t|] eqn:Ht; [|done].
  cbn. destruct (decide (a < length rel)%nat) as [Hrel|Hrel]; [|done].
  cbn. apply IH.
  apply Exists_cons in Hbad as [Hbad|Hbad].
  - exfalso. apply Hbad. repeat split; [done|..]; by eapply lookup_lt_Some.
  - eapply Exists_impl; [exact Hbad|]. intros axis. by rewrite length_insert.
Qed.

Lemma subtract_g92_out_of_range (axes : list nat) (g92 rel : list float) :
  Exists (λ axis, ¬ ((axis < length rel)%nat ∧ (axis < length g92)%nat)) axes →
  subtract_g92 axes g92 rel = Py.Raise Py.IndexError.
Proof.
  revert rel. induction axes as [|a axes IH]; intros rel Hbad.
  { by apply Exists_nil in Hbad. }
  cbn [subtract_g92]. unfold Py.getitem_nat, Py.setitem_nat.
  destruct (rel !! a) as [r|] eqn:Hr; [|done].
  destruct (g92 !! a) as [g|] eqn:Hg; [|done].
  cbn. rewrite decide_True by (by eapply lookup_lt_Some).
  cbn. apply IH.
  apply Exists_cons in Hbad as [Hbad|Hbad].
  - exfalso. apply Hbad. split; by eapply lookup_lt_Some.
  - eapply Exists_impl; [exact Hbad|]. intros axis. by rewrite length_insert.
Qed.

End PositionBoundsFacts.

(** X8.  With [rotation_xy] equal to zero, the tuples long enough and no
    axis configured twice, a position update returns normally and emits
    the selected position unchanged, the distance to go unchanged, and a
    relative vector of nine entries that holds position minus g5x offset
    minus tool offset minus g92 offset on every configured axis and zero
    on every other axis. *)
Theorem unrotated_update_subtracts_offsets (AXIS_NUMBER_LIST : list nat)
    (report_actual : bool) (st : Status.position_stat)
    (pos : option (list float)) :
  PrimFloat.eqb (Status.rotation_xy st) 0%float = true →
  axes_in_range AXIS_NUMBER_LIST (selected_position report_actual st pos) st →
  ∃ rel,
    Status.updateAxisPositions AXIS_NUMBER_LIST report_actual st pos
    = Py.Ok (selected_position report_actual st pos, rel, Status.dtg st) ∧
    length rel = 9%nat ∧
    (∀ axis, axis ∈ AXIS_NUMBER_LIST →
       rel !! axis
       = unrotated_relative (selected_position report_actual st pos) st axis ∧
       is_Some (rel !! axis)) ∧
    (∀ axis, (axis < 9)%nat → axis ∉ AXIS_NUMBER_LIST →
       rel !! axis = Some 0%float).
Proof.
  intros Hrot Hrange.
  destruct (updateAxisPositions_unrotated_spec AXIS_NUMBER_LIST report_actual
              st pos Hrot Hrange) as (rel & Hrun & Hlen & Hlook).
  exists rel. split; [exact Hrun|]. split; [exact Hlen|]. split.
  - intros axis Hin.
    destruct Hrange as [_ Hall]. rewrite Forall_forall in Hall.
    destruct (Hall axis Hin) as (H9 & _).
    specialize (Hlook axis H9). rewrite (bool_decide_eq_true_2 _ Hin) in Hlook.
    split; [exact Hlook|]. apply lookup_lt_is_Some. lia.
  - intros axis H9 Hnotin. specialize (Hlook axis H9).
    by rewrite (bool_decide_eq_false_2 _ Hnotin) in Hlook.
Qed.

Lemma unrotated_update_subtracts_offsets_witness :
  ∃ rel,
    Status.updateAxisPositions [0%nat; 1%nat; 2%nat] false
      (Status.PositionStat
         (5%float :: replicate 8 0%float) [] [] [] (replicate 9 0%float)
         (replicate 9 1%float) (replicate 9 0.5%float) (replicate 9 2%float)
         0%float) None
    = Py.Ok (5%float :: replicate 8 0%float, rel, replicate 9 0%float) ∧
    rel !! 0%nat = Some 1.5%float ∧ rel !! 3%nat = Some 0%float.
Proof.
  destruct (unrotated_update_subtracts_offsets [0%nat; 1%nat; 2%nat] false
              (Status.PositionStat
                 (5%float :: replicate 8 0%float) [] [] [] (replicate 9 0%float)
                 (replicate 9 1%float) (replicate 9 0.5%float) (replicate 9 2%float)
                 0%float) None)
    as (rel & Hrun & _ & Hin & Hout).
  - reflexivity.
  - unfold axes_in_range. split; [compute_done|].
    repeat constructor; cbn; lia.
  - exists rel. split; [exact Hrun|]. split.
    + destruct (Hin 0%nat) as [-> _]; [compute_done|]. vm_compute. reflexivity.
    + apply Hout; [lia|compute_done].
Defined.

(** X9.  A position update raises [IndexError], whatever the rotation, as
    soon as one configured axis number lies beyond the nine slots of the
    relative vector or beyond the position, g5x-offset or tool-offset
    tuple; with [rotation_xy] equal to zero it raises [IndexError] as well
    when an axis number lies beyond the g92-offset tuple. *)
Theorem position_update_index_error (AXIS_NUMBER_LIST : list nat)
    (report_actual : bool) (st : Status.position_stat)
    (pos : option (list float)) :
  (Exists (axis_out_of_range (selected_position report_actual st pos) st)
          AXIS_NUMBER_LIST →
   Status.updateAxisPositions AXIS_NUMBER_LIST report_actual st pos
   = Py.Raise Py.IndexError) ∧
  (PrimFloat.eqb (Status.rotation_xy st) 0%float = true →
   Exists (λ axis, (length (Status.g92_offset st) ≤ axis)%nat) AXIS_NUMBER_LIST →
   Status.updateAxisPositions AXIS_NUMBER_LIST report_actual st pos
   = Py.Raise Py.IndexError).
Proof.
  split.
  - intros Hbad. unfold Status.updateAxisPositions.
    fold (selected_position report_actual st pos).
    rewrite subtract_offsets_out_of_range; [done|].
    eapply Exists_impl; [exact Hbad|]. intros axis. unfold axis_out_of_range.
    by rewrite length_replicate.
  - intros Hrot Hbad. unfold Status.updateAxisPositions.
    destruct (Status.subtract_offsets AXIS_NUMBER_LIST _ _ _ _)
      as [rel|e] eqn:Hrel.
    + cbn. rewrite Hrot. cbn.
      rewrite subtract_g92_out_of_range; [done|].
      eapply Exists_impl; [exact Hbad|]. intros axis Hlen [_ Hlt]. cbn beta in Hlen. lia.
    + cbn. destruct (decide (Exists
        (axis_out_of_range (selected_position report_actual st pos) st)
        AXIS_NUMBER_LIST)) as [Hex|Hall].
      * fold (selected_position report_actual st pos) in Hrel.
        rewrite subtract_offsets_out_of_range in Hrel; [congruence|].
        eapply Exists_impl; [exact Hex|]. intros axis. unfold axis_out_of_range.
        by rewrite length_replicate.
      * exfalso. apply not_Exists_Forall in Hall; [|intros; apply _].
        fold (selected_position report_actual st pos) in Hrel.
        destruct (subtract_offsets_spec AXIS_NUMBER_LIST
                    (selected_position report_actual st pos)
                    (Status.g5x_offset st) (Status.tool_offset st)
                    (replicate 9 0%float)) as (rel' & Hok & _).
        { eapply Forall_impl; [exact Hall|]. intros axis Hin. cbn in Hin.
          unfold axis_out_of_range in Hin. apply dec_stable in Hin.
          by rewrite length_replicate. }
        congruence.
Qed.

Lemma position_update_index_error_witness :
  Status.updateAxisPositions [0%nat; 9%nat] false
    (sample_position_stat 90%float) None
  = Py.Raise Py.IndexError.
Proof.
  apply (proj1 (position_update_index_error [0%nat; 9%nat] false
                  (sample_position_stat 90%float) None)).
  apply Exists_cons_tl, Exists_cons_hd.
  unfold axis_out_of_range. cbn. lia.
Defined.

(** ** Formatted codes: no two codes look alike *)

Section CodeTextFacts.
Import Status.

Lemma pretty_N_char_not_dot (x : N) : pretty_N_char x ≠ "."%char.
Proof. unfold pretty_N_char. by repeat case_match. Qed.

Lemma pretty_N_go_dot_free (x : N) (s : string) :
  dot_free s → dot_free (pretty_N_go x s).
Proof.
  revert s. induction (N.lt_wf_0 x) as [x _ IH]; intros s Hs.
  destruct (decide (x = 0)%N) as [->|Hpos]; [by rewrite pretty_N_go_0|].
  rewrite pretty_N_go_step by lia.
  apply IH; [apply N.div_lt; lia|].
  split; [apply pretty_N_char_not_dot|exact Hs].
Qed.

Lemma format_int_dot_free (n : Z) : dot_free (Py.format_int n).
Proof.
  unfold Py.format_int, pretty, pretty_Z.
  destruct n as [|p|p]; [by cbn|..].
  - unfold pretty, pretty_positive, pretty, pretty_N.
    case_decide; [by cbn|]. by apply pretty_N_go_dot_free.
  - cbn. split; [done|].
    unfold pretty, pretty_positive, pretty, pretty_N.
    case_decide; [by cbn|]. by apply pretty_N_go_dot_free.
Qed.

Lemma format_int_inj (m n : Z) : Py.format_int m = Py.format_int n → m = n.
Proof. unfold Py.format_int. apply (inj pretty). Qed.

Lemma append_nil_l (t : string) : ("" ++ t)%string = t.
Proof. reflexivity. Qed.

Lemma append_cons_l (c : ascii) (s t : string) :
  (String c s ++ t)%string = String c (s ++ t)%string.
Proof. reflexivity. Qed.

(** A string without a dot cannot be cut at a dot. *)
Lemma dot_free_not_cut (s s1 t1 : string) :
  dot_free s → s ≠ (s1 ++ String "." t1)%string.
Proof.
  revert s. induction s1 as [|c s1 IH]; intros s Hs Heq.
  - rewrite append_nil_l in Heq. subst s. by destruct Hs.
  - rewrite append_cons_l in Heq. subst s. destruct Hs as [_ Hs].
    by apply (IH _ Hs).
Qed.

(** Two texts cut at their first dot agree part by part. *)
Lemma dot_cut_inj (s1 s2 t1 t2 : string) :
  dot_free s1 → dot_free s2 →
  (s1 ++ String "." t1)%string = (s2 ++ String "." t2)%string →
  s1 = s2 ∧ t1 = t2.
Proof.
  revert s2. induction s1 as [|c s1 IH]; intros s2 H1 H2 Heq.
  - destruct s2 as [|c2 s2]; rewrite ?append_nil_l, ?append_cons_l in Heq.
    + split; [done|]. congruence.
    + destruct H2 as [H2 _]. congruence.
  - destruct s2 as [|c2 s2]; rewrite ?append_nil_l, ?append_cons_l in Heq.
    + destruct H1 as [H1 _]. congruence.
    + destruct H1 as [_ H1], H2 as [_ H2].
      assert (c = c2) as -> by congruence.
      destruct (IH s2 H1 H2) as [-> ->]; [congruence|done].
Qed.

Lemma format_gcode_whole (g : Z) :
  g `mod` 10 = 0 → format_gcode g = String "G" (Py.format_int (g `div` 10)).
Proof. intros Hg. unfold format_gcode. by rewrite bool_decide_eq_true_2. Qed.

Lemma format_gcode_tenths (g : Z) :
  g `mod` 10 ≠ 0 →
  format_gcode g
  = String "G" (Py.format_int (g `div` 10) ++ "." ++ Py.format_int (g `mod` 10))%string.
Proof. intros Hg. unfold format_gcode. by rewrite bool_decide_eq_false_2. Qed.

Lemma mcode_loop_filter_map (l : list Z) (acc : list string) :
  foldl (λ formated_mcodes mcode,
           if bool_decide (mcode = -1) then formated_mcodes
           else formated_mcodes ++ [("M" ++ Py.format_int mcode)%string])
        acc l
  = acc ++ map format_mcode (filter (λ m, m ≠ -1) l).
Proof.
  revert acc. induction l as [|m l IH]; intros acc; cbn [foldl].
  - by rewrite app_nil_r.
  - rewrite IH, filter_cons. case_bool_decide as Hm.
    + destruct (decide (m ≠ -1)); [done|reflexivity].
    + destruct (decide (m ≠ -1)); [|done].
      cbn [map]. by rewrite <- app_assoc.
Qed.

End CodeTextFacts.

(** X10.  The formatted M-codes are the renderings, code by code, of a list
    in ascending order that consists of the raw codes after the first slot
    with every -1 taken out; a code is rendered as ["M"] followed by its
    decimal digits, so different codes never look alike. *)
Theorem formated_mcodes_sorted_filtered (mcodes : list Z) :
  (∃ codes : list Z,
     Status.updateFormatedMcodes mcodes = map format_mcode codes ∧
     StronglySorted Z.le codes ∧
     codes ≡ₚ filter (λ m, m ≠ -1) (tail mcodes)) ∧
  (∀ m n, format_mcode m = format_mcode n → m = n) ∧
  length (Status.updateFormatedMcodes mcodes)
  = length (filter (λ m, m ≠ -1) (tail mcodes)).
Proof.
  assert (Hshape : Status.updateFormatedMcodes mcodes
                   = map format_mcode
                         (filter (λ m, m ≠ -1) (Py.sorted (tail mcodes)))).
  { unfold Status.updateFormatedMcodes. by rewrite mcode_loop_filter_map. }
  split; [|split].
  - exists (filter (λ m, m ≠ -1) (Py.sorted (tail mcodes))).
    split; [exact Hshape|]. split.
    + apply StronglySorted_filter, sorted_StronglySorted.
    + by rewrite sorted_Permutation.
  - intros m n Heq. unfold format_mcode in Heq. cbn in Heq.
    injection Heq as Heq. by apply format_int_inj.
  - rewrite Hshape, length_map. apply Permutation_length.
    by rewrite sorted_Permutation.
Qed.

Lemma formated_mcodes_sorted_filtered_witness :
  format_mcode 5 ≠ format_mcode 50 ∧
  Status.updateFormatedMcodes [0; 9; -1; 5; 48] = ["M5"; "M9"; "M48"].
Proof.
  split; [|reflexivity].
  destruct (formated_mcodes_sorted_filtered []) as (_ & Hinj & _).
  intros Heq. apply Hinj in Heq. discriminate.
Defined.

(** X11.  The rendering of G-codes is one to one: two different code
    values never give the same text, whether they are whole codes, codes
    with tenths, or one of each. *)
Theorem format_gcode_one_to_one (g1 g2 : Z) :
  Status.format_gcode g1 = Status.format_gcode g2 → g1 = g2.
Proof.
  intros Heq.
  rewrite (Z.div_mod g1 10), (Z.div_mod g2 10) by done.
  destruct (decide (g1 `mod` 10 = 0)) as [H1|H1];
    destruct (decide (g2 `mod` 10 = 0)) as [H2|H2].
  - rewrite (format_gcode_whole g1 H1), (format_gcode_whole g2 H2) in Heq.
    injection Heq as Heq. apply format_int_inj in Heq. lia.
  - exfalso.
    rewrite (format_gcode_whole g1 H1), (format_gcode_tenths g2 H2) in Heq.
    injection Heq as Heq.
    apply (dot_free_not_cut _ _ _ (format_int_dot_free _) Heq).
  - exfalso.
    rewrite (format_gcode_tenths g1 H1), (format_gcode_whole g2 H2) in Heq.
    injection Heq as Heq. symmetry in Heq.
    apply (dot_free_not_cut _ _ _ (format_int_dot_free _) Heq).
  - rewrite (format_gcode_tenths g1 H1), (format_gcode_tenths g2 H2) in Heq.
    injection Heq as Heq.
    apply dot_cut_inj in Heq as [Ha Hb]; [|apply format_int_dot_free..].
    apply format_int_inj in Ha, Hb. lia.
Qed.

Lemma format_gcode_one_to_one_witness :
  Status.format_gcode 10 ≠ Status.format_gcode 100.
Proof.
  intros Heq. apply format_gcode_one_to_one in Heq. discriminate.
Defined.

(** ** Axis letters and numbers: bounds and normal forms *)

Section AxisHelperFacts.
Import MachineActions.

Lemma list_index_Ok `{EqDecision A} (x : A) (l : list A) (i : Z) :
  Py.list_index x l = Py.Ok i →
  0 ≤ i < Z.of_nat (length l) ∧ l !! Z.to_nat i = Some x.
Proof.
  revert i. induction l as [|y l IH]; intros i Hidx; [done|].
  cbn [Py.list_index] in Hidx. destruct (decide (y = x)) as [->|Hne].
  - injection Hidx as <-. cbn. split; [lia|done].
  - destruct (Py.list_index x l) as [j|e]; [|done].
    injection Hidx as <-. destruct (IH j eq_refl) as [Hrange Hlook].
    cbn [length]. split; [lia|].
    replace (Z.to_nat (j + 1)) with (S (Z.to_nat j)) by lia. done.
Qed.

Lemma list_index_Raise `{EqDecision A} (x : A) (l : list A) (e : Py.exn) :
  Py.list_index x l = Py.Raise e → e = Py.ValueError ∧ x ∉ l.
Proof.
  induction l as [|y l IH]; intros Hidx.
  - injection Hidx as <-. split; [done|apply not_elem_of_nil].
  - cbn [Py.list_index] in Hidx. destruct (decide (y = x)) as [->|Hne]; [done|].
    destruct (Py.list_index x l) as [j|e'] eqn:Hrest; [done|].
    injection Hidx as <-. destruct (IH eq_refl) as [-> Hnotin].
    split; [done|]. intros [?|?]%elem_of_cons; congruence.
Qed.

Lemma getitem_in_range {A} (l : list A) (i : Z) :
  - Z.of_nat (length l) ≤ i < Z.of_nat (length l) →
  ∃ x, Py.getitem l i = Py.Ok x ∧
       l !! Z.to_nat (i `mod` Z.of_nat (length l)) = Some x.
Proof.
  intros Hrange. unfold Py.getitem.
  assert (Hmod : i `mod` Z.of_nat (length l)
                 = if Z.ltb i 0 then i + Z.of_nat (length l) else i).
  { destruct (Z.ltb_spec i 0).
    - symmetry. apply Z.mod_unique with (-1); lia.
    - apply Z.mod_small. lia. }
  rewrite Hmod.
  set (j := if Z.ltb i 0 then i + Z.of_nat (length l) else i).
  assert (0 ≤ j < Z.of_nat (length l)) as Hj
    by (subst j; destruct (Z.ltb_spec i 0); lia).
  destruct (Z.ltb_spec j 0); [lia|].
  destruct (lookup_lt_is_Some_2 l (Z.to_nat j)) as [x Hx]; [lia|].
  exists x. by rewrite Hx.
Qed.

Lemma getitem_out_of_range {A} (l : list A) (i : Z) :
  i < - Z.of_nat (length l) ∨ Z.of_nat (length l) ≤ i →
  Py.getitem l i = Py.Raise Py.IndexError.
Proof.
  intros Hrange. unfold Py.getitem.
  destruct (Z.ltb_spec i 0).
  - destruct (Z.ltb_spec (i + Z.of_nat (length l)) 0); [done|lia].
  - destruct (Z.ltb_spec i 0); [lia|].
    rewrite lookup_ge_None_2; [done|lia].
Qed.

Lemma lower_ascii_idemp (c : ascii) :
  Py.lower_ascii (Py.lower_ascii c) = Py.lower_ascii c.
Proof.
  destruct c as [[] [] [] [] [] [] [] []]; reflexivity.
Qed.

Lemma lower_idemp (s : string) : Py.lower (Py.lower s) = Py.lower s.
Proof.
  induction s as [|c s IH]; [done|].
  cbn [Py.lower]. by rewrite lower_ascii_idemp, IH.
Qed.

Lemma axis_letters_lower (letter : string) :
  letter ∈ axis_letters → Py.lower letter = letter.
Proof.
  unfold axis_letters. rewrite !elem_of_cons.
  intros [->|[->|[->|[->|[->|[->|[->|[->|[->|[->|Hnil]]]]]]]]]];
    [reflexivity..|by apply elem_of_nil in Hnil].
Qed.

End AxisHelperFacts.

(** X12.  On a string, [getAxisNumber] either returns or raises
    [ValueError], the latter exactly when the lower-cased string is not
    one of the ten axis letters.  A number it returns lies in 0..9, so it
    is never -1, and [getAxisLetter] of that number gives back the
    lower-cased string. *)
Theorem axis_number_of_letter (s : string) :
  (∀ n, MachineActions.getAxisNumber (MachineActions.AxisStr s) = Py.Ok n →
        0 ≤ n ≤ 9 ∧
        MachineActions.getAxisLetter (MachineActions.AxisInt n)
        = Py.Ok (Py.lower s)) ∧
  (∀ e, MachineActions.getAxisNumber (MachineActions.AxisStr s) = Py.Raise e →
        e = Py.ValueError) ∧
  (MachineActions.getAxisNumber (MachineActions.AxisStr s) = Py.Raise Py.ValueError
   ↔ Py.lower s ∉ MachineActions.axis_letters).
Proof.
  cbn [MachineActions.getAxisNumber]. split; [|split].
  - intros n Hidx. apply list_index_Ok in Hidx as [Hrange Hlook].
    cbn in Hrange. split; [lia|].
    unfold MachineActions.getAxisLetter, Py.getitem.
    destruct (Z.ltb_spec n 0); [lia|].
    destruct (Z.ltb_spec n 0); [lia|]. by rewrite Hlook.
  - intros e Hidx. by apply list_index_Raise in Hidx as [-> _].
  - split.
    + intros Hidx. by apply list_index_Raise in Hidx as [_ Hnotin].
    + intros Hnotin.
      destruct (Py.list_index (Py.lower s) MachineActions.axis_letters)
        as [n|e] eqn:Hidx.
      * apply list_index_Ok in Hidx as [_ Hlook].
        exfalso. apply Hnotin. by eapply list_elem_of_lookup_2.
      * by apply list_index_Raise in Hidx as [-> _].
Qed.

Lemma axis_number_of_letter_witness :
  0 ≤ 8 ≤ 9 ∧
  MachineActions.getAxisLetter (MachineActions.AxisInt 8) = Py.Ok (Py.lower "W").
Proof.
  apply (proj1 (axis_number_of_letter "W") 8). reflexivity.
Defined.

(** X13.  On an integer, [getAxisLetter] returns for -10..9 and raises
    [IndexError] for every other number.  A negative number in range
    names the letter of that number plus ten, and converting the letter
    back with [getAxisNumber] gives the number modulo 10, in 0..9. *)
Theorem axis_letter_of_number (n : Z) :
  (-10 ≤ n ≤ 9 →
     ∃ letter,
       MachineActions.getAxisLetter (MachineActions.AxisInt n) = Py.Ok letter ∧
       letter ∈ MachineActions.axis_letters ∧
       MachineActions.getAxisLetter (MachineActions.AxisInt (n `mod` 10))
       = Py.Ok letter ∧
       MachineActions.getAxisNumber (MachineActions.AxisStr letter)
       = Py.Ok (n `mod` 10)) ∧
  (n < -10 ∨ 9 < n →
     MachineActions.getAxisLetter (MachineActions.AxisInt n)
     = Py.Raise Py.IndexError).
Proof.
  split.
  - intros Hn.
    assert (n = -10 ∨ n = -9 ∨ n = -8 ∨ n = -7 ∨ n = -6 ∨ n = -5 ∨ n = -4
            ∨ n = -3 ∨ n = -2 ∨ n = -1 ∨ n = 0 ∨ n = 1 ∨ n = 2 ∨ n = 3
            ∨ n = 4 ∨ n = 5 ∨ n = 6 ∨ n = 7 ∨ n = 8 ∨ n = 9) as Hcases by lia.
    repeat (destruct Hcases as [->|Hcases]); try subst n;
      (eexists; split; [reflexivity|]; split; [compute_done|];
       split; reflexivity).
  - intros Hn. cbn [MachineActions.getAxisLetter].
    apply getitem_out_of_range. cbn. lia.
Qed.

Lemma axis_letter_of_number_witness :
  MachineActions.getAxisLetter (MachineActions.AxisInt 10)
  = Py.Raise Py.IndexError.
Proof.
  apply (proj2 (axis_letter_of_number 10)). lia.
Defined.

(** X14.  [getAxisLetter] is idempotent: whatever it returns, for an
    integer or a string, it returns again when given that result; and on
    strings it never raises, whether or not the string names an axis. *)
Theorem axis_letter_idempotent (axis : MachineActions.axis_arg) (letter : string) :
  MachineActions.getAxisLetter axis = Py.Ok letter →
  MachineActions.getAxisLetter (MachineActions.AxisStr letter) = Py.Ok letter ∧
  ∀ s, Py.is_ok (MachineActions.getAxisLetter (MachineActions.AxisStr s)) = true.
Proof.
  intros Hletter. split; [|done].
  destruct axis as [n|s]; cbn [MachineActions.getAxisLetter] in *.
  - destruct (decide (-10 ≤ n ≤ 9)) as [Hn|Hn].
    + destruct (getitem_in_range MachineActions.axis_letters n)
        as (x & Hx & Hlook); [cbn; lia|].
      rewrite Hx in Hletter. injection Hletter as <-.
      f_equal. apply axis_letters_lower. by eapply list_elem_of_lookup_2.
    + rewrite getitem_out_of_range in Hletter; [done|cbn; lia].
  - injection Hletter as <-. by rewrite lower_idemp.
Qed.

Lemma axis_letter_idempotent_witness :
  MachineActions.getAxisLetter (MachineActions.AxisStr "q") = Py.Ok "q".
Proof.
  apply (axis_letter_idempotent (MachineActions.AxisStr "Q") "q"). reflexivity.
Defined.

(** ** The action groups *)

Section ActionFacts.
Import Actions.
Context {object : Type}.
Implicit Types s : session object.

Lemma act_bind_ok {A B} (m : Act object A) (k : A → Act object B) s s' a :
  m s = (s', Py.Ok a) → (m ≫= k) s = k a s'.
Proof. intros Hm. unfold mbind, Act_bind. by rewrite Hm. Qed.

Lemma act_bind_raise {A B} (m : Act object A) (k : A → Act object B) s s' e :
  m s = (s', Py.Raise e) → (m ≫= k) s = (s', Py.Raise e).
Proof. intros Hm. unfold mbind, Act_bind. by rewrite Hm. Qed.

Lemma power_ok_result with_widget s :
  (power_ok with_widget s).2
  = Py.Ok (Z.eqb (STAT_task_state s) STATE_ESTOP_RESET).
Proof.
  unfold power_ok, mbind, Act_bind, gets. cbn.
  destruct (Z.eqb (STAT_task_state s) STATE_ESTOP_RESET), with_widget; reflexivity.
Qed.

Lemma home_ok_result jnum with_widget s :
  (home_ok jnum with_widget s).2
  = Py.Ok (Z.eqb (STAT_task_state s) STATE_ON).
Proof.
  unfold home_ok, power_is_on, mbind, Act_bind, gets. cbn.
  destruct (Z.eqb (STAT_task_state s) STATE_ON), with_widget; reflexivity.
Qed.

Lemma home_all_unfold s :
  home_all s
  = (add_command (CMD_home (-1))
       (add_command (CMD_teleop_enable false)
          (add_command (Call_setTaskMode MODE_MANUAL)
             (add_log (LogInfo "Homing all axes") s))),
     Py.Ok tt).
Proof. reflexivity. Qed.

Lemma log_then_home_joint (l : log_record) (jnum : Z) s :
  (log l ;; _home_joint jnum) s
  = (add_command (CMD_home jnum)
       (add_command (CMD_teleop_enable false)
          (add_command (Call_setTaskMode MODE_MANUAL) (add_log l s))),
     Py.Ok tt).
Proof. reflexivity. Qed.

End ActionFacts.

(** X15.  [power.ok] holds exactly when the task state is E-stop reset and
    [home.ok] exactly when the machine is on, so the two never hold
    together.  Each leaves its message in its [msg] attribute: for
    [power.ok] the invitation to turn the machine on or the remark that it
    cannot be turned on before the E-stop is reset, for [home.ok] the
    empty text or the remark that the machine must be on.  Called with a
    widget, each enables or disables the widget according to its answer
    and sets both tips of the widget to that message; called without one,
    it leaves the widget alone.  While the machine is on, [power.ok]
    answers no, so a widget bound to a power action is then disabled. *)
Theorem power_and_home_guards {object : Type} (s : Actions.session object)
    (jnum : MachineActions.axis_arg) :
  let p := Actions.power_ok true s in
  let h := Actions.home_ok jnum true s in
  let p_msg := if Z.eqb (Actions.STAT_task_state s) Actions.STATE_ESTOP_RESET
               then "Turn machine on"
               else "Can't turn machine ON until out of E-Stop" in
  let h_msg := if Z.eqb (Actions.STAT_task_state s) Actions.STATE_ON
               then "" else "Machine must be on to home" in
  (p.2 = Py.Ok true ↔ Actions.STAT_task_state s = Actions.STATE_ESTOP_RESET) ∧
  (h.2 = Py.Ok true ↔ Actions.STAT_task_state s = Actions.STATE_ON) ∧
  ¬ (p.2 = Py.Ok true ∧ h.2 = Py.Ok true) ∧
  p.2 = Py.Ok (Actions.enabled (Actions.the_widget p.1)) ∧
  h.2 = Py.Ok (Actions.enabled (Actions.the_widget h.1)) ∧
  Actions.statusTip (Actions.the_widget p.1) = Actions.toolTip (Actions.the_widget p.1) ∧
  Actions.power_ok_msg p.1 = Some (Actions.toolTip (Actions.the_widget p.1)) ∧
  ((Actions.power_is_on s).2 = Py.Ok true →
     Actions.enabled (Actions.the_widget p.1) = false ∧
     Actions.toolTip (Actions.the_widget p.1)
     = "Can't turn machine ON until out of E-Stop") ∧
  (Actions.statusTip (Actions.the_widget p.1) = p_msg ∧
   Actions.toolTip (Actions.the_widget p.1) = p_msg ∧
   Actions.power_ok_msg p.1 = Some p_msg ∧
   Actions.home_ok_msg p.1 = Actions.home_ok_msg s) ∧
  (Actions.statusTip (Actions.the_widget h.1) = h_msg ∧
   Actions.toolTip (Actions.the_widget h.1) = h_msg ∧
   Actions.home_ok_msg h.1 = Some h_msg ∧
   Actions.power_ok_msg h.1 = Actions.power_ok_msg s) ∧
  (Actions.is_QAction (Actions.the_widget p.1) = Actions.is_QAction (Actions.the_widget s) ∧
   Actions.checkable (Actions.the_widget p.1) = Actions.checkable (Actions.the_widget s) ∧
   Actions.is_QAction (Actions.the_widget h.1) = Actions.is_QAction (Actions.the_widget s) ∧
   Actions.checkable (Actions.the_widget h.1) = Actions.checkable (Actions.the_widget s)) ∧
  (let p0 := Actions.power_ok false s in
   let h0 := Actions.home_ok jnum false s in
   p0.2 = p.2 ∧ h0.2 = h.2 ∧
   Actions.the_widget p0.1 = Actions.the_widget s ∧
   Actions.the_widget h0.1 = Actions.the_widget s ∧
   Actions.power_ok_msg p0.1 = Some p_msg ∧
   Actions.home_ok_msg h0.1 = Some h_msg) ∧
  (Actions.sent p.1 = Actions.sent s ∧ Actions.sent h.1 = Actions.sent s ∧
   Actions.bindings p.1 = Actions.bindings s ∧
   Actions.bindings h.1 = Actions.bindings s).
Proof.
  intros p h p_msg h_msg.
  assert (Hp : p.2 = Py.Ok (Z.eqb (Actions.STAT_task_state s)
                                  Actions.STATE_ESTOP_RESET))
    by apply power_ok_result.
  assert (Hh : h.2 = Py.Ok (Z.eqb (Actions.STAT_task_state s) Actions.STATE_ON))
    by apply home_ok_result.
  split; [|split; [|split]].
  - rewrite Hp. split.
    + intros [= Heq]. by apply Z.eqb_eq.
    + intros ->. reflexivity.
  - rewrite Hh. split.
    + intros [= Heq]. by apply Z.eqb_eq.
    + intros ->. reflexivity.
  - rewrite Hp, Hh. intros [[= H1%Z.eqb_eq] [= H2%Z.eqb_eq]].
    rewrite H1 in H2. discriminate.
  - subst p h p_msg h_msg.
    unfold Actions.power_ok, Actions.home_ok, Actions.power_is_on,
      mbind, Actions.Act_bind, Actions.gets. cbn.
    destruct (Z.eqb_spec (Actions.STAT_task_state s) Actions.STATE_ESTOP_RESET)
      as [Hreset|Hreset];
      destruct (Z.eqb_spec (Actions.STAT_task_state s) Actions.STATE_ON)
        as [Hon|Hon]; cbn; repeat split; try done.
    all: try (rewrite Hreset in Hon; discriminate).
    all: try (intros _; rewrite Hreset in Hon; discriminate).
Qed.

Lemma power_and_home_guards_witness :
  Actions.enabled
    (Actions.the_widget
       (Actions.power_ok true
          (Actions.Session 0 Actions.STATE_ON
             (Actions.Widget false true "" "" true) None None None [] []
             ([] : list (Actions.binding (list string))))).1)
  = false ∧
  Actions.toolTip
    (Actions.the_widget
       (Actions.home_ok (MachineActions.AxisInt 0) true
          (Actions.Session 0 Actions.STATE_ESTOP
             (Actions.Widget false true "old tip" "old tip" true) None None None [] []
             ([] : list (Actions.binding (list string))))).1)
  = "Machine must be on to home".
Proof.
  split.
  - destruct (power_and_home_guards
                (Actions.Session 0 Actions.STATE_ON
                   (Actions.Widget false true "" "" true) None None None [] []
                   ([] : list (Actions.binding (list string))))
                (MachineActions.AxisInt 0))
      as (_ & _ & _ & _ & _ & _ & _ & Hon & _).
    by destruct Hon.
  - destruct (power_and_home_guards
                (Actions.Session 0 Actions.STATE_ESTOP
                   (Actions.Widget false true "old tip" "old tip" true)
                   None None None [] []
                   ([] : list (Actions.binding (list string))))
                (MachineActions.AxisInt 0))
      as (_ & _ & _ & _ & _ & _ & _ & _ & _ & Hhome & _).
    by destruct Hhome as (_ & Htip & _).
Defined.

(** X16.  [home.axis] homes every joint when its argument names the axis
    ["all"], which the numbers -1 and 9 and the string in any letter case
    do, and then does what [home.all] does.  For any other letter it homes
    the joint that [INFO.COORDINATES.index] gives for the letter: it calls
    [setTaskMode(MODE_MANUAL)], disables teleop and homes that joint, in
    this order.  When the argument is no axis or the letter is not among
    the coordinates, the exception is passed on and nothing is sent or
    logged. *)
Theorem home_axis_commands {object : Type}
    (COORDINATES_index : string → Py.result Z)
    (axis : MachineActions.axis_arg) (s : Actions.session object) :
  (∀ letter,
     MachineActions.getAxisLetter axis = Py.Ok letter →
     Py.lower letter = "all" →
     Actions.home_axis COORDINATES_index axis s = Actions.home_all s ∧
     Actions.sent (Actions.home_all s).1
     = Actions.sent s ++ [Actions.Call_setTaskMode Actions.MODE_MANUAL;
                          Actions.CMD_teleop_enable false;
                          Actions.CMD_home (-1)]) ∧
  (∀ letter jnum,
     MachineActions.getAxisLetter axis = Py.Ok letter →
     Py.lower letter ≠ "all" →
     COORDINATES_index letter = Py.Ok jnum →
     (Actions.home_axis COORDINATES_index axis s).2 = Py.Ok tt ∧
     Actions.sent (Actions.home_axis COORDINATES_index axis s).1
     = Actions.sent s ++ [Actions.Call_setTaskMode Actions.MODE_MANUAL;
                          Actions.CMD_teleop_enable false;
                          Actions.CMD_home jnum]) ∧
  (∀ e,
     MachineActions.getAxisLetter axis = Py.Raise e ∨
     (∃ letter, MachineActions.getAxisLetter axis = Py.Ok letter ∧
                Py.lower letter ≠ "all" ∧
                COORDINATES_index letter = Py.Raise e) →
     Actions.home_axis COORDINATES_index axis s = (s, Py.Raise e)) ∧
  (axis = MachineActions.AxisInt (-1) ∨ axis = MachineActions.AxisInt 9 ∨
   (∃ a, axis = MachineActions.AxisStr a ∧ Py.lower a = "all") →
   Actions.home_axis COORDINATES_index axis s = Actions.home_all s).
Proof.
  assert (Hall : ∀ letter,
            MachineActions.getAxisLetter axis = Py.Ok letter →
            Py.lower letter = "all" →
            Actions.home_axis COORDINATES_index axis s = Actions.home_all s).
  { intros letter Hletter Hlow. unfold Actions.home_axis.
    erewrite act_bind_ok; [|unfold Actions.lift; by rewrite Hletter].
    by rewrite (bool_decide_eq_true_2 _ Hlow). }
  split; [|split; [|split]].
  - intros letter Hletter Hlow. split; [by eapply Hall|].
    rewrite home_all_unfold. cbn. by rewrite <- !app_assoc.
  - intros letter jnum Hletter Hlow Hidx. unfold Actions.home_axis.
    erewrite act_bind_ok; [|unfold Actions.lift; by rewrite Hletter].
    rewrite (bool_decide_eq_false_2 _ Hlow).
    erewrite act_bind_ok; [|unfold Actions.lift; by rewrite Hidx].
    rewrite log_then_home_joint. split; [reflexivity|].
    cbn. by rewrite <- !app_assoc.
  - intros e [Hletter|(letter & Hletter & Hlow & Hidx)]; unfold Actions.home_axis.
    + erewrite act_bind_raise; [done|]. unfold Actions.lift. by rewrite Hletter.
    + erewrite act_bind_ok; [|unfold Actions.lift; by rewrite Hletter].
      rewrite (bool_decide_eq_false_2 _ Hlow).
      erewrite act_bind_raise; [done|]. unfold Actions.lift. by rewrite Hidx.
  - intros [->|[->|(a & -> & Hlow)]].
    + by apply (Hall "all").
    + by apply (Hall "all").
    + apply (Hall (Py.lower a)); [done|]. by rewrite lower_idemp.
Qed.

Lemma home_axis_commands_witness :
  Actions.sent
    (Actions.home_axis
       (λ letter, Py.list_index letter ["x"; "z"])
       (MachineActions.AxisInt 2) sample_session).1
  = [Actions.Call_setTaskMode Actions.MODE_MANUAL;
     Actions.CMD_teleop_enable false;
     Actions.CMD_home 1].
Proof.
  destruct (home_axis_commands (λ letter, Py.list_index letter ["x"; "z"])
              (MachineActions.AxisInt 2) sample_session)
    as (_ & Hjoint & _).
  destruct (Hjoint "z" 1) as [_ Hsent]; [reflexivity|discriminate|reflexivity|].
  exact Hsent.
Defined.

(** ** bindWidget *)

Section BindWidgetFacts.
Import Actions.
Context {object : Type} (callable : object → bool).
Context (module_getattr : list string → Py.result (option object)).
Context (AXIS_LETTER_LIST : list string).
Implicit Types s : session object.

Lemma STATUS_connect_on (h : handler) s :
  STATUS_connect "on" h s = (s, Py.Raise (Py.AttributeError "on")).
Proof. reflexivity. Qed.

Lemma STATUS_connect_estop (h : handler) s :
  STATUS_connect "estop" h s
  = (add_binding (StatusSignalTo "estop" h) s, Py.Ok tt).
Proof. reflexivity. Qed.

Lemma prefix_cons (a b : ascii) (s1 s2 : string) :
  String.prefix (String a s1) (String b s2)
  = if ascii_dec a b then String.prefix s1 s2 else false.
Proof. reflexivity. Qed.

Lemma startswith_power_not_estop (name : string) :
  Py.startswith name "power" = true → Py.startswith name "estop" = false.
Proof.
  unfold Py.startswith. intros Hpower.
  destruct name as [|c name]; [done|].
  rewrite prefix_cons in Hpower. rewrite prefix_cons.
  destruct (ascii_dec "p" c) as [<-|]; [|done].
  destruct (ascii_dec "e" "p") as [Heq|]; [discriminate Heq|done].
Qed.

Lemma power_ok_pair with_widget s :
  power_ok with_widget s
  = ((power_ok with_widget s).1,
     Py.Ok (Z.eqb (STAT_task_state s) STATE_ESTOP_RESET)).
Proof.
  rewrite <- (power_ok_result with_widget s). apply surjective_pairing.
Qed.

Lemma home_ok_pair jnum with_widget s :
  home_ok jnum with_widget s
  = ((home_ok jnum with_widget s).1, Py.Ok (Z.eqb (STAT_task_state s) STATE_ON)).
Proof.
  rewrite <- (home_ok_result jnum with_widget s). apply surjective_pairing.
Qed.

(** The widget's signal is connected first, whatever follows. *)
Lemma connect_part (method : object) (arg : string)
    (k : MachineActions.axis_arg → Act object unit) s :
  (arg = "" → callable method = true) →
  ((if bool_decide (arg = "")
    then (if callable method
          then widget_connect (CallMethod method)
          else raise Py.TypeError);;
         mret (MachineActions.AxisStr arg)
    else
      let arg := if PyStr.isdigit arg
                 then MachineActions.AxisInt (PyStr.int_of_digits arg)
                 else MachineActions.AxisStr arg in
      widget_connect (CallMethodWith method arg);;
      mret arg) ≫= k) s
  = k (parsed_arg arg) (add_binding (click_binding (the_widget s) method arg) s).
Proof.
  intros Hcall. unfold parsed_arg, click_binding, bound_arg.
  destruct (decide (arg = "")) as [Harg|Harg].
  - rewrite !(bool_decide_eq_true_2 _ Harg), (Hcall Harg).
    apply act_bind_ok. reflexivity.
  - rewrite !(bool_decide_eq_false_2 _ Harg).
    apply act_bind_ok. reflexivity.
Qed.

(** Then the checkable flag is set for a toggle action. *)
Lemma checkable_part (name : string) (k : Act object unit) s :
  ((if PyStr.endswith name "toggle" then setCheckable true else mret tt);; k) s
  = k (if PyStr.endswith name "toggle"
       then set_widget (Widget (is_QAction (the_widget s)) (enabled (the_widget s))
                               (statusTip (the_widget s)) (toolTip (the_widget s))
                               true) s
       else s).
Proof.
  destruct (PyStr.endswith name "toggle");
    refine (act_bind_ok _ (λ _, k) s _ tt _); reflexivity.
Qed.

Lemma bindWidget_power (action : string) (method : object) s :
  module_getattr (PyStr.split "." (action_name action)) = Py.Ok (Some method) →
  (action_arg action = "" → callable method = true) →
  Py.startswith (action_name action) "power" = true →
  bindWidget callable module_getattr AXIS_LETTER_LIST action s
  = (add_binding (StatusSignalTo "estop" PowerOk)
       (power_ok true (bound_session action method s)).1,
     Py.Raise (Py.AttributeError "on")).
Proof.
  unfold bindWidget, bound_session, action_name, action_arg.
  destruct (PyStr.partition ":" action) as [[name0 sep] arg]. cbn [fst snd].
  set (name := PyStr.replace_char "-" "_" name0).
  intros Hres Hcall Hpower.
  erewrite act_bind_ok; [|unfold lift; by rewrite Hres].
  cbn beta iota.
  rewrite (connect_part method arg _ s Hcall), checkable_part.
  rewrite (startswith_power_not_estop name Hpower), Hpower.
  erewrite act_bind_ok; [|apply power_ok_pair].
  erewrite act_bind_ok; [|apply STATUS_connect_estop].
  apply STATUS_connect_on.
Qed.

Lemma bindWidget_home_all (action : string) (method : object) s :
  module_getattr (PyStr.split "." (action_name action)) = Py.Ok (Some method) →
  (action_arg action = "" → callable method = true) →
  action_name action = "home.all" →
  bindWidget callable module_getattr AXIS_LETTER_LIST action s
  = ((home_ok (MachineActions.AxisInt (-1)) true (bound_session action method s)).1,
     Py.Raise (Py.AttributeError "on")).
Proof.
  unfold bindWidget, bound_session, action_name, action_arg.
  destruct (PyStr.partition ":" action) as [[name0 sep] arg]. cbn [fst snd].
  intros Hres Hcall Hname.
  erewrite act_bind_ok; [|unfold lift; by rewrite Hres].
  cbn beta iota.
  rewrite (connect_part method arg _ s Hcall), checkable_part.
  rewrite Hname.
  change (Py.startswith "home.all" "estop") with false.
  change (Py.startswith "home.all" "power") with false.
  rewrite bool_decide_eq_true_2 by done.
  erewrite act_bind_ok; [|apply home_ok_pair].
  erewrite act_bind_raise; [reflexivity|apply STATUS_connect_on].
Qed.

Lemma bindWidget_home_joint (action : string) (method : object) s :
  module_getattr (PyStr.split "." (action_name action)) = Py.Ok (Some method) →
  (action_arg action = "" → callable method = true) →
  action_name action = "home.joint" →
  bindWidget callable module_getattr AXIS_LETTER_LIST action s
  = ((home_ok (parsed_arg (action_arg action)) true
        (bound_session action method s)).1,
     Py.Raise (Py.AttributeError "on")).
Proof.
  unfold bindWidget, bound_session, action_name, action_arg.
  destruct (PyStr.partition ":" action) as [[name0 sep] arg]. cbn [fst snd].
  intros Hres Hcall Hname.
  erewrite act_bind_ok; [|unfold lift; by rewrite Hres].
  cbn beta iota.
  rewrite (connect_part method arg _ s Hcall), checkable_part.
  rewrite Hname.
  change (Py.startswith "home.joint" "estop") with false.
  change (Py.startswith "home.joint" "power") with false.
  rewrite bool_decide_eq_false_2 by done.
  rewrite bool_decide_eq_true_2 by done.
  erewrite act_bind_ok; [|apply home_ok_pair].
  erewrite act_bind_raise; [reflexivity|apply STATUS_connect_on].
Qed.

Lemma bindWidget_home_axis (action : string) (method : object) s :
  module_getattr (PyStr.split "." (action_name action)) = Py.Ok (Some method) →
  (action_arg action = "" → callable method = true) →
  action_name action = "home.axis" →
  ∃ s' e,
    bindWidget callable module_getattr AXIS_LETTER_LIST action s
    = (s', Py.Raise e) ∧
    bindings s' = bindings (bound_session action method s) ∧
    (e = Py.IndexError ∨ e = Py.ValueError ∨
     e = Py.AttributeError "lower" ∨ e = Py.AttributeError "on").
Proof.
  unfold bindWidget, bound_session, action_name, action_arg.
  destruct (PyStr.partition ":" action) as [[name0 sep] arg]. cbn [fst snd].
  intros Hres Hcall Hname.
  erewrite act_bind_ok; [|unfold lift; by rewrite Hres].
  cbn beta iota.
  rewrite (connect_part method arg _ s Hcall), checkable_part.
  rewrite Hname.
  change (Py.startswith "home.axis" "estop") with false.
  change (Py.startswith "home.axis" "power") with false.
  rewrite !bool_decide_eq_false_2 by done.
  rewrite bool_decide_eq_true_2 by done.
  set (s1 := if PyStr.endswith "home.axis" "toggle" then _ else _).
  destruct (parsed_arg arg) as [n|a] eqn:Hparsed; cbn beta iota.
  - destruct (MachineActions.getAxisLetter (MachineActions.AxisInt n))
      as [letter|e] eqn:Hletter.
    + exists s1, (Py.AttributeError "lower").
      split; [|split; [done|auto]].
      erewrite act_bind_ok; [|reflexivity].
      erewrite act_bind_raise; reflexivity.
    + exists s1, e. split; [|split; [done|]].
      * erewrite act_bind_raise; reflexivity.
      * left. cbn [MachineActions.getAxisLetter] in Hletter.
        destruct (decide (-10 ≤ n ≤ 9)) as [Hn|Hn].
        -- destruct (getitem_in_range MachineActions.axis_letters n)
             as (x & Hx & _); [cbn; lia|]. congruence.
        -- rewrite getitem_out_of_range in Hletter; [congruence|cbn; lia].
  - erewrite act_bind_ok; [|reflexivity].
    destruct (Py.list_index (Py.lower a) AXIS_LETTER_LIST) as [jnum|e] eqn:Hidx.
    + exists (home_ok (MachineActions.AxisStr a) true s1).1,
             (Py.AttributeError "on").
      split; [|split; [|auto]].
      * erewrite act_bind_ok; [|reflexivity].
        erewrite act_bind_ok; [|apply home_ok_pair].
        apply STATUS_connect_on.
      * unfold home_ok, power_is_on, mbind, Act_bind, gets. cbn.
        by destruct (Z.eqb (STAT_task_state s1) STATE_ON).
    + exists s1, e. split; [|split; [done|]].
      * erewrite act_bind_raise; reflexivity.
      * right. left. by apply list_index_Raise in Hidx as [-> _].
Qed.

Lemma bindWidget_estop (action : string) (method : object) s :
  module_getattr (PyStr.split "." (action_name action)) = Py.Ok (Some method) →
  (action_arg action = "" → callable method = true) →
  Py.startswith (action_name action) "estop" = true →
  bindWidget callable module_getattr AXIS_LETTER_LIST action s
  = (add_binding (StatusSignalTo "estop" SetCheckedNot)
       (bound_session action method s),
     Py.Ok tt).
Proof.
  unfold bindWidget, bound_session, action_name, action_arg.
  destruct (PyStr.partition ":" action) as [[name0 sep] arg]. cbn [fst snd].
  intros Hres Hcall Hname.
  erewrite act_bind_ok; [|unfold lift; by rewrite Hres].
  cbn beta iota.
  rewrite (connect_part method arg _ s Hcall), checkable_part.
  rewrite Hname. apply STATUS_connect_estop.
Qed.

Lemma bindWidget_other (action : string) (method : object) s :
  module_getattr (PyStr.split "." (action_name action)) = Py.Ok (Some method) →
  (action_arg action = "" → callable method = true) →
  Py.startswith (action_name action) "estop" = false →
  Py.startswith (action_name action) "power" = false →
  action_name action ∉ ["home.all"; "home.joint"; "home.axis"] →
  bindWidget callable module_getattr AXIS_LETTER_LIST action s
  = (bound_session action method s, Py.Ok tt).
Proof.
  unfold bindWidget, bound_session, action_name, action_arg.
  destruct (PyStr.partition ":" action) as [[name0 sep] arg]. cbn [fst snd].
  intros Hres Hcall Hestop Hpower Hhome.
  erewrite act_bind_ok; [|unfold lift; by rewrite Hres].
  cbn beta iota.
  rewrite (connect_part method arg _ s Hcall), checkable_part.
  rewrite Hestop, Hpower.
  rewrite !elem_of_cons in Hhome.
  rewrite !bool_decide_eq_false_2 by tauto. reflexivity.
Qed.

Lemma bindWidget_no_method (action : string) s :
  (module_getattr (PyStr.split "." (action_name action)) = Py.Ok None →
   bindWidget callable module_getattr AXIS_LETTER_LIST action s = (s, Py.Ok tt)) ∧
  (∀ e, module_getattr (PyStr.split "." (action_name action)) = Py.Raise e →
        bindWidget callable module_getattr AXIS_LETTER_LIST action s
        = (s, Py.Raise e)).
Proof.
  unfold bindWidget, action_name.
  destruct (PyStr.partition ":" action) as [[name0 sep] arg]. cbn [fst snd].
  split.
  - intros Hres. erewrite act_bind_ok; [|unfold lift; by rewrite Hres]. done.
  - intros e Hres. erewrite act_bind_raise; [done|]. unfold lift. by rewrite Hres.
Qed.

Lemma bindWidget_not_callable (action : string) (method : object) s :
  module_getattr (PyStr.split "." (action_name action)) = Py.Ok (Some method) →
  action_arg action = "" → callable method = false →
  bindWidget callable module_getattr AXIS_LETTER_LIST action s
  = (s, Py.Raise Py.TypeError).
Proof.
  unfold bindWidget, action_name, action_arg.
  destruct (PyStr.partition ":" action) as [[name0 sep] arg]. cbn [fst snd].
  intros Hres Harg Hcall.
  erewrite act_bind_ok; [|unfold lift; by rewrite Hres].
  cbn beta iota. rewrite (bool_decide_eq_true_2 _ Harg), Hcall.
  reflexivity.
Qed.

Lemma power_ok_keeps with_widget s :
  bindings (power_ok with_widget s).1 = bindings s ∧
  sent (power_ok with_widget s).1 = sent s.
Proof.
  unfold power_ok, mbind, Act_bind, gets. cbn.
  by destruct (Z.eqb (STAT_task_state s) STATE_ESTOP_RESET), with_widget.
Qed.

Lemma home_ok_keeps jnum with_widget s :
  bindings (home_ok jnum with_widget s).1 = bindings s ∧
  sent (home_ok jnum with_widget s).1 = sent s.
Proof.
  unfold home_ok, power_is_on, mbind, Act_bind, gets. cbn.
  by destruct (Z.eqb (STAT_task_state s) STATE_ON), with_widget.
Qed.

Lemma bound_session_keeps (action : string) (method : object) s :
  bindings (bound_session action method s)
  = bindings s ++ [click_binding (the_widget s) method (action_arg action)] ∧
  sent (bound_session action method s) = sent s ∧
  enabled (the_widget (bound_session action method s)) = enabled (the_widget s) ∧
  statusTip (the_widget (bound_session action method s)) = statusTip (the_widget s) ∧
  toolTip (the_widget (bound_session action method s)) = toolTip (the_widget s) ∧
  checkable (the_widget (bound_session action method s))
  = (checkable (the_widget s) || PyStr.endswith (action_name action) "toggle")%bool.
Proof.
  unfold bound_session.
  destruct (PyStr.endswith (action_name action) "toggle"); cbn.
  - by rewrite orb_true_r.
  - by rewrite orb_false_r.
Qed.

End BindWidgetFacts.

(** X17.  Binding a widget to a power action or to one of the home actions
    never returns normally.  For every action whose name starts with
    [power], and for [home.all] and [home.joint], [bindWidget] raises
    [AttributeError] on [STATUS.on], which [_Status] does not have; for
    [home.axis] it raises as well, that error or one met earlier.  In
    each case the widget's own signal has been connected to the method by
    then. *)
Theorem bindWidget_power_and_home_raise {object : Type}
    (callable : object → bool)
    (module_getattr : list string → Py.result (option object))
    (AXIS_LETTER_LIST : list string)
    (action : string) (method : object) (s : Actions.session object) :
  module_getattr (PyStr.split "." (action_name action)) = Py.Ok (Some method) →
  (action_arg action = "" → callable method = true) →
  let r := Actions.bindWidget callable module_getattr AXIS_LETTER_LIST action s in
  (Py.startswith (action_name action) "power" = true ∨
   action_name action = "home.all" ∨ action_name action = "home.joint" →
   r.2 = Py.Raise (Py.AttributeError "on") ∧
   click_binding (Actions.the_widget s) method (action_arg action)
     ∈ Actions.bindings r.1) ∧
  (action_name action = "home.axis" →
   Py.is_ok r.2 = false ∧
   click_binding (Actions.the_widget s) method (action_arg action)
     ∈ Actions.bindings r.1) ∧
  "on" ∉ (Status.Status_signals ++ Status.QObject_signals).
Proof.
  intros Hres Hcall r.
  destruct (bound_session_keeps action method s) as (Hb & _).
  split; [|split; [|compute_done]].
  - intros [Hpower|[Hall|Hjoint]]; subst r.
    + rewrite (bindWidget_power callable module_getattr AXIS_LETTER_LIST
                 action method s Hres Hcall Hpower).
      split; [done|]. cbn.
      destruct (power_ok_keeps true (bound_session action method s)) as [-> _].
      rewrite Hb, !elem_of_app, list_elem_of_singleton. auto.
    + rewrite (bindWidget_home_all callable module_getattr AXIS_LETTER_LIST
                 action method s Hres Hcall Hall).
      split; [done|]. cbn [fst].
      destruct (home_ok_keeps (MachineActions.AxisInt (-1)) true
                  (bound_session action method s)) as [-> _].
      rewrite Hb, elem_of_app, list_elem_of_singleton. auto.
    + rewrite (bindWidget_home_joint callable module_getattr AXIS_LETTER_LIST
                 action method s Hres Hcall Hjoint).
      split; [done|]. cbn [fst].
      destruct (home_ok_keeps (parsed_arg (action_arg action)) true
                  (bound_session action method s)) as [-> _].
      rewrite Hb, elem_of_app, list_elem_of_singleton. auto.
  - intros Haxis. subst r.
    destruct (bindWidget_home_axis callable module_getattr AXIS_LETTER_LIST
                action method s Hres Hcall Haxis) as (s' & e & -> & Hs' & _).
    split; [done|]. cbn [fst].
    rewrite Hs', Hb, elem_of_app, list_elem_of_singleton. auto.
Qed.

Lemma bindWidget_power_and_home_raise_witness :
  (Actions.bindWidget (λ _, true) sample_module_getattr ["x"; "y"; "z"]
     "power.toggle" sample_session).2
  = Py.Raise (Py.AttributeError "on").
Proof.
  destruct (bindWidget_power_and_home_raise (λ _, true) sample_module_getattr
              ["x"; "y"; "z"] "power.toggle" ["power"; "toggle"] sample_session)
    as (Hraise & _).
  - reflexivity.
  - reflexivity.
  - destruct Hraise as [Hr _]; [left; reflexivity|exact Hr].
Defined.

(** X18.  For an action that is neither a power action nor one of
    [home.all], [home.joint] and [home.axis], [bindWidget] returns
    normally.  It connects the widget's signal ([triggered] for a
    [QAction], [clicked] otherwise) to the method, passing the text after
    the colon when there is one, as a number when it is made of digits;
    it makes the widget checkable when the action name ends in [toggle];
    for an action whose name starts with [estop] it also connects the
    [estop] signal of the status object, and it connects nothing else.
    It sends no command and leaves the widget's enabled flag and tips
    alone. *)
Theorem bindWidget_binds_plain_actions {object : Type}
    (callable : object → bool)
    (module_getattr : list string → Py.result (option object))
    (AXIS_LETTER_LIST : list string)
    (action : string) (method : object) (s : Actions.session object) :
  module_getattr (PyStr.split "." (action_name action)) = Py.Ok (Some method) →
  (action_arg action = "" → callable method = true) →
  Py.startswith (action_name action) "power" = false →
  action_name action ∉ ["home.all"; "home.joint"; "home.axis"] →
  let r := Actions.bindWidget callable module_getattr AXIS_LETTER_LIST action s in
  r.2 = Py.Ok tt ∧
  Actions.bindings r.1
  = Actions.bindings s
    ++ click_binding (Actions.the_widget s) method (action_arg action)
       :: (if Py.startswith (action_name action) "estop"
           then [Actions.StatusSignalTo "estop" Actions.SetCheckedNot]
           else []) ∧
  Actions.checkable (Actions.the_widget r.1)
  = (Actions.checkable (Actions.the_widget s)
     || PyStr.endswith (action_name action) "toggle")%bool ∧
  Actions.enabled (Actions.the_widget r.1) = Actions.enabled (Actions.the_widget s) ∧
  Actions.toolTip (Actions.the_widget r.1) = Actions.toolTip (Actions.the_widget s) ∧
  Actions.sent r.1 = Actions.sent s.
Proof.
  intros Hres Hcall Hpower Hhome r.
  destruct (bound_session_keeps action method s)
    as (Hb & Hsent & Hen & _ & Htip & Hchk).
  destruct (Py.startswith (action_name action) "estop") eqn:Hestop; subst r.
  - rewrite (bindWidget_estop callable module_getattr AXIS_LETTER_LIST
               action method s Hres Hcall Hestop).
    cbn. rewrite Hb, <- app_assoc. done.
  - rewrite (bindWidget_other callable module_getattr AXIS_LETTER_LIST
               action method s Hres Hcall Hestop Hpower Hhome).
    cbn [fst snd]. by rewrite Hb.
Qed.

Lemma bindWidget_binds_plain_actions_witness :
  Actions.bindings
    (Actions.bindWidget (λ _, true) sample_module_getattr ["x"; "y"; "z"]
       "estop.toggle:12" sample_session).1
  = [Actions.Clicked
       (Actions.CallMethodWith ["estop"; "toggle"] (MachineActions.AxisInt 12));
     Actions.StatusSignalTo "estop" Actions.SetCheckedNot].
Proof.
  destruct (bindWidget_binds_plain_actions (λ _, true) sample_module_getattr
              ["x"; "y"; "z"] "estop.toggle:12" ["estop"; "toggle"]
              sample_session)
    as (_ & Hbind & _).
  - reflexivity.
  - reflexivity.
  - reflexivity.
  - compute_done.
  - exact Hbind.
Defined.

(** X19.  When the attribute chain named by the action does not resolve,
    [bindWidget] passes the error on, and when it resolves to [None] it
    returns; when there is no argument and the object found is not
    callable, connecting it raises [TypeError].  In all three cases
    nothing has been connected and the widget is as it was. *)
Theorem bindWidget_without_method {object : Type}
    (callable : object → bool)
    (module_getattr : list string → Py.result (option object))
    (AXIS_LETTER_LIST : list string)
    (action : string) (s : Actions.session object) :
  (∀ e, module_getattr (PyStr.split "." (action_name action)) = Py.Raise e →
        Actions.bindWidget callable module_getattr AXIS_LETTER_LIST action s
        = (s, Py.Raise e)) ∧
  (module_getattr (PyStr.split "." (action_name action)) = Py.Ok None →
   Actions.bindWidget callable module_getattr AXIS_LETTER_LIST action s
   = (s, Py.Ok tt)) ∧
  (∀ method,
     module_getattr (PyStr.split "." (action_name action)) = Py.Ok (Some method) →
     action_arg action = "" → callable method = false →
     Actions.bindWidget callable module_getattr AXIS_LETTER_LIST action s
     = (s, Py.Raise Py.TypeError)).
Proof.
  destruct (bindWidget_no_method callable module_getattr AXIS_LETTER_LIST action s)
    as [Hnone Hraise].
  split; [exact Hraise|]. split; [exact Hnone|].
  intros method. apply bindWidget_not_callable.
Qed.

Lemma bindWidget_without_method_witness :
  Actions.bindWidget (λ _, true) sample_module_getattr ["x"; "y"; "z"]
    "spindle.forward" sample_session
  = (sample_session, Py.Raise (Py.AttributeError "forward")).
Proof.
  apply (proj1 (bindWidget_without_method (λ _, true) sample_module_getattr
                  ["x"; "y"; "z"] "spindle.forward" sample_session)).
  reflexivity.
Defined.

(** ** The first cycle of a new object *)

Section FirstCycleFacts.
Import Status.
Context {value : Type}.

Lemma Status_init_keys_have_signals dir_stat (s0 : snapshot value) q :
  (∀ key, monitored dir_stat key → key ∈ Status_signals) →
  keys_have_signals (Status_init dir_stat s0 q).
Proof.
  intros Hsig key v Hlook. apply Hsig.
  apply (init_old_keys dir_stat s0 key). by eexists.
Qed.

(** No extended status signal has an excluded name or one that starts
    with an underscore. *)
Lemma slot_signal_monitorable (sl : slot) :
  (slot_signal sl ∉ excluded_items) ∧ Py.startswith (slot_signal sl) "_" = false.
Proof. destruct sl; (split; [compute_done|reflexivity]). Qed.

End FirstCycleFacts.

(** X20.  The first cycle of a new object whose monitored attributes all
    name signals of [_Status] compares with the values read when the
    object was built: for a monitored attribute (in [dir(stat)], not
    starting with an underscore, not excluded) it publishes the change
    event, carrying the polled value as the signal's declared type
    delivers it, if and only if [!=] tells the value of the first poll
    from the value read at construction.  Under the name of an excluded
    or underscore attribute nothing is ever published, by the cycle or by
    a slot, whatever the attribute's values do. *)
Theorem first_cycle_compares_with_construction {value : Type}
    `{!Status.Runtime value}
    (dir_stat : list string) (s0 s : Status.snapshot value)
    (q : list Status.error_entry) :
  (∀ key, Status.monitored dir_stat key → key ∈ Status.Status_signals) →
  let w1 := (Status.Status_periodic (Some s) (Status.Status_init dir_stat s0 q)).1 in
  (∀ key,
     Status.monitored dir_stat key →
     ∀ v, Status.StatusSignal key v ∈ Status.emitted w1 ↔
          v = Status.signal_arg key (Status.attr s key) ∧
          Status.py_ne (Status.attr s0 key) (Status.attr s key) = true) ∧
  (∀ key v,
     key ∈ Status.excluded_items ∨ Py.startswith key "_" = true →
     (Status.StatusSignal key v ∉ Status.emitted w1) ∧
     (Status.ExtendedSignal key v ∉ Status.emitted w1)).
Proof.
  intros Hsig w1.
  pose proof (Status_init_keys_have_signals dir_stat s0 q Hsig) as Hkeys.
  destruct (cycle_field_events s _ Hkeys) as (evs & Hem & Hfields & Hinv).
  fold w1 in Hem. cbn [Status.emitted Status.Status_init app] in Hem.
  split.
  - intros key Hm v. rewrite Hem. apply Hfields.
    cbn [Status.old Status.Status_init].
    by apply (init_old_lookup dir_stat s0 key).
  - intros key v Hskip.
    assert (Hnot : ¬ Status.monitored dir_stat key).
    { intros (_ & Hunder & Hexcl). destruct Hskip; [done|congruence]. }
    rewrite Hem. split; intros Hin.
    + destruct (Hinv _ Hin) as [(item & Hitem & _ & He)|[Hchan|[jnum Hjoint]]].
      * apply emission_status in He as [-> _].
        destruct item as [k v0]. apply elem_of_map_to_list in Hitem.
        apply Hnot. apply (init_old_keys dir_stat s0 k). by eexists.
      * exact Hchan.
      * by apply joint_changes_not_status in Hjoint.
    + destruct (Hinv _ Hin) as [(item & Hitem & _ & He)|[Hchan|[jnum Hjoint]]].
      * apply emission_inv in He as [Heq|(sl & payload & Heq)]; [done|].
        injection Heq as -> _.
        destruct (slot_signal_monitorable sl) as [Hexcl Hunder].
        destruct Hskip; [done|congruence].
      * exact Hchan.
      * apply joint_changes_spec in Hjoint as (? & ? & ? & _). done.
Qed.

Lemma first_cycle_compares_with_construction_witness :
  Status.StatusSignal "position" 8
    ∈ Status.emitted
        (Status.Status_periodic
           (Some (sample_stat 1 8 [sample_joint 0; sample_joint 0]))
           (sample_world [])).1.
Proof.
  destruct (first_cycle_compares_with_construction sample_dir
              (sample_stat 1 7 [sample_joint 0; sample_joint 0])
              (sample_stat 1 8 [sample_joint 0; sample_joint 0]) [])
    as [Hiff _].
  - intros key (Hin & Hunder & Hexcl). unfold sample_dir in Hin.
    rewrite !elem_of_cons in Hin.
    destruct Hin as [->|[->|[->|[->|Hnil]]]];
      [done|compute_done| |compute_done|by apply elem_of_nil in Hnil].
    exfalso. apply Hexcl. compute_done.
  - apply (Hiff "position").
    + split; [compute_done|]. split; [reflexivity|compute_done].
    + split; reflexivity.
Defined.
